(** * Loop Habits: the habit-strength and streak engine

    A shallow embedding of the scoring module of the Loop Habits web
    application (the file that exports [calculateHabitScore],
    [isDayScheduled], [calculateStreak], [calculateBestStreak],
    [calculateTotal], [calculateCompletionRate], [calculateScoreHistory]
    and [getHabitStats]), together with the properties its specification
    states about it.

    The file also embeds what surrounds the engine, [getWeeklyCompletions],
    the date helpers of [utils.js] and the callers in the application (day
    navigation, the completion toggle, the statistics dialog, the weekday
    chart and the CSV export), with properties read off their code.

    Conventions of the embedding.

    - A JavaScript number that holds a score is an IEEE-754 binary64
      value.  It is represented by the rational it denotes, and every
      arithmetic operation rounds its exact result to the nearest binary64
      value, ties to even ([Binary64.round64]).  All values of the engine
      stay within [-1, 2], far from overflow, and no NaN can arise.
    - A [Date] is its time value: milliseconds since the epoch, in [Z].
      The local time zone is a fixed offset from UTC (no daylight-saving
      change inside the walked window).  [new Date()] and the setters
      [setHours], [setDate] work in local time; [new Date(s)] on a
      date-only string [s] is midnight UTC.
    - Where the outcome depends on a change of the offset inside the
      walked days (the one-year guard of [calculateStreak], the date loop
      of [exportToCSV]), module [Zoned] embeds the same code for a zone
      whose offset varies: [setHours] and [setDate] then set the local
      time value and read it back as an instant, so local midnights are 23
      or 25 hours apart across a change.  With one offset at every instant
      the walk of [Zoned] is the walk of the engine
      ([zoned_fixed_calculateStreak]).
    - A calendar-date string [YYYY-MM-DD] is represented by its day number
      (days since 1970-01-01); [JSDate.ymd] computes the day number of a
      civil date.  Lexicographic order on such strings is numeric order on
      day numbers.
    - Counters and indices are integers in [Z].
    - The two [while] loops carry a fuel argument; [None] means the fuel
      ran out.  The fuel given by the callers is proved sufficient. *)

From Stdlib Require Import ZArith QArith Qround Qabs Qminmax Qpower.
From Stdlib Require Import Lia Lqa Bool List.
From Stdlib Require Floats.SpecFloat.
Import ListNotations.

Local Open Scope Q_scope.

(* ================================================================== *)
(** * Binary64 arithmetic on rationals *)
(* ================================================================== *)

Module Binary64.

Definition pow2 (e : Z) : Q := 2 ^ e.

(** Nearest integer, ties to even. *)
Definition rne (q : Q) : Z :=
  let f := Qfloor q in
  match Qcompare (q - inject_Z f) (1#2) with
  | Lt => f
  | Eq => if Z.even f then f else (f + 1)%Z
  | Gt => (f + 1)%Z
  end.

(** Floor of the binary logarithm of a positive rational. *)
Definition ilog2 (q : Q) : Z :=
  let k := (Z.log2 (Qnum q) - Z.log2 (Zpos (Qden q)))%Z in
  if Qle_bool (pow2 k) q then k else (k - 1)%Z.

(** Smallest normal exponent and number of stored significand bits. *)
Definition emin : Z := -1022.
Definition mant : Z := 52.

(** Exponent of the unit in the last place of the binade of [a]
    (subnormals share the exponent [emin - mant]). *)
Definition ulp_exp (a : Q) : Z := (Z.max (ilog2 a) emin - mant)%Z.

(** Rounding to a multiple of [2^e]. *)
Definition fixres (e : Z) (x : Q) : Q := inject_Z (rne (x / pow2 e)) * pow2 e.

Definition round_pos (a : Q) : Q := fixres (ulp_exp a) a.

(** Round to nearest binary64, ties to even (sign and magnitude). *)
Definition round64 (q : Q) : Q :=
  match Qnum q with
  | Z0 => 0
  | Zpos _ => Qred (round_pos q)
  | Zneg _ => Qred (- round_pos (- q))
  end.

(** The four operations of the engine: the exact result, rounded. *)
Definition fadd (x y : Q) : Q := round64 (x + y).
Definition fsub (x y : Q) : Q := round64 (x - y).
Definition fmul (x y : Q) : Q := round64 (x * y).
Definition fdiv (x y : Q) : Q := round64 (x / y).

(** A decimal literal denotes the binary64 value nearest to it. *)
Definition literal (q : Q) : Q := round64 q.

End Binary64.

Declare Scope float_scope.
Delimit Scope float_scope with float64.
Infix "+!" := Binary64.fadd (at level 50, left associativity) : float_scope.
Infix "-!" := Binary64.fsub (at level 50, left associativity) : float_scope.
Infix "*!" := Binary64.fmul (at level 40, left associativity) : float_scope.
Infix "/!" := Binary64.fdiv (at level 40, left associativity) : float_scope.
Local Open Scope float_scope.

(* ================================================================== *)
(** * Dates *)
(* ================================================================== *)

Module JSDate.

Local Open Scope Z_scope.

(** [1000 * 60 * 60 * 24], the divisor the source writes out. *)
Definition msPerDay : Z := 1000 * 60 * 60 * 24.

(** The environment of a call: the instant [new Date()] returns and the
    offset of local time from UTC, both in milliseconds. *)
Record Clock : Set := mkClock { now : Z; tzOffset : Z }.

(** Day number of the local calendar date of instant [t]. *)
Definition localDay (tz t : Z) : Z := (t + tz) / msPerDay.

(** [d.setHours(0, 0, 0, 0)]: local midnight of the day of [t]. *)
Definition setHours0 (tz t : Z) : Z := localDay tz t * msPerDay - tz.

(** [d.setDate(d.getDate() + k)]: same local time of day, [k] days on. *)
Definition addDays (t k : Z) : Z := t + k * msPerDay.

(** [d.getDay()]: local weekday, Sunday = 0 (1970-01-01 was a Thursday). *)
Definition getDay (tz t : Z) : Z := (localDay tz t + 4) mod 7.

(** [new Date("YYYY-MM-DD")]: a date-only ISO string denotes midnight UTC. *)
Definition parseISODate (day : Z) : Z := day * msPerDay.

(** Day number of the civil date [y]-[m]-[d] (proleptic Gregorian). *)
Definition ymd (y m d : Z) : Z :=
  let y' := if m <=? 2 then y - 1 else y in
  let era := y' / 400 in
  let yoe := y' - era * 400 in
  let mp := (m + 9) mod 12 in
  let doy := (153 * mp + 2) / 5 + d - 1 in
  let doe := yoe * 365 + yoe / 4 - yoe / 100 + doy in
  era * 146097 + doe - 719468.

End JSDate.

Import JSDate.

(* ================================================================== *)
(** * The habit descriptor *)
(* ================================================================== *)

(** The strings the [switch] of [isDayScheduled] distinguishes; any other
    string falls to its [default] branch. *)
Inductive Frequency : Set :=
| Daily
| Weekly
| Interval
| SpecificDays
| OtherFrequency.

(** The fields of a habit object the engine reads.  [None] is an absent
    (or [null]) field.  [createdAt] is the time value of
    [new Date(habit.createdAt)], taken to be a valid date. *)
Record Habit : Set := mkHabit {
  frequency : option Frequency;
  timesPerWeek : option Z;
  interval : option Z;
  specificDays : option (list Z);
  createdAt : Z
}.

(** A calendar-date string, as its day number. *)
Abbreviation DateStr := Z (only parsing).

(** [new Set(dates)] and [set.has(d)]. *)
Definition has (completedSet : list DateStr) (d : DateStr) : bool :=
  existsb (Z.eqb d) completedSet.

(** [days.includes(x)]. *)
Definition includes (days : list Z) (x : Z) : bool := existsb (Z.eqb x) days.

(** [formatDate(date)]: the local calendar date of [date]. *)
Definition formatDate (tz : Z) (date : Z) : DateStr := localDay tz date.

(** [today = new Date(); today.setHours(0, 0, 0, 0)]. *)
Definition todayOf (c : Clock) : Z := setHours0 (tzOffset c) (now c).

(* ================================================================== *)
(** * The engine *)
(* ================================================================== *)

Definition SCORE_INCREASE : Q := Binary64.literal (52 # 1000).
Definition SCORE_DECREASE : Q := Binary64.literal (35 # 1000).
Definition MAX_SCORE : Q := 1.
Definition MIN_SCORE : Q := 0.

(** [x || d] on a number field: absent, [null] and [0] are falsy. *)
Definition orDefault (x : option Z) (d : Z) : Z :=
  match x with
  | Some v => if (v =? 0)%Z then d else v
  | None => d
  end.

Definition isDayScheduled (tz : Z) (date : Z) (habit : Habit) : bool :=
  let frequency := match frequency habit with Some f => f | None => Daily end in
  match frequency with
  | Daily => true
  | Weekly => true
  | Interval =>
      let interval := orDefault (interval habit) 2 in
      let habitStartDate := setHours0 tz (createdAt habit) in
      let daysSinceStart := ((date - habitStartDate) / msPerDay)%Z in
      (0 <=? daysSinceStart)%Z && (Z.rem daysSinceStart interval =? 0)%Z
  | SpecificDays =>
      let days :=
        match specificDays habit with
        | Some l => l
        | None => [0; 1; 2; 3; 4; 5; 6]%Z
        end in
      includes days (getDay tz date)
  | OtherFrequency => true
  end.

(** The two updates of the running score, which the source writes out in
    both of its walks. *)
Definition scoreUp (score : Q) : Q :=
  let increase := SCORE_INCREASE *! (1 -! score *! (1#2)) in
  Qmin MAX_SCORE (score +! increase).

Definition scoreDown (score : Q) : Q :=
  let decrease := SCORE_DECREASE *! ((1#2) +! score *! (1#2)) in
  Qmax MIN_SCORE (score -! decrease).

(** [[...dates].sort()]: insertion into an ascending list. *)
Fixpoint insertDate (d : DateStr) (l : list DateStr) : list DateStr :=
  match l with
  | [] => [d]
  | x :: r => if (d <=? x)%Z then d :: l else x :: insertDate d r
  end.

Fixpoint sortDates (l : list DateStr) : list DateStr :=
  match l with
  | [] => []
  | x :: r => insertDate x (sortDates r)
  end.

(** Sequencing of loops that may run out of fuel. *)
Definition bindFuel {A B : Type} (m : option A) (k : A -> option B)
  : option B :=
  match m with
  | Some a => k a
  | None => None
  end.

Notation "x <- m ;; k" := (bindFuel m (fun x => k))
  (at level 61, m at next level, right associativity).

Section Engine.

Variable clock : Clock.
Variable completedDates : list DateStr.
Variable habit : Habit.

Let tz : Z := tzOffset clock.

(** The body of the [for] loop of [calculateHabitScore] at index [i]. *)
Definition scoreDay (i : nat) (score : Q) : Q :=
  let completedSet := completedDates in
  let today := todayOf clock in
  let date := addDays today (- Z.of_nat i) in
  let dateStr := formatDate tz date in
  let isScheduled := isDayScheduled tz date habit in
  if negb isScheduled then score
  else
    let wasCompleted := has completedSet dateStr in
    if wasCompleted then scoreUp score else scoreDown score.

(** [for (let i = n - 1; i >= 0; i--)]. *)
Fixpoint scoreWalk (n : nat) (score : Q) : Q :=
  match n with
  | O => score
  | S i => scoreWalk i (scoreDay i score)
  end.

Definition calculateHabitScore (daysToAnalyze : Z) : Q :=
  scoreWalk (Z.to_nat daysToAnalyze) 0.

(** The [while (true)] loop of [calculateStreak]; it leaves through one of
    its two [break]s. *)
Fixpoint streakLoop (fuel : nat) (completedSet : list DateStr)
  (today currentDate streak : Z) : option Z :=
  match fuel with
  | O => None
  | S fuel' =>
      let dateStr := formatDate tz currentDate in
      let isScheduled := isDayScheduled tz currentDate habit in
      if isScheduled && negb (has completedSet dateStr) then Some streak
      else
        let streak := if isScheduled then (streak + 1)%Z else streak in
        let currentDate := addDays currentDate (-1) in
        let daysDiff := ((today - currentDate) / msPerDay)%Z in
        if (365 <? daysDiff)%Z then Some streak
        else streakLoop fuel' completedSet today currentDate streak
  end.

(** More rounds than the one-year guard of the loop lets through. *)
Definition streakFuel : nat := 400.

Definition calculateStreak : option Z :=
  match completedDates with
  | [] => Some 0%Z
  | _ :: _ =>
      let sortedDates := rev (sortDates completedDates) in
      let completedSet := sortedDates in
      let today := todayOf clock in
      let todayStr := formatDate tz today in
      let currentDate :=
        if negb (has completedSet todayStr) && isDayScheduled tz today habit
        then addDays today (-1)
        else today in
      streakLoop streakFuel completedSet today currentDate 0%Z
  end.

(** The [while (currentDate <= endDate)] loop of [calculateBestStreak]. *)
Fixpoint bestLoop (fuel : nat) (completedSet : list DateStr)
  (endDate currentDate bestStreak currentStreak : Z) : option Z :=
  if negb (currentDate <=? endDate)%Z then Some bestStreak
  else
    match fuel with
    | O => None
    | S fuel' =>
        let dateStr := formatDate tz currentDate in
        let isScheduled := isDayScheduled tz currentDate habit in
        let '(bestStreak, currentStreak) :=
          if isScheduled then
            if has completedSet dateStr
            then (Z.max bestStreak (currentStreak + 1), currentStreak + 1)%Z
            else (bestStreak, 0%Z)
          else (bestStreak, currentStreak) in
        bestLoop fuel' completedSet endDate (addDays currentDate 1)
                 bestStreak currentStreak
    end.

(** One round per day from [startDate] to [endDate]. *)
Definition bestFuel (startDate endDate : Z) : nat :=
  Z.to_nat ((endDate - startDate) / msPerDay + 1).

Definition calculateBestStreak : option Z :=
  match completedDates with
  | [] => Some 0%Z
  | _ :: _ =>
      let sortedDates := sortDates completedDates in
      let completedSet := sortedDates in
      match sortedDates with
      | [] => Some 0%Z
      | first :: _ =>
          let startDate := parseISODate first in
          let endDate := todayOf clock in
          bestLoop (bestFuel startDate endDate) completedSet endDate
                   startDate 0%Z 0%Z
      end
  end.

Definition calculateTotal : Z := Z.of_nat (length completedDates).

(** [for (let i = 0; i < days; i++)] of [calculateCompletionRate], with
    [n] rounds left. *)
Fixpoint rateLoop (n : nat) (i : Z) (scheduledDays completedDays : Z)
  : Z * Z :=
  match n with
  | O => (scheduledDays, completedDays)
  | S n' =>
      let completedSet := completedDates in
      let today := todayOf clock in
      let date := addDays today (- i) in
      let dateStr := formatDate tz date in
      if isDayScheduled tz date habit then
        rateLoop n' (i + 1)%Z (scheduledDays + 1)%Z
                 (if has completedSet dateStr
                  then (completedDays + 1)%Z else completedDays)
      else rateLoop n' (i + 1)%Z scheduledDays completedDays
  end.

Definition calculateCompletionRate (days : Z) : Q :=
  let '(scheduledDays, completedDays) := rateLoop (Z.to_nat days) 0%Z 0%Z 0%Z in
  if (0 <? scheduledDays)%Z
  then inject_Z completedDays /! inject_Z scheduledDays
  else 0.

(** An element of the array [calculateScoreHistory] returns. *)
Record HistoryPoint : Set := mkPoint { date : DateStr; score : Q }.

(** The [for] loop of [calculateScoreHistory]; [history.push] appends. *)
Fixpoint historyWalk (n : nat) (history : list HistoryPoint) (score : Q)
  : list HistoryPoint :=
  match n with
  | O => history
  | S i =>
      let completedSet := completedDates in
      let today := todayOf clock in
      let date := addDays today (- Z.of_nat i) in
      let dateStr := formatDate tz date in
      let isScheduled := isDayScheduled tz date habit in
      let score :=
        if isScheduled then
          let wasCompleted := has completedSet dateStr in
          if wasCompleted then scoreUp score else scoreDown score
        else score in
      historyWalk i (history ++ [mkPoint dateStr score]) score
  end.

Definition calculateScoreHistory (days : Z) : list HistoryPoint :=
  historyWalk (Z.to_nat days) [] 0.

(** The object [getHabitStats] returns; its field [score] is [statScore]
    here, [score] being the field of a history point. *)
Record HabitStats : Set := mkStats {
  statScore : Q;
  currentStreak : Z;
  bestStreak : Z;
  total : Z;
  completionRate : Q;
  scoreHistory : list HistoryPoint
}.

Definition getHabitStats : option HabitStats :=
  cs <- calculateStreak ;;
  bs <- calculateBestStreak ;;
  Some {| statScore := calculateHabitScore 60;
          currentStreak := cs;
          bestStreak := bs;
          total := calculateTotal;
          completionRate := calculateCompletionRate 30;
          scoreHistory := calculateScoreHistory 30 |}.

End Engine.

(* ================================================================== *)
(** * Vocabulary of the statements *)
(* ================================================================== *)

Section Views.
Variable clock : Clock.
Variable completedDates : list DateStr.
Variable habit : Habit.

(** The instant the loops compute for index [i]: local midnight, [i]
    days before today. *)
Definition dayAt (i : Z) : Z := addDays (todayOf clock) (- i).

(** The entries [historyWalk] appends for the indices [n - 1] down to 0,
    from the running score [s]. *)
Fixpoint pointsFrom (n : nat) (s : Q) : list HistoryPoint :=
  match n with
  | O => []
  | S i =>
      let s' := scoreDay clock completedDates habit i s in
      mkPoint (formatDate (tzOffset clock) (dayAt (Z.of_nat i))) s'
        :: pointsFrom i s'
  end.

(** The running scores of a history, oldest first. *)
Definition runningScores (days : Z) : list Q :=
  map score (calculateScoreHistory clock completedDates habit days).

(** Every day of the window of [days] days ending today is completed. *)
Definition windowCompleted (days : Z) : Prop :=
  forall i : Z, (0 <= i < days)%Z ->
    has completedDates (formatDate (tzOffset clock) (dayAt i)) = true.

End Views.

(** [history[history.length - 1]]. *)
Definition lastEntry (history : list HistoryPoint) : option HistoryPoint :=
  nth_error history (length history - 1).

(** The running score before entry [k] (the initial score before the
    first entry). *)
Definition prevScore (scores : list Q) (k : nat) : Q :=
  match k with
  | O => 0
  | S j => nth j scores 0
  end.

(** The score after [k] completed scheduled days in a row, from 0. *)
Definition upRun (k : nat) : Q := Nat.iter k scoreUp 0.

(** Boolean forms of the facts checked on the first 27 values of
    [upRun]. *)
Definition upRunRising (k : nat) : bool := negb (Qle_bool (upRun (S k)) (upRun k)).
Definition upRunBelowOne (k : nat) : bool := negb (Qle_bool 1 (upRun k)).

(** Boolean form of the third fact: the increase of completion [k + 2] is
    smaller than the increase of completion [k + 1]. *)
Definition upRunDiminishing (k : nat) : bool :=
  negb (Qle_bool (upRun (S k) - upRun k) (upRun (S (S k)) - upRun (S k))).

(** The completion set that holds each of the [n] days ending today. *)
Definition fullWindow (clock : Clock) (n : nat) : list DateStr :=
  map (fun j => (localDay (tzOffset clock) (now clock) - Z.of_nat j)%Z) (seq 0 n).

Section RateSpec.
Variable clock : Clock.
Variable completedDates : list DateStr.
Variable habit : Habit.

(** The trailing window of [days] days: today and the [days - 1] days
    before it. *)
Definition trailingWindow (days : Z) : list Z :=
  map (fun i => dayAt clock (Z.of_nat i)) (seq 0 (Z.to_nat days)).

Definition isScheduledDay (d : Z) : bool :=
  isDayScheduled (tzOffset clock) d habit.

Definition isCompletedDay (d : Z) : bool :=
  isScheduledDay d && has completedDates (formatDate (tzOffset clock) d).

(** The two counts of the specification of the completion rate. *)
Definition scheduledCount (days : Z) : Z :=
  Z.of_nat (length (filter isScheduledDay (trailingWindow days))).

Definition completedCount (days : Z) : Z :=
  Z.of_nat (length (filter isCompletedDay (trailingWindow days))).

End RateSpec.

(** The interval the specification prescribes: the field when it is a
    valid interval (an integer of at least 2), the default 2 otherwise. *)
Definition specInterval (h : Habit) : Z :=
  match interval h with
  | Some v => if (2 <=? v)%Z then v else 2%Z
  | None => 2%Z
  end.

(** The rule of the specification for frequency [interval], for a given
    interval [iv]: the date is on or after the local midnight of
    [createdAt], and the whole number of days between them is a multiple
    of [iv]. *)
Definition intervalRule (iv tz date : Z) (h : Habit) : Prop :=
  let start := setHours0 tz (createdAt h) in
  (start <= date)%Z /\ (((date - start) / msPerDay) mod iv = 0)%Z.

Section ForwardWalk.
Variable habit : Habit.
Variable completedDates : list DateStr.
Variable first : Z.

(** One round of the forward walk of [calculateBestStreak] on a day
    number, in a zone without offset: the pair is
    [(bestStreak, currentStreak)]. *)
Definition bestStep (d : Z) (st : Z * Z) : Z * Z :=
  let '(bestStreak, currentStreak) := st in
  if isDayScheduled 0 (d * msPerDay) habit then
    if has completedDates d
    then (Z.max bestStreak (currentStreak + 1), currentStreak + 1)%Z
    else (bestStreak, 0%Z)
  else (bestStreak, currentStreak).

(** The pair after the first [n] days from the day [first]. *)
Fixpoint forward (n : nat) : Z * Z :=
  match n with
  | O => (0, 0)%Z
  | S m => bestStep (first + Z.of_nat m) (forward m)
  end.

End ForwardWalk.

(** The same updates on the binary64 numbers of the standard library
    ([SpecFloat], precision 53, maximal exponent 1024), to compare
    [Binary64.round64] with. *)
Module IEEE754.

Import SpecFloat.

Definition prec : Z := 53.
Definition emax : Z := 1024.

Definition ofZ (z : Z) : spec_float := binary_normalize prec emax z 0 false.

(** The quotient of two integers, correctly rounded: the value of a
    decimal literal [n / d]. *)
Definition ratio (n d : Z) : spec_float := SFdiv prec emax (ofZ n) (ofZ d).

Definition value (x : spec_float) : option Q :=
  match x with
  | S754_zero _ => Some 0
  | S754_finite s m e =>
      Some (Qred (inject_Z (cond_Zopp s (Zpos m)) * Binary64.pow2 e))
  | S754_infinity _ => None
  | S754_nan => None
  end.

Definition one : spec_float := ofZ 1.
Definition zero : spec_float := ofZ 0.
Definition half : spec_float := ratio 1 2.

Definition up (score : spec_float) : spec_float :=
  let increase :=
    SFmul prec emax (ratio 52 1000)
      (SFsub prec emax one (SFmul prec emax score half)) in
  let r := SFadd prec emax score increase in
  if SFltb r one then r else one.

Definition down (score : spec_float) : spec_float :=
  let decrease :=
    SFmul prec emax (ratio 35 1000)
      (SFadd prec emax half (SFmul prec emax score half)) in
  let r := SFsub prec emax score decrease in
  if SFltb zero r then r else zero.

(** The running scores of a sequence of scheduled days ([true]: completed). *)
Fixpoint run (days : list bool) (score : spec_float) : list spec_float :=
  match days with
  | [] => []
  | completed :: rest =>
      let score := if completed then up score else down score in
      score :: run rest score
  end.

End IEEE754.

Fixpoint runScores (days : list bool) (score : Q) : list Q :=
  match days with
  | [] => []
  | completed :: rest =>
      let score := if completed then scoreUp score else scoreDown score in
      score :: runScores rest score
  end.

(** Thirty completions (the score reaches the upper clamp), thirty days
    with a miss every third day, then sixty misses (down to the lower
    clamp). *)
Definition sampleDays : list bool :=
  repeat true 30
  ++ map (fun i => negb (i mod 3 =? 2)%nat) (seq 0 30)
  ++ repeat false 60.

(** All quotients [c / s] with [0 <= c <= s <= 40]. *)
Definition sampleRatios : list (Z * Z) :=
  flat_map (fun s => map (fun c => (Z.of_nat c, Z.of_nat s)) (seq 0 (S s)))
           (seq 1 40).

Definition ratioAgrees (cs : Z * Z) : bool :=
  match IEEE754.value (IEEE754.ratio (fst cs) (snd cs)) with
  | Some v => Qeq_bool v (inject_Z (fst cs) /! inject_Z (snd cs))
  | None => false
  end.

(* ================================================================== *)
(** * The rest of the application *)
(* ================================================================== *)

(* ------------------------------------------------------------------ *)
(** ** The rest of the scoring module *)

(** The [for] loop of [getWeeklyCompletions], with [n] rounds left. *)
Fixpoint weeklyLoop (tz : Z) (completedSet : list DateStr) (weekStart : Z)
  (n : nat) (i : Z) (count : Z) : Z :=
  match n with
  | O => count
  | S n' =>
      let date := addDays weekStart i in
      weeklyLoop tz completedSet weekStart n' (i + 1)%Z
        (if has completedSet (formatDate tz date) then (count + 1)%Z else count)
  end.

Definition getWeeklyCompletions (tz : Z) (completedDates : list DateStr)
  (weekStart : Z) : Z :=
  let completedSet := completedDates in
  weeklyLoop tz completedSet weekStart 7 0%Z 0%Z.

(* ------------------------------------------------------------------ *)
(** ** Date helpers of [utils.js] *)

(** [parseDate(dateStr)]: [new Date(year, month - 1, day)], midnight of
    the date in local time. *)
Definition parseDate (tz : Z) (dateStr : DateStr) : Z :=
  (dateStr * msPerDay - tz)%Z.

Definition getToday (clock : Clock) : Z := todayOf clock.

Definition isSameDay (tz : Z) (date1 date2 : Z) : bool :=
  (formatDate tz date1 =? formatDate tz date2)%Z.

(** An argument that is either a [Date] or a date string. *)
Inductive DateOrString : Set :=
| ADate (t : Z)
| AString (s : DateStr).

(** [typeof date === 'string' ? parseDate(date) : date]. *)
Definition asDate (tz : Z) (date : DateOrString) : Z :=
  match date with
  | AString s => parseDate tz s
  | ADate t => t
  end.

Definition isToday (clock : Clock) (date : DateOrString) : bool :=
  let d := asDate (tzOffset clock) date in
  isSameDay (tzOffset clock) d (getToday clock).

Definition isFuture (clock : Clock) (date : DateOrString) : bool :=
  let d := asDate (tzOffset clock) date in
  (getToday clock <? d)%Z.

Definition isPast (clock : Clock) (date : DateOrString) : bool :=
  let d := asDate (tzOffset clock) date in
  (d <? getToday clock)%Z.

Definition getWeekStart (tz : Z) (date : Z) (startDay : Z) : Z :=
  let d := date in
  let day := getDay tz d in
  let diff := Z.rem (day - startDay + 7) 7 in
  let d := addDays d (- diff) in
  setHours0 tz d.

(** The loop of [getWeekDates]; [dates.push] appends. *)
Fixpoint weekDatesLoop (weekStart : Z) (n : nat) (i : Z) (dates : list Z)
  : list Z :=
  match n with
  | O => dates
  | S n' =>
      let date := addDays weekStart i in
      weekDatesLoop weekStart n' (i + 1)%Z (dates ++ [date])
  end.

Definition getWeekDates (weekStart : Z) : list Z :=
  weekDatesLoop weekStart 7 0%Z [].

(** A JavaScript number as [Math.max] and [Math.min] see it: [NaN], one
    of the two infinities, or a finite value (the sign of a zero is not
    kept). *)
Inductive JSNumber : Set :=
| NaN
| NegInfinity
| Finite (q : Q)
| Infinity.

(** [Math.max(a, b)]: [NaN] as soon as an argument is [NaN]. *)
Definition mathMax (a b : JSNumber) : JSNumber :=
  match a, b with
  | NaN, _ => NaN
  | _, NaN => NaN
  | Infinity, _ => Infinity
  | _, Infinity => Infinity
  | NegInfinity, y => y
  | x, NegInfinity => x
  | Finite x, Finite y => Finite (Qmax x y)
  end.

(** [Math.min(a, b)]. *)
Definition mathMin (a b : JSNumber) : JSNumber :=
  match a, b with
  | NaN, _ => NaN
  | _, NaN => NaN
  | NegInfinity, _ => NegInfinity
  | _, NegInfinity => NegInfinity
  | Infinity, y => y
  | x, Infinity => x
  | Finite x, Finite y => Finite (Qmin x y)
  end.

(** [clamp(num, min, max)]: [Math.min(Math.max(num, min), max)]. *)
Definition clamp (num min max : JSNumber) : JSNumber :=
  mathMin (mathMax num min) max.

(* ------------------------------------------------------------------ *)
(** ** Callers in the application *)

(** [navigateDate(direction)] on [state.currentDate]; the result is the
    new [state.currentDate]. *)
Definition navigateDate (clock : Clock) (currentDate : Z) (direction : Z) : Z :=
  let newDate := addDays currentDate direction in
  if (getToday clock <? newDate)%Z then currentDate else newDate.

(** [Math.round(x)]: the nearest integer, a tie going up. *)
Definition mathRound (x : Q) : Z := Qfloor (x + (1#2)).

(** [Math.round(stats.score * 100)], the strength the cards show. *)
Definition strengthPercent (score : Q) : Z := mathRound (score *! 100).

(** The update of [state.completions[habitId]] in [toggleHabitCompletion],
    once the store has answered [isNowCompleted]. *)
Definition updateCompletions (completions : list DateStr) (date : DateStr)
  (isNowCompleted : bool) : list DateStr :=
  if isNowCompleted then
    if negb (includes completions date) then completions ++ [date]
    else completions
  else filter (fun d => negb (d =? date)%Z) completions.

(** [weeklyData[dayOfWeek]++].  [getDay] is a weekday, so the index is
    always one of the seven counters. *)
Fixpoint increment (weeklyData : list Z) (dayOfWeek : nat) : list Z :=
  match weeklyData, dayOfWeek with
  | [], _ => []
  | x :: r, O => (x + 1)%Z :: r
  | x :: r, S i => x :: increment r i
  end.

(** [generateWeeklyData(completions)], on the [date] fields of the
    completions: one counter per weekday, Sunday first. *)
Definition generateWeeklyData (tz : Z) (completions : list DateStr) : list Z :=
  fold_left
    (fun weeklyData completion =>
       let date := parseISODate completion in
       let dayOfWeek := getDay tz date in
       increment weeklyData (Z.to_nat dayOfWeek))
    completions [0; 0; 0; 0; 0; 0; 0]%Z.

(** The summary [openStatisticsModal] shows. *)
Record Overview : Set := mkOverview {
  totalHabits : Z;
  completedToday : Z;
  overallBestStreak : Z;
  avgScore : Q;
  overallScore : Z
}.

(** [state.completions[habitId] || []]. *)
Definition completionsOf (completions : Z -> option (list DateStr))
  (habitId : Z) : list DateStr :=
  match completions habitId with
  | Some dates => dates
  | None => []
  end.

(** The body of [state.habits.forEach] in [openStatisticsModal], on the
    three running values; a habit is its id and its descriptor. *)
Definition overviewStep (clock : Clock) (stateCompletions : Z -> option (list DateStr))
  (todayStr : DateStr) (acc : Z * Z * Q) (entry : Z * Habit)
  : option (Z * Z * Q) :=
  let '(completedToday, bestStreakOverall, totalScore) := acc in
  let '(habitId, habit) := entry in
  let completions := completionsOf stateCompletions habitId in
  stats <- getHabitStats clock completions habit ;;
  Some (if includes completions todayStr
        then (completedToday + 1)%Z else completedToday,
        if (bestStreakOverall <? bestStreak stats)%Z
        then bestStreak stats else bestStreakOverall,
        totalScore +! statScore stats).

Fixpoint overviewLoop (clock : Clock) (stateCompletions : Z -> option (list DateStr))
  (todayStr : DateStr) (habits : list (Z * Habit)) (acc : Z * Z * Q)
  : option (Z * Z * Q) :=
  match habits with
  | [] => Some acc
  | entry :: rest =>
      acc' <- overviewStep clock stateCompletions todayStr acc entry ;;
      overviewLoop clock stateCompletions todayStr rest acc'
  end.

(** The figures of [openStatisticsModal]. *)
Definition openStatisticsModal (clock : Clock) (stateHabits : list (Z * Habit))
  (stateCompletions : Z -> option (list DateStr)) : option Overview :=
  let todayStr := formatDate (tzOffset clock) (getToday clock) in
  acc <- overviewLoop clock stateCompletions todayStr stateHabits
           (0%Z, 0%Z, 0) ;;
  let '(completedToday, bestStreakOverall, totalScore) := acc in
  let habitsLength := Z.of_nat (length stateHabits) in
  let avgScore :=
    if (0 <? habitsLength)%Z then totalScore /! inject_Z habitsLength else 0 in
  Some {| totalHabits := habitsLength;
          completedToday := completedToday;
          overallBestStreak := bestStreakOverall;
          avgScore := avgScore;
          overallScore := mathRound (avgScore *! 100) |}.

(* ================================================================== *)
(** * A zone whose offset changes *)
(* ================================================================== *)

(** The two walks whose outcome depends on a change of the offset from
    UTC inside the walked days, [calculateStreak] and the date loop of
    [exportToCSV], for a zone whose offset varies with the instant. *)
Module Zoned.

Local Open Scope Z_scope.

(** A time zone.  [offsetAt t] is the offset of local time from UTC in
    force at the instant [t].  [offsetOf lt] is the offset with which the
    local time value [lt] is read back as an instant; where a change of
    offset skips [lt] or makes it ambiguous, it is the offset before the
    change. *)
Record Zone : Type := mkZone { offsetAt : Z -> Z; offsetOf : Z -> Z }.

(** The local time value of an instant, and the instant of a local time
    value. *)
Definition localTime (z : Zone) (t : Z) : Z := t + offsetAt z t.
Definition utc (z : Zone) (lt : Z) : Z := lt - offsetOf z lt.

(** Day number of the local calendar date of instant [t]. *)
Definition localDay (z : Zone) (t : Z) : Z := localTime z t / msPerDay.

(** [d.setHours(0, 0, 0, 0)]: the local time value becomes the start of
    its day. *)
Definition setHours0 (z : Zone) (t : Z) : Z := utc z (localDay z t * msPerDay).

(** [d.setDate(d.getDate() + k)]: the local time value moves by [k] days
    and keeps its time of day. *)
Definition addDays (z : Zone) (t k : Z) : Z :=
  utc z (localTime z t + k * msPerDay).

Definition getDay (z : Zone) (t : Z) : Z := (localDay z t + 4) mod 7.

Definition formatDate (z : Zone) (date : Z) : DateStr := localDay z date.

Definition isDayScheduled (z : Zone) (date : Z) (habit : Habit) : bool :=
  let frequency := match frequency habit with Some f => f | None => Daily end in
  match frequency with
  | Daily => true
  | Weekly => true
  | Interval =>
      let interval := orDefault (interval habit) 2 in
      let habitStartDate := setHours0 z (createdAt habit) in
      let daysSinceStart := ((date - habitStartDate) / msPerDay)%Z in
      (0 <=? daysSinceStart)%Z && (Z.rem daysSinceStart interval =? 0)%Z
  | SpecificDays =>
      let days :=
        match specificDays habit with
        | Some l => l
        | None => [0; 1; 2; 3; 4; 5; 6]%Z
        end in
      includes days (getDay z date)
  | OtherFrequency => true
  end.

(** The [while (true)] loop of [calculateStreak]. *)
Fixpoint streakLoop (z : Zone) (habit : Habit) (fuel : nat)
  (completedSet : list DateStr) (today currentDate streak : Z) : option Z :=
  match fuel with
  | O => None
  | S fuel' =>
      let dateStr := formatDate z currentDate in
      let isScheduled := isDayScheduled z currentDate habit in
      if isScheduled && negb (has completedSet dateStr) then Some streak
      else
        let streak := if isScheduled then (streak + 1)%Z else streak in
        let currentDate := addDays z currentDate (-1) in
        let daysDiff := ((today - currentDate) / msPerDay)%Z in
        if (365 <? daysDiff)%Z then Some streak
        else streakLoop z habit fuel' completedSet today currentDate streak
  end.

(** [calculateStreak(completedDates, habit)] called at the instant
    [nowMs]. *)
Definition calculateStreak (z : Zone) (nowMs : Z)
  (completedDates : list DateStr) (habit : Habit) : option Z :=
  match completedDates with
  | [] => Some 0%Z
  | _ :: _ =>
      let sortedDates := rev (sortDates completedDates) in
      let completedSet := sortedDates in
      let today := setHours0 z nowMs in
      let todayStr := formatDate z today in
      let currentDate :=
        if negb (has completedSet todayStr) && isDayScheduled z today habit
        then addDays z today (-1)
        else today in
      streakLoop z habit streakFuel completedSet today currentDate 0%Z
  end.

(** One round per day from [current] to [end_]. *)
Definition csvFuel (current end_ : Z) : nat :=
  Z.to_nat ((end_ - current) / msPerDay + 1).

(** The [while (current <= end)] loop of [exportToCSV], which collects the
    date columns. *)
Fixpoint csvDatesLoop (z : Zone) (fuel : nat) (current end_ : Z)
  (dates : list DateStr) : option (list DateStr) :=
  if negb (current <=? end_)%Z then Some dates
  else
    match fuel with
    | O => None
    | S fuel' =>
        csvDatesLoop z fuel' (addDays z current 1) end_
          (dates ++ [formatDate z current])
    end.

(** The date columns of [exportToCSV] called at the instant [nowMs], from
    the [date] fields of all completions. *)
Definition exportToCSV_dates (z : Zone) (nowMs : Z) (completions : list DateStr)
  : option (list DateStr) :=
  let allDates := sortDates completions in
  let startDate :=
    match allDates with
    | first :: _ => first
    | [] => formatDate z nowMs
    end in
  let endDate := formatDate z nowMs in
  let current := parseISODate startDate in
  let end_ := parseISODate endDate in
  csvDatesLoop z (csvFuel current end_) current end_ [].

(** The zone of a [Clock]: one offset at every instant. *)
Definition fixed (tz : Z) : Zone := mkZone (fun _ => tz) (fun _ => tz).

End Zoned.

(* ================================================================== *)
(** * Vocabulary of the further statements *)
(* ================================================================== *)

(** [a <= b] on JavaScript numbers; it is false as soon as one of them is
    [NaN]. *)
Definition leNumber (a b : JSNumber) : Prop :=
  match a, b with
  | NaN, _ => False
  | _, NaN => False
  | NegInfinity, _ => True
  | _, Infinity => True
  | Finite x, Finite y => x <= y
  | _, _ => False
  end.

(** [a < b] on JavaScript numbers. *)
Definition ltNumber (a b : JSNumber) : Prop :=
  leNumber a b /\ ~ leNumber b a.

(** The same number: both [NaN], the same infinity, or equal finite
    values. *)
Definition sameNumber (a b : JSNumber) : Prop :=
  match a, b with
  | NaN, NaN => True
  | NegInfinity, NegInfinity => True
  | Infinity, Infinity => True
  | Finite x, Finite y => x == y
  | _, _ => False
  end.

(** Weekday of the calendar date with day number [d], Sunday = 0. *)
Definition weekdayOf (d : DateStr) : Z := ((d + 4) mod 7)%Z.

(** Whole days by which [new Date("YYYY-MM-DD")], read back in local
    time, misses the date it was given. *)
Definition isoShift (tz : Z) : Z := if (tz <? 0)%Z then (-1)%Z else 0%Z.

(** Number of elements of [l] that satisfy [p]. *)
Definition countIf {A : Type} (p : A -> bool) (l : list A) : Z :=
  Z.of_nat (length (filter p l)).

Definition sumZ (l : list Z) : Z := fold_right Z.add 0%Z l.

(** The dyadic grid of step 1/64 between 0 and 1; its points are binary64
    numbers. *)
Definition grid (k : Z) : Q := k # 64.

Definition gridFixed (k : nat) : bool :=
  Qeq_bool (Binary64.round64 (grid (Z.of_nat k))) (grid (Z.of_nat k)).

(** The frequencies under which [isDayScheduled] answers [true] for every
    date: daily, weekly, an absent value and an unrecognised string. *)
Definition everyDayFrequency (h : Habit) : bool :=
  match frequency h with
  | None => true
  | Some Daily => true
  | Some Weekly => true
  | Some OtherFrequency => true
  | Some Interval => false
  | Some SpecificDays => false
  end.

(** How many of the listed days are completed. *)
Definition hits (completedSet : list DateStr) (days : list DateStr) : nat :=
  length (filter (has completedSet) days).

(** The local time value the date loop of [exportToCSV] holds in its
    round [i]: the local time of midnight UTC of the first date, [i]
    days on. *)
Definition columnTime (z : Zoned.Zone) (first i : Z) : Z :=
  (Zoned.localTime z (parseISODate first) + i * msPerDay)%Z.

(** Whether the loop of [exportToCSV] reaches today: it does when it
    starts today, and otherwise when the offset from UTC at its last round
    is not below the offset at its start. *)
Definition todayHasColumn (z : Zoned.Zone) (first today : Z) : bool :=
  (first =? today)%Z
  || (Zoned.offsetAt z (parseISODate first)
      <=? Zoned.offsetOf z (columnTime z first (today - first)))%Z.

(** A zone with one change of offset, at the instant [change], from
    [before] to [after]. *)
Definition oneChange (change before after : Z) : Zoned.Zone :=
  Zoned.mkZone
    (fun t => if (t <? change)%Z then before else after)
    (fun lt => if (lt <? change + Z.max before after)%Z then before else after).

(** New York around 10 March 2024, when summer time began at 07:00 UTC
    (UTC-5 before, UTC-4 after). *)
Definition newYork2024 : Zoned.Zone :=
  oneChange (ymd 2024 3 10 * msPerDay + 7 * 3600000) (-5 * 3600000) (-4 * 3600000).

(** Paris around 27 October 2024, when summer time ended at 01:00 UTC
    (UTC+2 before, UTC+1 after). *)
Definition paris2024 : Zoned.Zone :=
  oneChange (ymd 2024 10 27 * msPerDay + 1 * 3600000) (2 * 3600000) (1 * 3600000).

(* ================================================================== *)
(** * Rounding *)
(* ================================================================== *)

Module Binary64Facts.
Import Binary64.

Lemma pow2_pos e : 0 < pow2 e.
Proof. apply Qpower_0_lt. reflexivity. Qed.

Lemma pow2_le a b : (a <= b)%Z -> pow2 a <= pow2 b.
Proof. intros. apply Qpower_le_compat_l; [assumption | discriminate]. Qed.

Lemma pow2_add a b : pow2 (a + b) == pow2 a * pow2 b.
Proof. apply Qpower_plus. discriminate. Qed.

Lemma pow2_Z a : (0 <= a)%Z -> pow2 a == inject_Z (2 ^ a).
Proof. intros. unfold pow2. rewrite Zpower_Qpower by assumption. reflexivity. Qed.

Lemma pow2_opp a : pow2 (- a) == / pow2 a.
Proof. apply Qpower_opp. Qed.

Lemma rne_floor q : (Qfloor q <= rne q <= Qfloor q + 1)%Z.
Proof.
  unfold rne. destruct (Qcompare _ _); try lia.
  destruct (Z.even _); lia.
Qed.

Lemma rne_Z z : rne (inject_Z z) = z.
Proof.
  unfold rne. rewrite Qfloor_Z.
  destruct (Qcompare_spec (inject_Z z - inject_Z z) (1#2)) as [H|H|H];
    [exfalso; lra | reflexivity | exfalso; lra].
Qed.

Lemma rne_le x y : x <= y -> (rne x <= rne y)%Z.
Proof.
  intros Hxy.
  pose proof (Qfloor_resp_le _ _ Hxy) as Hf.
  destruct (Z.eq_dec (Qfloor x) (Qfloor y)) as [E|N].
  - unfold rne. rewrite <- E.
    destruct (Qcompare_spec (x - inject_Z (Qfloor x)) (1#2)) as [Hx|Hx|Hx];
    destruct (Qcompare_spec (y - inject_Z (Qfloor x)) (1#2)) as [Hy|Hy|Hy];
    try lia; try (destruct (Z.even _); lia); exfalso; lra.
  - pose proof (rne_floor x). pose proof (rne_floor y). lia.
Qed.

(** A quotient of a number by a power of two, bounded through the power. *)
Lemma div_pow2_ge x k : pow2 k <= x -> 1 <= / pow2 k * x.
Proof.
  intros H. pose proof (pow2_pos k) as P.
  setoid_replace (/ pow2 k * x) with (x / pow2 k) by (unfold Qdiv; ring).
  apply Qle_shift_div_l; [assumption | lra].
Qed.

Lemma div_pow2_le x k : x <= pow2 k -> / pow2 k * x <= 1.
Proof.
  intros H. pose proof (pow2_pos k) as P.
  setoid_replace (/ pow2 k * x) with (x / pow2 k) by (unfold Qdiv; ring).
  apply Qle_shift_div_r; [assumption | lra].
Qed.

Lemma ilog2_spec q : 0 < q -> pow2 (ilog2 q) <= q < pow2 (ilog2 q + 1).
Proof.
  intros Hq. destruct q as [n d]. unfold ilog2. cbn [Qnum Qden].
  assert (Hn : (0 < n)%Z) by (unfold Qlt in Hq; cbn in Hq; lia).
  pose proof (Z.log2_spec n Hn) as [Hn1 Hn2].
  pose proof (Z.log2_spec (Zpos d) (Pos2Z.is_pos d)) as [Hd1 Hd2].
  pose proof (Z.log2_nonneg n) as Ln. pose proof (Z.log2_nonneg (Zpos d)) as Ld.
  remember (Z.log2 n) as ln eqn:Eln. remember (Z.log2 (Zpos d)) as ld eqn:Eld.
  assert (Hq' : n # d == inject_Z n / inject_Z (Zpos d)) by (apply Qmake_Qdiv).
  assert (Hdpos : 0 < inject_Z (Zpos d)) by (unfold Qlt; cbn; lia).
  assert (Pn1 : pow2 ln <= inject_Z n)
    by (rewrite pow2_Z by lia; rewrite <- Zle_Qle; lia).
  assert (Pn2 : inject_Z n <= pow2 (ln + 1)).
  { rewrite pow2_Z by lia. rewrite <- Zle_Qle.
    replace (ln + 1)%Z with (Z.succ ln) by lia. lia. }
  assert (Pd1 : pow2 ld <= inject_Z (Zpos d))
    by (rewrite pow2_Z by lia; rewrite <- Zle_Qle; lia).
  assert (Pd2 : inject_Z (Zpos d) <= pow2 (ld + 1)).
  { rewrite pow2_Z by lia. rewrite <- Zle_Qle.
    replace (ld + 1)%Z with (Z.succ ld) by lia. lia. }
  assert (Pn2' : inject_Z n < pow2 (ln + 1)).
  { rewrite pow2_Z by lia. rewrite <- Zlt_Qlt.
    replace (ln + 1)%Z with (Z.succ ln) by lia. lia. }
  destruct (Qle_bool (pow2 (ln - ld)) (n # d)) eqn:E.
  - apply Qle_bool_iff in E. split; [assumption|].
    rewrite Hq'. apply Qlt_shift_div_r; [assumption|].
    replace (ln - ld + 1)%Z with ((ln + 1) + - ld)%Z by lia.
    rewrite pow2_add, pow2_opp.
    pose proof (pow2_pos (ln + 1)) as P1.
    apply Qlt_le_trans with (pow2 (ln + 1)); [assumption|].
    rewrite <- (Qmult_1_r (pow2 (ln + 1))) at 1.
    rewrite <- Qmult_assoc. apply Qmult_le_l; [assumption|].
    now apply div_pow2_ge.
  - assert (E' : n # d < pow2 (ln - ld)).
    { apply Qnot_le_lt. intro X. apply Qle_bool_iff in X. congruence. }
    replace (ln - ld - 1 + 1)%Z with (ln - ld)%Z by lia. split; [|assumption].
    rewrite Hq'. apply Qle_shift_div_l; [assumption|].
    replace (ln - ld - 1)%Z with (ln + - (ld + 1))%Z by lia.
    rewrite pow2_add, pow2_opp.
    pose proof (pow2_pos ln) as P1.
    apply Qle_trans with (pow2 ln); [|assumption].
    rewrite <- (Qmult_1_r (pow2 ln)) at 2.
    rewrite <- Qmult_assoc. apply Qmult_le_l; [assumption|].
    now apply div_pow2_le.
Qed.

Lemma ilog2_le a b : 0 < a -> a <= b -> (ilog2 a <= ilog2 b)%Z.
Proof.
  intros Ha Hab.
  destruct (ilog2_spec a Ha) as [A1 _].
  destruct (ilog2_spec b) as [_ B2]; [lra|].
  destruct (Z_le_gt_dec (ilog2 a) (ilog2 b)) as [L|G]; [assumption|exfalso].
  pose proof (pow2_le (ilog2 b + 1) (ilog2 a) ltac:(lia)). lra.
Qed.

Lemma fixres_le e x y : x <= y -> fixres e x <= fixres e y.
Proof.
  intros H. unfold fixres. pose proof (pow2_pos e) as P.
  apply Qmult_le_compat_r; [|lra].
  rewrite <- Zle_Qle. apply rne_le.
  unfold Qdiv. apply Qmult_le_compat_r; [assumption|].
  apply Qlt_le_weak, Qinv_lt_0_compat, P.
Qed.

Lemma fixres_pow2 e k : (e <= k)%Z -> fixres e (pow2 k) == pow2 k.
Proof.
  intros H. unfold fixres.
  assert (E : pow2 k / pow2 e == inject_Z (2 ^ (k - e))).
  { rewrite <- pow2_Z by lia. replace (k - e)%Z with (k + - e)%Z by lia.
    rewrite pow2_add, pow2_opp. reflexivity. }
  assert (R : rne (pow2 k / pow2 e) = (2 ^ (k - e))%Z).
  { rewrite <- (rne_Z (2 ^ (k - e))).
    apply Z.le_antisymm; apply rne_le; rewrite E; apply Qle_refl. }
  rewrite R, <- pow2_Z by lia. rewrite <- pow2_add.
  now replace (k - e + e)%Z with k by lia.
Qed.

Lemma fixres_nonneg e x : 0 <= x -> 0 <= fixres e x.
Proof.
  intros H. unfold fixres. pose proof (pow2_pos e) as P.
  apply Qmult_le_0_compat; [|lra].
  assert (Hz : (0 <= rne (x / pow2 e))%Z).
  { rewrite <- (rne_Z 0) at 1. apply rne_le. change (inject_Z 0) with 0.
    apply Qle_shift_div_l; [assumption|]. lra. }
  rewrite Zle_Qle in Hz. exact Hz.
Qed.

(** Rounding is monotone on the positive numbers: inside a binade it is
    rounding to a fixed resolution, and the power of two that separates
    two binades is a fixed point of both resolutions. *)
Lemma round_pos_le a b : 0 < a -> a <= b -> round_pos a <= round_pos b.
Proof.
  intros Ha Hab. assert (Hb : 0 < b) by lra.
  pose proof (ilog2_le a b Ha Hab) as Hl.
  unfold round_pos.
  destruct (Z.eq_dec (ulp_exp a) (ulp_exp b)) as [E|N].
  - rewrite E. now apply fixres_le.
  - unfold ulp_exp, mant, emin in *.
    destruct (ilog2_spec a Ha) as [_ A2]. destruct (ilog2_spec b Hb) as [B1 _].
    remember (Z.max (ilog2 a) (-1022) - 52)%Z as ea eqn:Hea.
    remember (Z.max (ilog2 b) (-1022) - 52)%Z as eb eqn:Heb.
    apply Qle_trans with (fixres ea (pow2 (ea + 53))).
    { apply fixres_le.
      assert (X : (ilog2 a + 1 <= ea + 53)%Z) by lia.
      apply pow2_le in X. lra. }
    rewrite fixres_pow2 by lia.
    apply Qle_trans with (pow2 (eb + 52)); [apply pow2_le; lia|].
    rewrite <- (fixres_pow2 eb (eb + 52)) by lia.
    apply fixres_le. replace (eb + 52)%Z with (ilog2 b) by lia. assumption.
Qed.

Lemma round_pos_nonneg a : 0 <= a -> 0 <= round_pos a.
Proof. intros. now apply fixres_nonneg. Qed.

Lemma round64_pos q : 0 < q -> round64 q == round_pos q.
Proof.
  intros H. unfold round64. destruct q as [[|n|n] d]; cbn [Qnum].
  - exfalso. unfold Qlt in H. cbn in H. lia.
  - apply Qred_correct.
  - exfalso. unfold Qlt in H. cbn in H. lia.
Qed.

Lemma round64_neg q : q < 0 -> round64 q == - round_pos (- q).
Proof.
  intros H. unfold round64. destruct q as [[|n|n] d]; cbn [Qnum].
  - exfalso. unfold Qlt in H. cbn in H. lia.
  - exfalso. unfold Qlt in H. cbn in H. lia.
  - apply Qred_correct.
Qed.

Lemma round64_zero q : q == 0 -> round64 q = 0.
Proof.
  intros H. unfold round64.
  destruct q as [[|n|n] d]; cbn [Qnum]; try reflexivity;
    exfalso; unfold Qeq in H; cbn in H; lia.
Qed.

(** Rounding to nearest is monotone. *)
Theorem round64_le x y : x <= y -> round64 x <= round64 y.
Proof.
  intros H.
  destruct (Qlt_le_dec 0 x) as [Px|Nx].
  - rewrite (round64_pos x Px), (round64_pos y) by lra. now apply round_pos_le.
  - destruct (Qlt_le_dec x 0) as [Nx'|Zx].
    + rewrite (round64_neg x Nx').
      destruct (Qlt_le_dec y 0) as [Ny|Py].
      * rewrite (round64_neg y Ny).
        apply Qopp_le_compat. apply round_pos_le; lra.
      * pose proof (round_pos_nonneg (- x) ltac:(lra)).
        destruct (Qlt_le_dec 0 y) as [Py'|Zy].
        -- rewrite (round64_pos y Py').
           pose proof (round_pos_nonneg y ltac:(lra)). lra.
        -- rewrite (round64_zero y) by lra. lra.
    + rewrite (round64_zero x) by lra.
      destruct (Qlt_le_dec 0 y) as [Py'|Zy].
      * rewrite (round64_pos y Py'). apply round_pos_nonneg. lra.
      * rewrite (round64_zero y) by lra. lra.
Qed.

#[global] Instance round64_proper : Proper (Qeq ==> Qeq) round64.
Proof.
  intros x y E. apply Qle_antisym; apply round64_le; rewrite E; apply Qle_refl.
Qed.

(** Zero and one are binary64 values. *)
Lemma round64_0 : round64 0 = 0.
Proof. reflexivity. Qed.

Lemma round64_1 : round64 1 = 1.
Proof. vm_compute. reflexivity. Qed.

Lemma round64_nonneg x : 0 <= x -> 0 <= round64 x.
Proof. intros H. rewrite <- round64_0. now apply round64_le. Qed.

Lemma round64_le_1 x : x <= 1 -> round64 x <= 1.
Proof. intros H. rewrite <- round64_1. now apply round64_le. Qed.

End Binary64Facts.

(** On a walk of 120 days the rounding of this file and the binary64
    operations of the standard library give the same scores, bit for bit,
    and so do they on the quotients of the completion rate. *)
Example round64_agrees_on_walk :
  map IEEE754.value (IEEE754.run sampleDays IEEE754.zero)
  = map Some (runScores sampleDays 0).
Proof. vm_compute. reflexivity. Qed.

Example round64_agrees_on_ratios : forallb ratioAgrees sampleRatios = true.
Proof. vm_compute. reflexivity. Qed.

(* ================================================================== *)
(** * Dates and scheduling *)
(* ================================================================== *)

Section DateFacts.
Local Open Scope Z_scope.

Lemma msPerDay_pos : 0 < msPerDay.
Proof. reflexivity. Qed.

Lemma localDay_setHours0 tz t : localDay tz (setHours0 tz t) = localDay tz t.
Proof.
  unfold setHours0, localDay.
  replace ((t + tz) / msPerDay * msPerDay - tz + tz)
    with ((t + tz) / msPerDay * msPerDay) by lia.
  apply Z.div_mul. discriminate.
Qed.

Lemma localDay_addDays tz t k : localDay tz (addDays t k) = localDay tz t + k.
Proof.
  unfold addDays, localDay.
  replace (t + k * msPerDay + tz) with (t + tz + k * msPerDay) by lia.
  apply Z.div_add. discriminate.
Qed.

(** The whole days from the local midnight of [c] to [t] are the
    difference of the two local day numbers. *)
Lemma days_since_midnight tz t c :
  (t - setHours0 tz c) / msPerDay = localDay tz t - localDay tz c.
Proof.
  unfold setHours0.
  replace (t - (localDay tz c * msPerDay - tz))
    with (t + tz + (- localDay tz c) * msPerDay) by lia.
  rewrite Z.div_add by discriminate. unfold localDay. lia.
Qed.

Lemma midnight_le_iff tz t c :
  setHours0 tz c <= t <-> localDay tz c <= localDay tz t.
Proof.
  pose proof (days_since_midnight tz t c) as E.
  pose proof msPerDay_pos as P. split; intro H.
  - assert (0 <= (t - setHours0 tz c) / msPerDay) by (apply Z.div_pos; lia). lia.
  - assert (X : 0 <= (t - setHours0 tz c) / msPerDay) by lia.
    destruct (Z_le_gt_dec (setHours0 tz c) t) as [L|G]; [assumption|exfalso].
    assert ((t - setHours0 tz c) / msPerDay < 0) by (apply Z.div_lt_upper_bound; lia).
    lia.
Qed.

Lemma todayOf_localDay c : localDay (tzOffset c) (todayOf c) = localDay (tzOffset c) (now c).
Proof. apply localDay_setHours0. Qed.

End DateFacts.

Section Scheduling.
Local Open Scope Z_scope.

Lemma orDefault_nonzero x d : d <> 0 -> orDefault x d <> 0.
Proof.
  intros Hd. unfold orDefault. destruct x as [v|]; [|assumption].
  destruct (Z.eqb_spec v 0); assumption.
Qed.

Lemma rem_zero_iff_mod a b : b <> 0 -> (Z.rem a b = 0 <-> a mod b = 0).
Proof.
  intros Hb. rewrite Z.rem_divide, Z.mod_divide by assumption. reflexivity.
Qed.

Lemma isDayScheduled_interval_eq tz date h :
  frequency h = Some Interval ->
  isDayScheduled tz date h =
    let d := localDay tz date - localDay tz (createdAt h) in
    (0 <=? d) && (Z.rem d (orDefault (interval h) 2) =? 0).
Proof.
  intros Hf. unfold isDayScheduled. rewrite Hf.
  cbv zeta. rewrite days_since_midnight. reflexivity.
Qed.

Lemma isDayScheduled_interval_rule tz date h :
  frequency h = Some Interval ->
  isDayScheduled tz date h = true <->
  intervalRule (orDefault (interval h) 2) tz date h.
Proof.
  intros Hf. unfold intervalRule. cbv zeta.
  unfold isDayScheduled. rewrite Hf. cbv zeta.
  assert (Hiv : orDefault (interval h) 2 <> 0) by (apply orDefault_nonzero; discriminate).
  rewrite andb_true_iff, Z.leb_le, Z.eqb_eq, (rem_zero_iff_mod _ _ Hiv).
  rewrite midnight_le_iff, days_since_midnight. split; intros [A B]; split; try assumption; lia.
Qed.

End Scheduling.

(** The scenarios the specification works out. *)
Section Scenarios.

Example ymd_epoch : ymd 1970 1 1 = 0%Z.
Proof. reflexivity. Qed.

Example ymd_2024_01_01 : ymd 2024 1 1 = 19723%Z.
Proof. reflexivity. Qed.

(** 2024-01-01 was a Monday. *)
Example getDay_2024_01_01 : getDay 0 (ymd 2024 1 1 * msPerDay) = 1%Z.
Proof. reflexivity. Qed.

(** [specificDays: [1, 3, 5]] schedules Monday, Wednesday and Friday of
    the week from Monday 2024-01-01 to Sunday 2024-01-07. *)
Example specific_days_mon_wed_fri :
  map (fun i => isDayScheduled 0 ((ymd 2024 1 1 + Z.of_nat i) * msPerDay)
                  (mkHabit (Some SpecificDays) None None (Some [1; 3; 5]%Z) 0))
      (seq 0 7)
  = [true; false; true; false; true; false; false].
Proof. reflexivity. Qed.

(** The literal [0.052] is the binary64 number [0x1.a9fbe76c8b439p-5]. *)
Example SCORE_INCREASE_value :
  SCORE_INCREASE = 7493989779944505 # 144115188075855872.
Proof. vm_compute. reflexivity. Qed.

(** Three completed days of a daily habit, lookback 3 days ending on
    2024-01-03: the recurrence applied three times from 0; the first step
    gives 0.052. *)
Example three_completed_days :
  let clock := mkClock (ymd 2024 1 3 * msPerDay) 0 in
  let habit := mkHabit (Some Daily) None None None (ymd 2024 1 1 * msPerDay) in
  let completedDates := [ymd 2024 1 1; ymd 2024 1 2; ymd 2024 1 3] in
  calculateHabitScore clock completedDates habit 3
  = scoreUp (scoreUp (scoreUp 0))
  /\ scoreUp 0 = SCORE_INCREASE.
Proof. vm_compute. split; reflexivity. Qed.

(** A daily habit that is never completed stays at 0. *)
Example never_completed_stays_zero :
  map score (calculateScoreHistory (mkClock (ymd 2024 1 30 * msPerDay) 0) []
               (mkHabit (Some Daily) None None None 0) 30)
  = repeat 0 30.
Proof. vm_compute. reflexivity. Qed.

End Scenarios.

(* ================================================================== *)
(** * The score walk *)
(* ================================================================== *)

Create HintDb score_range.

Section ScoreRange.
Import Binary64 Binary64Facts.

Lemma SCORE_INCREASE_nonneg : 0 <= SCORE_INCREASE.
Proof. apply round64_nonneg. discriminate. Qed.

Lemma SCORE_DECREASE_nonneg : 0 <= SCORE_DECREASE.
Proof. apply round64_nonneg. discriminate. Qed.

Lemma half_score_range s : 0 <= s <= 1 -> 0 <= s *! (1#2) <= 1.
Proof.
  intros [H0 H1]. unfold fmul. split.
  - apply round64_nonneg. lra.
  - apply round64_le_1. lra.
Qed.

Lemma scoreUp_range s : 0 <= s <= 1 -> 0 <= scoreUp s <= 1.
Proof.
  intros Hs. pose proof (half_score_range s Hs) as [A B].
  unfold scoreUp, MAX_SCORE. cbv zeta. split.
  - apply Q.min_glb; [discriminate|].
    unfold fadd. apply round64_nonneg.
    assert (0 <= SCORE_INCREASE *! (1 -! s *! (1 # 2))).
    { unfold fmul at 1. apply round64_nonneg.
      apply Qmult_le_0_compat; [apply SCORE_INCREASE_nonneg|].
      unfold fsub. apply round64_nonneg. lra. }
    lra.
  - apply Q.le_min_l.
Qed.

Lemma scoreDown_range s : 0 <= s <= 1 -> 0 <= scoreDown s <= 1.
Proof.
  intros Hs. pose proof (half_score_range s Hs) as [A B].
  unfold scoreDown, MIN_SCORE. cbv zeta. split.
  - apply Q.le_max_l.
  - apply Q.max_lub; [discriminate|].
    unfold fsub. apply round64_le_1.
    assert (0 <= SCORE_DECREASE *! ((1 # 2) +! s *! (1 # 2))).
    { unfold fmul at 1. apply round64_nonneg.
      apply Qmult_le_0_compat; [apply SCORE_DECREASE_nonneg|].
      unfold fadd. apply round64_nonneg. lra. }
    lra.
Qed.

#[local] Hint Resolve scoreUp_range scoreDown_range : score_range.

Lemma scoreDay_range clock dates h i s :
  0 <= s <= 1 -> 0 <= scoreDay clock dates h i s <= 1.
Proof.
  intros Hs. unfold scoreDay. cbv zeta.
  destruct (negb _); [assumption|].
  destruct (has _ _); auto with score_range.
Qed.

Lemma scoreWalk_range clock dates h n :
  forall s, 0 <= s <= 1 -> 0 <= scoreWalk clock dates h n s <= 1.
Proof.
  induction n as [|i IH]; intros s Hs; cbn [scoreWalk]; [assumption|].
  apply IH. now apply scoreDay_range.
Qed.

End ScoreRange.

(** C1.  For every clock, completion set, habit and window length (in
    particular every non-negative [lookbackDays]), the binary64 value
    [calculateHabitScore] returns lies in the closed interval [0, 1]. *)
Theorem calculateHabitScore_in_unit_interval :
  forall (clock : Clock) (completedDates : list DateStr) (habit : Habit)
         (lookbackDays : Z),
    0 <= calculateHabitScore clock completedDates habit lookbackDays <= 1.
Proof.
  intros. unfold calculateHabitScore. apply scoreWalk_range. split; discriminate.
Qed.

Section History.
Variable clock : Clock.
Variable completedDates : list DateStr.
Variable habit : Habit.

Lemma historyWalk_points n : forall history s,
  historyWalk clock completedDates habit n history s
  = history ++ pointsFrom clock completedDates habit n s.
Proof.
  induction n as [|i IH]; intros history s; cbn [historyWalk pointsFrom].
  - now rewrite app_nil_r.
  - rewrite IH, <- app_assoc. cbn [app]. f_equal. f_equal.
    + unfold scoreDay, dayAt. cbv zeta.
      destruct (isDayScheduled _ _ _); reflexivity.
    + f_equal. unfold scoreDay. cbv zeta.
      destruct (isDayScheduled _ _ _); reflexivity.
Qed.

Lemma calculateScoreHistory_points days :
  calculateScoreHistory clock completedDates habit days
  = pointsFrom clock completedDates habit (Z.to_nat days) 0.
Proof. unfold calculateScoreHistory. now rewrite historyWalk_points. Qed.

Lemma pointsFrom_length n : forall s,
  length (pointsFrom clock completedDates habit n s) = n.
Proof. induction n as [|i IH]; intros s; cbn [pointsFrom length]; [|rewrite IH]; reflexivity. Qed.

Lemma pointsFrom_last n : forall s,
  option_map score (lastEntry (pointsFrom clock completedDates habit (S n) s))
  = Some (scoreWalk clock completedDates habit (S n) s).
Proof.
  unfold lastEntry.
  induction n as [|i IH]; intros s.
  - reflexivity.
  - specialize (IH (scoreDay clock completedDates habit (S i) s)).
    rewrite pointsFrom_length in *.
    change (pointsFrom clock completedDates habit (S (S i)) s)
      with (mkPoint (formatDate (tzOffset clock) (dayAt clock (Z.of_nat (S i))))
              (scoreDay clock completedDates habit (S i) s)
            :: pointsFrom clock completedDates habit (S i)
                 (scoreDay clock completedDates habit (S i) s)).
    change (scoreWalk clock completedDates habit (S (S i)) s)
      with (scoreWalk clock completedDates habit (S i)
              (scoreDay clock completedDates habit (S i) s)).
    replace (S (S i) - 1)%nat with (S (S i - 1)) by lia.
    cbn [nth_error]. exact IH.
Qed.

Lemma pointsFrom_date n : forall s k d, (k < n)%nat ->
  date (nth k (pointsFrom clock completedDates habit n s) d)
  = (localDay (tzOffset clock) (now clock) - (Z.of_nat n - 1 - Z.of_nat k))%Z.
Proof.
  induction n as [|i IH]; intros s k d Hk; [lia|].
  cbn [pointsFrom]. destruct k as [|k]; cbn [nth].
  - cbn [date]. unfold formatDate, dayAt. rewrite localDay_addDays, todayOf_localDay. lia.
  - rewrite IH by lia. lia.
Qed.

Lemma pointsFrom_unscheduled n : forall s k d, (k < n)%nat ->
  isDayScheduled (tzOffset clock) (dayAt clock (Z.of_nat n - 1 - Z.of_nat k)) habit = false ->
  score (nth k (pointsFrom clock completedDates habit n s) d)
  = match k with
    | O => s
    | S j => score (nth j (pointsFrom clock completedDates habit n s) d)
    end.
Proof.
  induction n as [|i IH]; intros s k d Hk Hu; [lia|].
  cbn [pointsFrom]. destruct k as [|k]; cbn [nth].
  - cbn [score]. unfold scoreDay. cbv zeta.
    replace (Z.of_nat (S i) - 1 - Z.of_nat 0)%Z with (Z.of_nat i) in Hu by lia.
    unfold dayAt in Hu. now rewrite Hu.
  - rewrite IH; [|lia|].
    + destruct k; reflexivity.
    + replace (Z.of_nat i - 1 - Z.of_nat k)%Z
        with (Z.of_nat (S i) - 1 - Z.of_nat (S k))%Z by lia. exact Hu.
Qed.

End History.

(** C2.  For every window length [N >= 1] the score of the last entry of
    [calculateScoreHistory dates habit N] is exactly the value of
    [calculateHabitScore dates habit N]: both perform the same walk. *)
Theorem scoreHistory_last_is_habitScore :
  forall (clock : Clock) (completedDates : list DateStr) (habit : Habit) (N : Z),
    (1 <= N)%Z ->
    option_map score (lastEntry (calculateScoreHistory clock completedDates habit N))
    = Some (calculateHabitScore clock completedDates habit N).
Proof.
  intros clock dates h N HN.
  rewrite calculateScoreHistory_points. unfold calculateHabitScore.
  destruct (Z.to_nat N) as [|n] eqn:E; [lia|].
  apply pointsFrom_last.
Qed.

(** C8.  For [days >= 0] the history has exactly [days] entries; entry
    [k] carries the calendar date [days - 1 - k] days before today, so the
    entries run from the oldest day to today; and the entry of a day that
    is not scheduled carries the score of the entry before it (the initial
    score 0 for the first entry). *)
Theorem calculateScoreHistory_shape :
  forall (clock : Clock) (completedDates : list DateStr) (habit : Habit) (days : Z),
    (0 <= days)%Z ->
    let history := calculateScoreHistory clock completedDates habit days in
    Z.of_nat (length history) = days /\
    forall (k : nat) (d : HistoryPoint), (k < length history)%nat ->
      date (nth k history d)
      = (localDay (tzOffset clock) (now clock) - (days - 1 - Z.of_nat k))%Z /\
      (isDayScheduled (tzOffset clock) (dayAt clock (days - 1 - Z.of_nat k)) habit = false ->
       score (nth k history d)
       = match k with
         | O => 0
         | S j => score (nth j history d)
         end).
Proof.
  intros clock dates h days Hd. cbv zeta.
  rewrite calculateScoreHistory_points, pointsFrom_length.
  split; [lia|]. intros k d Hk. split.
  - rewrite pointsFrom_date by assumption. lia.
  - intros Hu. apply pointsFrom_unscheduled; [assumption|].
    now replace (Z.of_nat (Z.to_nat days)) with days by lia.
Qed.

Section FullWindow.

Lemma fullWindow_completed clock n :
  windowCompleted clock (fullWindow clock n) (Z.of_nat n).
Proof.
  intros i Hi. unfold has, fullWindow. apply existsb_exists.
  exists (formatDate (tzOffset clock) (dayAt clock i)). split; [|apply Z.eqb_refl].
  apply in_map_iff. exists (Z.to_nat i). split.
  - unfold formatDate, dayAt. rewrite localDay_addDays, todayOf_localDay. lia.
  - apply in_seq. lia.
Qed.

Lemma daily_completed_scoreDay clock dates h days i s :
  frequency h = Some Daily -> windowCompleted clock dates days ->
  (i < Z.to_nat days)%nat ->
  scoreDay clock dates h i s = scoreUp s.
Proof.
  intros Hf Hw Hi. unfold scoreDay. cbv zeta.
  unfold isDayScheduled. rewrite Hf. cbn [negb].
  specialize (Hw (Z.of_nat i) ltac:(lia)). unfold dayAt in Hw. now rewrite Hw.
Qed.

Lemma pointsFrom_all_up clock dates h n :
  (forall i s, (i < n)%nat -> scoreDay clock dates h i s = scoreUp s) ->
  forall s k d, (k < n)%nat ->
    score (nth k (pointsFrom clock dates h n s) d) = Nat.iter (S k) scoreUp s.
Proof.
  induction n as [|i IH]; intros Hup s k d Hk; [lia|].
  cbn [pointsFrom]. destruct k as [|k]; cbn [nth].
  - cbn [score]. now rewrite Hup by lia.
  - rewrite IH; [|intros; apply Hup; lia|lia].
    rewrite Hup by lia. now rewrite <- Nat.iter_succ_r.
Qed.

Lemma runningScores_all_up clock dates h days k :
  frequency h = Some Daily -> windowCompleted clock dates days ->
  (k < Z.to_nat days)%nat ->
  nth k (runningScores clock dates h days) 0 = upRun (S k).
Proof.
  intros Hf Hw Hk. unfold runningScores.
  change 0 with (score (mkPoint 0%Z 0)). rewrite map_nth.
  rewrite calculateScoreHistory_points.
  apply pointsFrom_all_up; [|assumption].
  intros i s Hi. now apply daily_completed_scoreDay with (days := days).
Qed.


Lemma Qle_bool_false_lt x y : Qle_bool x y = false -> y < x.
Proof.
  intros H. apply Qnot_le_lt. intro X. apply Qle_bool_iff in X. congruence.
Qed.

Lemma upRun_rising k : (k < 27)%nat -> upRun k < upRun (S k).
Proof.
  intros Hk.
  assert (T : forallb upRunRising (seq 0 27) = true) by (vm_compute; reflexivity).
  rewrite forallb_forall in T. specialize (T k ltac:(apply in_seq; lia)).
  unfold upRunRising in T. apply negb_true_iff in T. now apply Qle_bool_false_lt.
Qed.

Lemma upRun_below_one k : (k < 27)%nat -> upRun k < 1.
Proof.
  intros Hk.
  assert (T : forallb upRunBelowOne (seq 0 27) = true) by (vm_compute; reflexivity).
  rewrite forallb_forall in T. specialize (T k ltac:(apply in_seq; lia)).
  unfold upRunBelowOne in T. apply negb_true_iff in T. now apply Qle_bool_false_lt.
Qed.

Lemma upRun_diminishing k :
  (k < 26)%nat -> upRun (S (S k)) - upRun (S k) < upRun (S k) - upRun k.
Proof.
  intros Hk.
  assert (T : forallb upRunDiminishing (seq 0 26) = true) by (vm_compute; reflexivity).
  rewrite forallb_forall in T. specialize (T k ltac:(apply in_seq; lia)).
  unfold upRunDiminishing in T. apply negb_true_iff in T. now apply Qle_bool_false_lt.
Qed.

Lemma upRun_one k : (27 <= k)%nat -> upRun k = 1.
Proof.
  induction 1 as [|k Hk IH].
  - vm_compute. reflexivity.
  - change (upRun (S k)) with (scoreUp (upRun k)). rewrite IH.
    vm_compute. reflexivity.
Qed.

End FullWindow.

(** C3 fails on the code.  For a daily habit whose completion set holds
    every day of the window, the running score strictly increases on each
    of the first 27 days, by an increment smaller than the one of the day
    before, and is below 1.0 on the first 26 days; on the 27th day the
    clamp [Math.min(MAX_SCORE, ...)] makes it exactly 1.0, and it is 1.0 on
    every later day.  So from a window of 27 days on the score reaches 1.0
    and no longer increases, against the claim and against the documented
    behaviour (a score that approaches but never reaches 100%); up to 26
    days the claim holds as stated. *)
Theorem daily_full_window_scores :
  forall (clock : Clock) (completedDates : list DateStr) (habit : Habit)
         (lookbackDays : Z),
    frequency habit = Some Daily ->
    (1 <= lookbackDays)%Z ->
    windowCompleted clock completedDates lookbackDays ->
    forall k : nat, (k < Z.to_nat lookbackDays)%nat ->
      let scores := runningScores clock completedDates habit lookbackDays in
      ((k < 27)%nat -> prevScore scores k < nth k scores 0) /\
      ((k < 26)%nat -> nth k scores 0 < 1) /\
      ((26 <= k)%nat -> nth k scores 0 = 1) /\
      ((k < 26)%nat -> (S k < Z.to_nat lookbackDays)%nat ->
         nth (S k) scores 0 - nth k scores 0
         < nth k scores 0 - prevScore scores k).
Proof.
  intros clock dates h days Hf Hd Hw k Hk. cbv zeta.
  rewrite (runningScores_all_up clock dates h days k Hf Hw Hk).
  assert (Hp : prevScore (runningScores clock dates h days) k = upRun k).
  { destruct k as [|j]; [reflexivity|]. cbn [prevScore].
    apply runningScores_all_up; [assumption..|lia]. }
  rewrite Hp. repeat split.
  - apply upRun_rising.
  - intros. apply upRun_below_one. lia.
  - intros. apply upRun_one. lia.
  - intros H26 Hn. rewrite (runningScores_all_up clock dates h days (S k) Hf Hw Hn).
    now apply upRun_diminishing.
Qed.

(** C3 as stated fails: with a window of 27 fully completed days the
    running score of the last day is not below 1.0. *)
Lemma daily_full_window_reaches_one :
  ~ (forall (clock : Clock) (completedDates : list DateStr) (habit : Habit)
            (lookbackDays : Z),
       frequency habit = Some Daily ->
       (1 <= lookbackDays)%Z ->
       windowCompleted clock completedDates lookbackDays ->
       forall k : nat, (k < Z.to_nat lookbackDays)%nat ->
         let scores := runningScores clock completedDates habit lookbackDays in
         prevScore scores k < nth k scores 0 /\ nth k scores 0 < 1).
Proof.
  intros H.
  pose (clock := mkClock (ymd 2024 1 27 * msPerDay) 0).
  specialize (H clock (fullWindow clock 27) (mkHabit (Some Daily) None None None 0)
                27%Z eq_refl ltac:(lia) (fullWindow_completed clock 27) 26%nat
                ltac:(vm_compute; lia)).
  cbv zeta in H. destruct H as [_ H].
  vm_compute in H. discriminate H.
Qed.

(* ================================================================== *)
(** * Completion rate *)
(* ================================================================== *)

Section Rate.
Variable clock : Clock.
Variable completedDates : list DateStr.
Variable habit : Habit.

Lemma rateLoop_counts n : forall (a : nat) (s c : Z),
  rateLoop clock completedDates habit n (Z.of_nat a) s c
  = ((s + Z.of_nat (length (filter (isScheduledDay clock habit)
                             (map (fun i => dayAt clock (Z.of_nat i)) (seq a n)))))%Z,
     (c + Z.of_nat (length (filter (isCompletedDay clock completedDates habit)
                             (map (fun i => dayAt clock (Z.of_nat i)) (seq a n)))))%Z).
Proof.
  induction n as [|n IH]; intros a s c.
  - cbn. f_equal; lia.
  - cbn [rateLoop]. change (seq a (S n)) with (a :: seq (S a) n).
    cbn [map filter].
    change (addDays (todayOf clock) (- Z.of_nat a)) with (dayAt clock (Z.of_nat a)).
    replace (Z.of_nat a + 1)%Z with (Z.of_nat (S a)) by lia.
    unfold isCompletedDay at 1.
    change (isScheduledDay clock habit (dayAt clock (Z.of_nat a)))
      with (isDayScheduled (tzOffset clock) (dayAt clock (Z.of_nat a)) habit).
    destruct (isDayScheduled (tzOffset clock) (dayAt clock (Z.of_nat a)) habit);
      cbn [andb].
    + destruct (has completedDates _); rewrite IH; cbn [length]; f_equal; lia.
    + apply IH.
Qed.

Lemma completed_le_scheduled days :
  (0 <= completedCount clock completedDates habit days
     <= scheduledCount clock habit days)%Z.
Proof.
  unfold completedCount, scheduledCount. split; [lia|].
  apply inj_le. induction (trailingWindow clock days) as [|d l IH]; [reflexivity|].
  cbn [filter]. unfold isCompletedDay at 1.
  destruct (isScheduledDay clock habit d); cbn [andb].
  - destruct (has _ _); cbn [length]; lia.
  - exact IH.
Qed.

End Rate.

(** C7.  [calculateCompletionRate] is the quotient of the number of
    scheduled and completed days by the number of scheduled days of the
    trailing window of [days] days ending today, and 0 when no day of the
    window is scheduled; the result lies in [0, 1]. *)
Theorem calculateCompletionRate_guarded :
  forall (clock : Clock) (completedDates : list DateStr) (habit : Habit) (days : Z),
    let scheduledDays := scheduledCount clock habit days in
    let completedDays := completedCount clock completedDates habit days in
    calculateCompletionRate clock completedDates habit days
    = (if (0 <? scheduledDays)%Z
       then inject_Z completedDays /! inject_Z scheduledDays
       else 0)
    /\ 0 <= calculateCompletionRate clock completedDates habit days <= 1.
Proof.
  intros clock dates h days. cbv zeta.
  assert (E : calculateCompletionRate clock dates h days
              = if (0 <? scheduledCount clock h days)%Z
                then inject_Z (completedCount clock dates h days)
                     /! inject_Z (scheduledCount clock h days)
                else 0).
  { unfold calculateCompletionRate.
    pose proof (rateLoop_counts clock dates h (Z.to_nat days) 0 0%Z 0%Z) as R.
    change (Z.of_nat 0) with 0%Z in R. rewrite R. reflexivity. }
  split; [exact E|]. rewrite E.
  pose proof (completed_le_scheduled clock dates h days) as [C0 CS].
  destruct (Z.ltb_spec 0 (scheduledCount clock h days)) as [P|N].
  - unfold Binary64.fdiv.
    assert (P' : 0 < inject_Z (scheduledCount clock h days))
      by (change 0 with (inject_Z 0); now rewrite <- Zlt_Qlt).
    rewrite Zle_Qle in C0, CS. change (inject_Z 0) with 0 in C0.
    split.
    + apply Binary64Facts.round64_nonneg. apply Qle_shift_div_l; [assumption|]. lra.
    + apply Binary64Facts.round64_le_1. apply Qle_shift_div_r; [assumption|]. lra.
  - split; discriminate.
Qed.

Section StreakTotal.
Variable clock : Clock.
Variable habit : Habit.
Local Open Scope Z_scope.

Lemma daysDiff_back today j :
  (today - addDays (addDays today (- j)) (-1)) / msPerDay = j + 1.
Proof.
  unfold addDays.
  replace (today - (today + - j * msPerDay + -1 * msPerDay)) with ((j + 1) * msPerDay) by lia.
  apply Z.div_mul. discriminate.
Qed.

Lemma addDays_back today j : addDays (addDays today (- j)) (-1) = addDays today (- (j + 1)).
Proof. unfold addDays. lia. Qed.

(** The one-year guard makes the backward walk leave within the fuel. *)
Lemma streakLoop_total fuel : forall completedSet today j streak,
  0 <= j -> 366 <= j + Z.of_nat fuel -> (1 <= fuel)%nat ->
  exists r, streakLoop clock habit fuel completedSet today (addDays today (- j)) streak
            = Some r.
Proof.
  induction fuel as [|fuel IH]; intros set today j streak Hj Hf H1; [lia|].
  cbn [streakLoop].
  destruct (_ && _); [eauto|].
  rewrite daysDiff_back, addDays_back.
  destruct (Z.ltb_spec 365 (j + 1)); [eauto|].
  apply IH; lia.
Qed.

Lemma bestLoop_total fuel : forall completedSet endDate cur best run,
  (endDate - cur) / msPerDay + 1 <= Z.of_nat fuel ->
  exists r, bestLoop clock habit fuel completedSet endDate cur best run = Some r.
Proof.
  induction fuel as [|fuel IH]; intros set endDate cur best run Hf.
  - cbn [bestLoop]. destruct (Z.leb_spec cur endDate) as [L|G]; cbn [negb]; [|eauto].
    assert (0 <= (endDate - cur) / msPerDay) by (apply Z.div_pos; [lia|reflexivity]). lia.
  - cbn [bestLoop]. destruct (Z.leb_spec cur endDate) as [L|G]; cbn [negb]; [|eauto].
    assert (E : (endDate - addDays cur 1) / msPerDay = (endDate - cur) / msPerDay - 1).
    { unfold addDays. replace (endDate - (cur + 1 * msPerDay))
        with (endDate - cur + (-1) * msPerDay) by lia.
      rewrite Z.div_add by discriminate. lia. }
    destruct (isDayScheduled _ _ _); [destruct (has _ _)|]; apply IH; lia.
Qed.

End StreakTotal.

Theorem calculateStreak_total clock dates h :
  exists n, calculateStreak clock dates h = Some n.
Proof.
  unfold calculateStreak. destruct dates as [|d l]; [eauto|]. cbv zeta.
  destruct (_ && _).
  - apply (streakLoop_total clock h streakFuel _ (todayOf clock) 1); unfold streakFuel; lia.
  - pose proof (streakLoop_total clock h streakFuel (rev (sortDates (d :: l)))
                  (todayOf clock) 0 0) as T.
    replace (addDays (todayOf clock) (- 0)) with (todayOf clock) in T
      by (unfold addDays; lia).
    apply T; unfold streakFuel; lia.
Qed.

Theorem calculateBestStreak_total clock dates h :
  exists n, calculateBestStreak clock dates h = Some n.
Proof.
  unfold calculateBestStreak. destruct dates as [|d l]; [eauto|]. cbv zeta.
  destruct (sortDates (d :: l)) as [|first rest]; [eauto|].
  apply bestLoop_total. unfold bestFuel.
  destruct (Z_le_gt_dec 0 ((todayOf clock - parseISODate first) / msPerDay + 1)); lia.
Qed.

(* ================================================================== *)
(** * Streaks and the aggregate *)
(* ================================================================== *)

(** C6.  With no completion, [calculateStreak], [calculateBestStreak]
    and [calculateTotal] return 0, for every clock and habit; none of them
    enters its loop. *)
Theorem empty_completions_zero :
  forall (clock : Clock) (habit : Habit),
    calculateStreak clock [] habit = Some 0%Z /\
    calculateBestStreak clock [] habit = Some 0%Z /\
    calculateTotal [] = 0%Z.
Proof. intros. repeat split. Qed.

(** C4 fails on the code.  In a zone one hour east of UTC, at 13:00 local
    time on 2026-11-03, a daily habit completed for the first time today
    has current streak 1 and best streak 0: [new Date("2026-11-03")] is
    midnight UTC, one hour after the local midnight that ends the forward
    walk, so the walk visits no day. *)
Theorem bestStreak_below_streak_first_completion :
  let clock := mkClock (ymd 2026 11 3 * msPerDay + 12 * 3600000) 3600000 in
  let habit := mkHabit (Some Daily) None None None (ymd 2026 10 1 * msPerDay) in
  let completedDates := [ymd 2026 11 3] in
  formatDate (tzOffset clock) (now clock) = ymd 2026 11 3 /\
  calculateStreak clock completedDates habit = Some 1%Z /\
  calculateBestStreak clock completedDates habit = Some 0%Z.
Proof. vm_compute. repeat split. Qed.

Section MissedToday.
Local Open Scope Z_scope.

Lemma streakLoop_step clock h fuel set today cur streak :
  streakLoop clock h (S fuel) set today cur streak
  = (let dateStr := formatDate (tzOffset clock) cur in
     let isScheduled := isDayScheduled (tzOffset clock) cur h in
     if isScheduled && negb (has set dateStr) then Some streak
     else
       let streak := if isScheduled then streak + 1 else streak in
       let cur := addDays cur (-1) in
       let daysDiff := (today - cur) / msPerDay in
       if 365 <? daysDiff then Some streak
       else streakLoop clock h fuel set today cur streak).
Proof. reflexivity. Qed.

(** Away from UTC the forward walk of [calculateBestStreak] never visits
    today: a first completion, made today, is a current streak of 1 and a
    best streak of 0. *)
Theorem bestStreak_misses_today :
  forall (clock : Clock) (habit : Habit),
    frequency habit = Some Daily ->
    tzOffset clock <> 0 -> - msPerDay < tzOffset clock < msPerDay ->
    let completedDates := [formatDate (tzOffset clock) (now clock)] in
    calculateStreak clock completedDates habit = Some 1 /\
    calculateBestStreak clock completedDates habit = Some 0.
Proof.
  intros clock h Hf Hz Hr. cbv zeta.
  set (tz := tzOffset clock) in *. set (L := formatDate tz (now clock)).
  assert (HL : formatDate tz (todayOf clock) = L) by apply todayOf_localDay.
  assert (Hs : forall d, isDayScheduled tz d h = true)
    by (intro d; unfold isDayScheduled; now rewrite Hf).
  split.
  - unfold calculateStreak. cbn [sortDates insertDate rev app]. cbv zeta.
    fold tz. rewrite HL. unfold has at 1. cbn [existsb]. rewrite Z.eqb_refl.
    cbn [orb negb andb]. unfold streakFuel.
    change 400%nat with (S (S 398)).
    rewrite streakLoop_step. cbv zeta. fold tz. rewrite Hs, HL.
    unfold has at 1. cbn [existsb]. rewrite Z.eqb_refl. cbn [orb negb andb].
    replace ((todayOf clock - addDays (todayOf clock) (-1)) / msPerDay) with 1
      by (unfold addDays; symmetry;
          replace (todayOf clock - (todayOf clock + -1 * msPerDay)) with (1 * msPerDay) by lia;
          apply Z.div_mul; discriminate).
    cbn [Z.ltb Z.compare Pos.compare Pos.compare_cont].
    rewrite streakLoop_step. cbv zeta. fold tz. rewrite Hs.
    unfold formatDate. rewrite localDay_addDays. fold (formatDate tz (todayOf clock)).
    rewrite HL. unfold has. cbn [existsb]. 
    destruct (Z.eqb_spec (L + -1) L); [lia|]. reflexivity.
  - unfold calculateBestStreak. cbn [sortDates insertDate]. cbv zeta.
    unfold bestFuel, parseISODate.
    assert (HT : todayOf clock = L * msPerDay - tz) by reflexivity.
    rewrite HT.
    destruct (Z_lt_le_dec 0 tz) as [E|W].
    + (* east of Greenwich: the walk is empty *)
      destruct (Z.to_nat _); cbn [bestLoop];
        destruct (Z.leb_spec (L * msPerDay) (L * msPerDay - tz)); try lia; reflexivity.
    + (* west of Greenwich: the walk visits yesterday only *)
      replace ((L * msPerDay - tz - L * msPerDay) / msPerDay + 1) with 1.
      2:{ replace (L * msPerDay - tz - L * msPerDay) with (- tz) by lia.
          rewrite Z.div_small; lia. }
      change (Z.to_nat 1) with 1%nat. cbn [bestLoop].
      destruct (Z.leb_spec (L * msPerDay) (L * msPerDay - tz)); [|lia]. cbn [negb].
      fold tz. rewrite Hs.
      assert (Hy : formatDate tz (L * msPerDay) = L - 1).
      { unfold formatDate, localDay.
        replace (L * msPerDay + tz) with (tz + msPerDay + (L - 1) * msPerDay) by lia.
        rewrite Z.div_add by discriminate. rewrite Z.div_small; lia. }
      rewrite Hy. unfold has. cbn [existsb].
      destruct (Z.eqb_spec (L - 1) L); [lia|]. cbn [orb].
      unfold addDays.
      destruct (Z.leb_spec (L * msPerDay + 1 * msPerDay) (L * msPerDay - tz)); [lia|].
      reflexivity.
Qed.

End MissedToday.

Section SortFacts.
Local Open Scope Z_scope.

Lemma has_insertDate d l x : has (insertDate d l) x = (x =? d) || has l x.
Proof.
  unfold has. induction l as [|y r IH]; cbn [insertDate existsb]; [reflexivity|].
  destruct (d <=? y); cbn [existsb]; [reflexivity|].
  rewrite IH. destruct (x =? d), (x =? y); reflexivity.
Qed.

Lemma has_sortDates l x : has (sortDates l) x = has l x.
Proof.
  induction l as [|y r IH]; cbn [sortDates]; [reflexivity|].
  rewrite has_insertDate, IH. reflexivity.
Qed.

Lemma has_rev l x : has (rev l) x = has l x.
Proof.
  unfold has. induction l as [|y r IH]; cbn [rev existsb]; [reflexivity|].
  rewrite existsb_app, IH. cbn [existsb].
  rewrite orb_false_r. apply orb_comm.
Qed.

Lemma has_true_In l x : has l x = true -> In x l.
Proof.
  unfold has. intros H. apply existsb_exists in H as [y [Hy E]].
  apply Z.eqb_eq in E. now subst.
Qed.

Lemma sortDates_nil l : sortDates l = [] -> l = [].
Proof.
  destruct l as [|y r]; [reflexivity|]. cbn [sortDates].
  destruct (sortDates r) as [|z t]; cbn [insertDate]; [discriminate|].
  destruct (y <=? z); discriminate.
Qed.

(** [sortedDates[0]] is the earliest completion. *)
Lemma sortDates_head_min l : forall first rest,
  sortDates l = first :: rest -> forall x, In x l -> first <= x.
Proof.
  induction l as [|y r IH]; intros first rest E x Hx; [contradiction|].
  cbn [sortDates] in E.
  destruct (sortDates r) as [|z t] eqn:Er.
  - apply sortDates_nil in Er. subst r. cbn in E. injection E as <- _.
    destruct Hx as [<-|[]]. lia.
  - cbn [insertDate] in E. specialize (IH z t eq_refl).
    destruct (Z.leb_spec y z) as [L|G]; injection E as <- _.
    + destruct Hx as [<-|Hx]; [lia|]. specialize (IH x Hx). lia.
    + destruct Hx as [<-|Hx]; [lia|]. now apply IH.
Qed.

End SortFacts.

Section Midnights.
Local Open Scope Z_scope.

Lemma formatDate_midnight_utc d : formatDate 0 (d * msPerDay) = d.
Proof.
  unfold formatDate, localDay. rewrite Z.add_0_r. apply Z.div_mul. discriminate.
Qed.

Lemma addDays_midnight d k : addDays (d * msPerDay) k = (d + k) * msPerDay.
Proof. unfold addDays. lia. Qed.

Lemma midnight_le d e : (d * msPerDay <=? e * msPerDay) = (d <=? e).
Proof.
  pose proof msPerDay_pos.
  destruct (Z.leb_spec d e), (Z.leb_spec (d * msPerDay) (e * msPerDay)); try reflexivity; nia.
Qed.

End Midnights.

Section ForwardFacts.
Local Open Scope Z_scope.

Variable habit : Habit.
Variable completedDates : list DateStr.
Variable first : Z.

Lemma forward_bounds n :
  0 <= snd (forward habit completedDates first n)
    <= fst (forward habit completedDates first n).
Proof.
  induction n as [|n IH]; cbn [forward]; [cbn; lia|].
  destruct (forward habit completedDates first n) as [b r]. cbn [fst snd] in IH.
  unfold bestStep. destruct (isDayScheduled _ _ _); [destruct (has _ _)|]; cbn [fst snd]; lia.
Qed.

Lemma forward_best_mono n m :
  fst (forward habit completedDates first n)
    <= fst (forward habit completedDates first (n + m)).
Proof.
  induction m as [|m IH].
  - rewrite Nat.add_0_r. lia.
  - rewrite Nat.add_succ_r. cbn [forward].
    destruct (forward habit completedDates first (n + m)) as [b r]. cbn [fst] in IH.
    unfold bestStep. destruct (isDayScheduled _ _ _); [destruct (has _ _)|]; cbn [fst]; lia.
Qed.

Lemma forward_succ_at d :
  first <= d ->
  forward habit completedDates first (Z.to_nat (d - first + 1))
  = bestStep habit completedDates d
      (forward habit completedDates first (Z.to_nat (d - first))).
Proof.
  intros Hd.
  replace (Z.to_nat (d - first + 1)) with (S (Z.to_nat (d - first))) by lia.
  cbn [forward]. now replace (first + Z.of_nat (Z.to_nat (d - first))) with d by lia.
Qed.

End ForwardFacts.

Section UTC.
Local Open Scope Z_scope.

Variable clock : Clock.
Variable habit : Habit.
Variable completedDates : list DateStr.
Variable first : Z.
Hypothesis utc : tzOffset clock = 0.
Hypothesis first_min : forall x, has completedDates x = true -> first <= x.

Let L : Z := localDay 0 (now clock).

Lemma todayOf_utc : todayOf clock = L * msPerDay.
Proof. unfold todayOf, setHours0. rewrite utc. subst L. lia. Qed.

(** The forward walk computes [forward]. *)
Lemma bestLoop_forward set :
  (forall x, has set x = has completedDates x) ->
  forall (m n fuel : nat), (m <= fuel)%nat ->
    first + Z.of_nat n + Z.of_nat m = L + 1 ->
    bestLoop clock habit fuel set (L * msPerDay)
             ((first + Z.of_nat n) * msPerDay)
             (fst (forward habit completedDates first n))
             (snd (forward habit completedDates first n))
    = Some (fst (forward habit completedDates first (n + m))).
Proof.
  intros Hset. induction m as [|m IH]; intros n fuel Hf Hm.
  - rewrite Nat.add_0_r.
    destruct fuel; cbn [bestLoop]; rewrite midnight_le;
      destruct (Z.leb_spec (first + Z.of_nat n) L); try lia; reflexivity.
  - destruct fuel as [|fuel]; [lia|]. cbn [bestLoop]. rewrite midnight_le.
    destruct (Z.leb_spec (first + Z.of_nat n) L); [|lia]. cbn [negb].
    rewrite utc, formatDate_midnight_utc, Hset, addDays_midnight.
    replace (first + Z.of_nat n + 1) with (first + Z.of_nat (S n)) by lia.
    replace (n + S m)%nat with (S n + m)%nat by lia.
    specialize (IH (S n) fuel ltac:(lia) ltac:(lia)).
    cbn [forward] in IH. unfold bestStep in IH.
    destruct (forward habit completedDates first n) as [b r]. cbn [fst snd].
    destruct (isDayScheduled 0 ((first + Z.of_nat n) * msPerDay) habit);
      [destruct (has completedDates (first + Z.of_nat n))|]; exact IH.
Qed.

(** The backward walk from day [d] adds to its counter at most the run
    the forward walk holds at [d]. *)
Lemma streakLoop_le_forward set :
  (forall x, has set x = has completedDates x) ->
  forall (fuel : nat) (d s res : Z),
    streakLoop clock habit fuel set (L * msPerDay) (d * msPerDay) s = Some res ->
    res <= s + snd (forward habit completedDates first (Z.to_nat (d - first + 1))).
Proof.
  intros Hset. induction fuel as [|fuel IH]; intros d s res H; [discriminate|].
  cbn [streakLoop] in H.
  rewrite utc, formatDate_midnight_utc, Hset, addDays_midnight in H.
  pose proof (forward_bounds habit completedDates first (Z.to_nat (d - first + 1))) as B1.
  pose proof (forward_bounds habit completedDates first (Z.to_nat (d - first))) as B0.
  assert (Step : (if isDayScheduled 0 (d * msPerDay) habit then s + 1 else s)
                 + snd (forward habit completedDates first (Z.to_nat (d - first)))
                 <= s + snd (forward habit completedDates first (Z.to_nat (d - first + 1)))
                 \/ (isDayScheduled 0 (d * msPerDay) habit
                     && negb (has completedDates d) = true)).
  { destruct (isDayScheduled 0 (d * msPerDay) habit) eqn:Es.
    - destruct (has completedDates d) eqn:Ec; [left|right; reflexivity].
      rewrite (forward_succ_at habit completedDates first d (first_min d Ec)). unfold bestStep.
      destruct (forward habit completedDates first (Z.to_nat (d - first))) as [b r].
      rewrite Es, Ec. cbn [snd]. lia.
    - left. destruct (Z_le_gt_dec first d) as [Hd|Hd].
      + rewrite (forward_succ_at habit completedDates first d Hd). unfold bestStep.
        destruct (forward habit completedDates first (Z.to_nat (d - first))) as [b r].
        rewrite Es. cbn [snd]. lia.
      + replace (Z.to_nat (d - first + 1)) with (Z.to_nat (d - first)) by lia. lia. }
  destruct (isDayScheduled 0 (d * msPerDay) habit && negb (has completedDates d)) eqn:Eb.
  - injection H as <-. lia.
  - destruct Step as [Step|Step]; [|discriminate].
    destruct (365 <? _).
    + injection H as <-. lia.
    + apply IH in H. replace (d + -1 - first + 1) with (d - first) in H by lia. lia.
Qed.

Lemma bestLoop_forward_all set :
  (forall x, has set x = has completedDates x) ->
  bestLoop clock habit (Z.to_nat (L - first + 1)) set (L * msPerDay)
           (first * msPerDay) 0 0
  = Some (fst (forward habit completedDates first (Z.to_nat (L - first + 1)))).
Proof.
  intros Hset. destruct (Z_le_gt_dec first (L + 1)) as [Hl|Hg].
  - pose proof (bestLoop_forward set Hset (Z.to_nat (L - first + 1)) 0
                  (Z.to_nat (L - first + 1)) (Nat.le_refl _)) as B.
    cbn [forward fst snd Nat.add Z.of_nat] in B. rewrite Z.add_0_r in B.
    apply B. lia.
  - replace (Z.to_nat (L - first + 1)) with 0%nat by lia.
    cbn [bestLoop forward fst]. rewrite midnight_le.
    destruct (Z.leb_spec first L); [lia|reflexivity].
Qed.

End UTC.

(** In a zone without offset from UTC the best streak is at least the
    current streak. *)
Theorem bestStreak_ge_streak_utc :
  forall (clock : Clock) (completedDates : list DateStr) (habit : Habit) (s b : Z),
    tzOffset clock = 0%Z ->
    calculateStreak clock completedDates habit = Some s ->
    calculateBestStreak clock completedDates habit = Some b ->
    (s <= b)%Z.
Proof.
  intros clock dates h s b Hutc Hs Hb.
  unfold calculateStreak, calculateBestStreak in *.
  destruct dates as [|d0 l0]; [injection Hs as <-; injection Hb as <-; lia|].
  remember (d0 :: l0) as dates eqn:Ed. cbv zeta in Hs, Hb.
  destruct (sortDates dates) as [|first rest] eqn:Esort.
  { apply sortDates_nil in Esort. congruence. }
  assert (Hmin : forall x, has dates x = true -> (first <= x)%Z).
  { intros x Hx. eapply sortDates_head_min; [exact Esort|]. now apply has_true_In. }
  assert (Hset1 : forall x, has (first :: rest) x = has dates x)
    by (intro x; rewrite <- Esort; apply has_sortDates).
  assert (Hset2 : forall x, has (rev (first :: rest)) x = has dates x)
    by (intro x; rewrite has_rev; apply Hset1).
  set (L := localDay 0 (now clock)).
  rewrite (todayOf_utc clock Hutc) in Hs, Hb. fold L in Hs, Hb.
  (* the forward walk *)
  unfold bestFuel, parseISODate in Hb.
  replace ((L * msPerDay - first * msPerDay) / msPerDay + 1)%Z
    with (L - first + 1)%Z in Hb.
  2:{ replace (L * msPerDay - first * msPerDay)%Z with ((L - first) * msPerDay)%Z by lia.
      rewrite Z.div_mul by discriminate. reflexivity. }
  pose proof (bestLoop_forward_all clock h dates first Hutc (first :: rest) Hset1) as BF.
  fold L in BF. rewrite BF in Hb. injection Hb as <-.
  (* the backward walk *)
  assert (Hback : exists e, (e <= L)%Z /\
            streakLoop clock h streakFuel (rev (first :: rest)) (L * msPerDay)
                       (e * msPerDay) 0 = Some s).
  { destruct (_ && _) in Hs.
    - exists (L + -1)%Z. split; [lia|].
      rewrite addDays_midnight in Hs. exact Hs.
    - exists L. split; [lia|exact Hs]. }
  destruct Hback as [e [He Hrun]].
  apply (streakLoop_le_forward clock h dates first Hutc Hmin _ Hset2) in Hrun.
  fold L in Hrun.
  pose proof (forward_bounds h dates first (Z.to_nat (e - first + 1))) as B.
  pose proof (forward_best_mono h dates first (Z.to_nat (e - first + 1))
                (Z.to_nat (L - first + 1) - Z.to_nat (e - first + 1))) as M.
  replace (Z.to_nat (e - first + 1)
           + (Z.to_nat (L - first + 1) - Z.to_nat (e - first + 1)))%nat
    with (Z.to_nat (L - first + 1)) in M by lia.
  lia.
Qed.

(** C9.  [getHabitStats] always returns; its [score] is the walk over 60
    days, while its [scoreHistory] is the walk over 30 days, whose last
    entry carries the value of the walk over 30 days; and there are inputs
    for which the score of that last entry is not the [score] (completions
    on the days 30 to 59 days ago only: the last entry has score 0 and
    [score] is positive). *)
Theorem getHabitStats_two_windows :
  (forall (clock : Clock) (completedDates : list DateStr) (habit : Habit),
     exists (cs bs : Z) (p : HistoryPoint),
       getHabitStats clock completedDates habit
       = Some {| statScore := calculateHabitScore clock completedDates habit 60;
                 currentStreak := cs;
                 bestStreak := bs;
                 total := calculateTotal completedDates;
                 completionRate := calculateCompletionRate clock completedDates habit 30;
                 scoreHistory := calculateScoreHistory clock completedDates habit 30 |}
       /\ lastEntry (calculateScoreHistory clock completedDates habit 30) = Some p
       /\ score p = calculateHabitScore clock completedDates habit 30)
  /\
  (exists (clock : Clock) (completedDates : list DateStr) (habit : Habit)
          (stats : HabitStats) (p : HistoryPoint),
     getHabitStats clock completedDates habit = Some stats /\
     lastEntry (scoreHistory stats) = Some p /\
     ~ score p == statScore stats).
Proof.
  split.
  - intros clock dates h. unfold getHabitStats.
    destruct (calculateStreak_total clock dates h) as [cs Hcs].
    destruct (calculateBestStreak_total clock dates h) as [bs Hbs].
    assert (L : option_map score (lastEntry (calculateScoreHistory clock dates h 30))
                = Some (calculateHabitScore clock dates h 30)).
    { rewrite calculateScoreHistory_points. unfold calculateHabitScore.
      change (Z.to_nat 30) with (S 29). apply pointsFrom_last. }
    destruct (lastEntry (calculateScoreHistory clock dates h 30)) as [p|];
      [|discriminate L].
    exists cs, bs, p. rewrite Hcs, Hbs. cbn [bindFuel].
    split; [reflexivity|]. split; [reflexivity|].
    cbn [option_map] in L. now injection L.
  - exists (mkClock (ymd 2024 3 1 * msPerDay) 0).
    exists (map (fun j => (ymd 2024 3 1 - Z.of_nat j)%Z) (seq 30 30)).
    exists (mkHabit (Some Daily) None None None (ymd 2024 1 1 * msPerDay)).
    eexists. eexists. split; [vm_compute; reflexivity|].
    split; [vm_compute; reflexivity|].
    vm_compute. discriminate.
Qed.

Section IntervalClaims.
Local Open Scope Z_scope.

(** C5, as the code has it.  For frequency [interval], [isDayScheduled]
    is true exactly when the date is on or after the local midnight of
    [createdAt] and the whole number of days between them is a multiple of
    the interval, where the interval is 2 only when the field is absent or
    0, and the field itself otherwise.  With interval 2 and [createdAt] on
    the local day 2024-01-01 it is true on 2024-01-01, -03, -05 and false
    on 2024-01-02, -04. *)
Theorem isDayScheduled_interval_spec :
  forall (tz date : Z) (habit : Habit),
    frequency habit = Some Interval ->
    (isDayScheduled tz date habit = true <->
     intervalRule (orDefault (interval habit) 2) tz date habit)
    /\
    (interval habit = Some 2 ->
     localDay tz (createdAt habit) = ymd 2024 1 1 ->
     (localDay tz date = ymd 2024 1 1 -> isDayScheduled tz date habit = true) /\
     (localDay tz date = ymd 2024 1 2 -> isDayScheduled tz date habit = false) /\
     (localDay tz date = ymd 2024 1 3 -> isDayScheduled tz date habit = true) /\
     (localDay tz date = ymd 2024 1 4 -> isDayScheduled tz date habit = false) /\
     (localDay tz date = ymd 2024 1 5 -> isDayScheduled tz date habit = true)).
Proof.
  intros tz date h Hf. split.
  - now apply isDayScheduled_interval_rule.
  - intros Hi Hc. rewrite (isDayScheduled_interval_eq tz date h Hf), Hi, Hc.
    repeat split; intros Hd; rewrite Hd; reflexivity.
Qed.

(** C5 as stated fails: an interval of 1, which is not a valid interval
    (less than 2), is not replaced by 2; the day after [createdAt] is
    scheduled. *)
Lemma interval_one_is_not_defaulted :
  ~ (forall (tz date : Z) (habit : Habit),
       frequency habit = Some Interval ->
       (isDayScheduled tz date habit = true <->
        intervalRule (specInterval habit) tz date habit)).
Proof.
  intros H.
  destruct (H 0 (ymd 2024 1 2 * msPerDay)
              (mkHabit (Some Interval) None (Some 1) None (ymd 2024 1 1 * msPerDay))
              eq_refl) as [H1 _].
  destruct (H1 eq_refl) as [_ H2]. vm_compute in H2. discriminate H2.
Qed.

(** C10.  For frequency [interval], an absent interval or the value 0
    behaves as 2; every other value, 1 included, is used as it is; with
    the interval 1 every date on or after the local midnight of
    [createdAt] is scheduled. *)
Theorem interval_only_falsy_defaulted :
  forall (tz date : Z) (habit : Habit),
    frequency habit = Some Interval ->
    let daysSinceStart := (date - setHours0 tz (createdAt habit)) / msPerDay in
    ((interval habit = None \/ interval habit = Some 0) ->
     isDayScheduled tz date habit
     = (0 <=? daysSinceStart) && (Z.rem daysSinceStart 2 =? 0)) /\
    (forall v : Z, interval habit = Some v -> v <> 0 ->
     isDayScheduled tz date habit
     = (0 <=? daysSinceStart) && (Z.rem daysSinceStart v =? 0)) /\
    (interval habit = Some 1 ->
     setHours0 tz (createdAt habit) <= date ->
     isDayScheduled tz date habit = true).
Proof.
  intros tz date h Hf. cbv zeta. unfold isDayScheduled. rewrite Hf. cbv zeta.
  repeat split.
  - intros [Hi|Hi]; rewrite Hi; reflexivity.
  - intros v Hi Hv. rewrite Hi. unfold orDefault.
    destruct (Z.eqb_spec v 0); [contradiction|reflexivity].
  - intros Hi Hd. rewrite Hi. cbn [orDefault Z.eqb].
    rewrite Z.rem_1_r, Z.eqb_refl, andb_true_r. apply Z.leb_le.
    apply Z.div_pos; [lia|reflexivity].
Qed.

End IntervalClaims.

Lemma isDayScheduled_interval_spec_witness :
  let habit := mkHabit (Some Interval) None (Some 2%Z) None
                 (ymd 2024 1 1 * msPerDay + 36000000)%Z in
  frequency habit = Some Interval /\
  isDayScheduled 3600000 (ymd 2024 1 3 * msPerDay)%Z habit = true.
Proof.
  cbv zeta. split; [reflexivity|].
  refine (proj1 (proj2 (proj2 (proj2
    (isDayScheduled_interval_spec 3600000 (ymd 2024 1 3 * msPerDay)%Z
       (mkHabit (Some Interval) None (Some 2%Z) None
          (ymd 2024 1 1 * msPerDay + 36000000)%Z) eq_refl)
    eq_refl eq_refl))) eq_refl).
Defined.

Lemma interval_only_falsy_defaulted_witness :
  let habit := mkHabit (Some Interval) None (Some 1%Z) None
                 (ymd 2024 1 1 * msPerDay)%Z in
  frequency habit = Some Interval /\
  isDayScheduled 0 (ymd 2024 1 2 * msPerDay)%Z habit = true.
Proof.
  cbv zeta. split; [reflexivity|].
  refine (proj2 (proj2
    (interval_only_falsy_defaulted 0 (ymd 2024 1 2 * msPerDay)%Z
       (mkHabit (Some Interval) None (Some 1%Z) None (ymd 2024 1 1 * msPerDay)%Z)
       eq_refl)) eq_refl _).
  vm_compute. discriminate.
Defined.

Lemma scoreHistory_last_is_habitScore_witness :
  let clock := mkClock (ymd 2024 1 3 * msPerDay) 0 in
  let habit := mkHabit (Some Daily) None None None (ymd 2024 1 1 * msPerDay)%Z in
  let completedDates := [ymd 2024 1 1; ymd 2024 1 2; ymd 2024 1 3] in
  (1 <= 3)%Z /\
  option_map score (lastEntry (calculateScoreHistory clock completedDates habit 3))
  = Some (calculateHabitScore clock completedDates habit 3).
Proof.
  cbv zeta. split; [lia|].
  apply scoreHistory_last_is_habitScore. lia.
Defined.

Lemma calculateScoreHistory_shape_witness :
  let clock := mkClock (ymd 2024 1 3 * msPerDay) 0 in
  let habit := mkHabit (Some Interval) None (Some 2%Z) None (ymd 2024 1 1 * msPerDay)%Z in
  let completedDates := [ymd 2024 1 1; ymd 2024 1 3] in
  (0 <= 3)%Z /\
  Z.of_nat (length (calculateScoreHistory clock completedDates habit 3)) = 3%Z.
Proof.
  cbv zeta. split; [lia|].
  refine (proj1 (calculateScoreHistory_shape _ _ _ 3%Z _)). lia.
Defined.

Lemma daily_full_window_scores_witness :
  let clock := mkClock (ymd 2024 1 30 * msPerDay) 0 in
  let habit := mkHabit (Some Daily) None None None (ymd 2024 1 1 * msPerDay)%Z in
  let scores := runningScores clock (fullWindow clock 30) habit 30 in
  frequency habit = Some Daily /\ (1 <= 30)%Z /\
  windowCompleted clock (fullWindow clock 30) 30 /\
  (26 < Z.to_nat 30)%nat /\ nth 26 scores 0 = 1.
Proof.
  cbv zeta. split; [reflexivity|]. split; [lia|].
  split; [exact (fullWindow_completed _ 30)|].
  split; [vm_compute; lia|].
  refine (proj1 (proj2 (proj2
    (daily_full_window_scores (mkClock (ymd 2024 1 30 * msPerDay) 0)
       (fullWindow (mkClock (ymd 2024 1 30 * msPerDay) 0) 30)
       (mkHabit (Some Daily) None None None (ymd 2024 1 1 * msPerDay)%Z)
       30%Z eq_refl _ (fullWindow_completed _ 30) 26%nat _))) _).
  - lia.
  - vm_compute. lia.
  - lia.
Defined.

(* ================================================================== *)
(** * Grid of the score values *)
(* ================================================================== *)

Section Grid.
Import Binary64 Binary64Facts.

(** Rounding does not cross a binary64 number. *)
Lemma round64_le_fixed c x : round64 c == c -> x <= c -> round64 x <= c.
Proof. intros Hc H. rewrite <- Hc. now apply round64_le. Qed.

Lemma round64_ge_fixed c x : round64 c == c -> c <= x -> c <= round64 x.
Proof. intros Hc H. rewrite <- Hc. now apply round64_le. Qed.

Lemma grid_round k : (0 <= k <= 64)%Z -> round64 (grid k) == grid k.
Proof.
  intros Hk.
  assert (T : forallb gridFixed (seq 0 65) = true) by (vm_compute; reflexivity).
  rewrite forallb_forall in T.
  specialize (T (Z.to_nat k) ltac:(apply in_seq; lia)).
  unfold gridFixed in T. rewrite Z2Nat.id in T by lia.
  now apply Qeq_bool_iff in T.
Qed.

Lemma round64_ge_grid k x : (0 <= k <= 64)%Z -> grid k <= x -> grid k <= round64 x.
Proof. intros Hk H. rewrite <- (grid_round k Hk). now apply round64_le. Qed.

Lemma round64_le_grid k x : (0 <= k <= 64)%Z -> x <= grid k -> round64 x <= grid k.
Proof. intros Hk H. rewrite <- (grid_round k Hk). now apply round64_le. Qed.

Lemma grid_lt k : grid k < grid (k + 1).
Proof. unfold grid, Qlt. cbn. lia. Qed.

(** Every number of [0, 1) lies in a cell of the grid. *)
Lemma grid_cell_below s :
  0 <= s < 1 -> exists k, (0 <= k < 64)%Z /\ grid k <= s /\ s < grid (k + 1).
Proof.
  intros [H0 H1]. exists (Qfloor (s * 64)).
  pose proof (Qfloor_le (s * 64)) as F1. pose proof (Qlt_floor (s * 64)) as F2.
  assert (B : (0 <= Qfloor (s * 64) < 64)%Z).
  { split.
    - rewrite <- (Qfloor_Z 0). apply Qfloor_resp_le. change (inject_Z 0) with 0. lra.
    - apply Z.lt_nge. intro X. rewrite Zle_Qle in X.
      change (inject_Z 64) with 64 in X. lra. }
  split; [exact B|].
  assert (E : forall z, grid z == inject_Z z / 64).
  { intro z. unfold grid. rewrite Qmake_Qdiv. reflexivity. }
  rewrite !E. rewrite inject_Z_plus. change (inject_Z 1) with 1.
  split.
  - apply Qle_shift_div_r; [reflexivity|]. exact F1.
  - apply Qlt_shift_div_l; [reflexivity|].
    rewrite inject_Z_plus in F2. exact F2.
Qed.

(** Every number of (0, 1] lies in a cell of the grid, upper end included. *)
Lemma grid_cell_above s :
  0 < s <= 1 -> exists k, (0 <= k < 64)%Z /\ grid k < s /\ s <= grid (k + 1).
Proof.
  intros [H0 H1]. exists (Qceiling (s * 64) - 1)%Z.
  pose proof (Qle_ceiling (s * 64)) as F1. pose proof (Qceiling_lt (s * 64)) as F2.
  assert (B : (1 <= Qceiling (s * 64) <= 64)%Z).
  { split.
    - apply Z.lt_pred_le. cbn. apply Z.lt_nge. intro X. rewrite Zle_Qle in X.
      change (inject_Z 0) with 0 in X. lra.
    - apply Z.le_ngt. intro X.
      assert (Y : (64 <= Qceiling (s * 64) - 1)%Z) by lia.
      rewrite Zle_Qle in Y. change (inject_Z 64) with 64 in Y. lra. }
  split; [lia|].
  assert (E : forall z, grid z == inject_Z z / 64).
  { intro z. unfold grid. rewrite Qmake_Qdiv. reflexivity. }
  rewrite !E. replace (Qceiling (s * 64) - 1 + 1)%Z with (Qceiling (s * 64)) by lia.
  split.
  - apply Qlt_shift_div_r; [reflexivity|]. exact F2.
  - apply Qle_shift_div_l; [reflexivity|]. exact F1.
Qed.

Lemma SCORE_INCREASE_fixed : round64 SCORE_INCREASE = SCORE_INCREASE.
Proof. vm_compute. reflexivity. Qed.

Lemma SCORE_DECREASE_fixed : round64 SCORE_DECREASE = SCORE_DECREASE.
Proof. vm_compute. reflexivity. Qed.

Lemma half_rates_above_grid :
  grid 1 <= SCORE_INCREASE * (1#2) /\ grid 1 <= SCORE_DECREASE * (1#2).
Proof. split; apply Qle_bool_iff; vm_compute; reflexivity. Qed.

Lemma half_fixed : round64 (1#2) == 1#2.
Proof. vm_compute. reflexivity. Qed.

(** The increase of a completion lies between 1/64 and [SCORE_INCREASE]. *)
Lemma increase_bounds s :
  0 <= s <= 1 ->
  grid 1 <= SCORE_INCREASE *! (1 -! s *! (1#2)) <= SCORE_INCREASE.
Proof.
  intros [H0 H1]. pose proof SCORE_INCREASE_nonneg as C0.
  destruct half_rates_above_grid as [G _].
  assert (Hh : 0 <= s *! (1#2) <= 1#2).
  { unfold fmul. split; [apply round64_nonneg; lra|].
    apply round64_le_fixed; [exact half_fixed | lra]. }
  assert (Hz : 1#2 <= 1 -! s *! (1#2) <= 1).
  { unfold fsub. split.
    - apply round64_ge_fixed; [exact half_fixed | lra].
    - apply round64_le_1. lra. }
  unfold fmul at 1 3. split.
  - apply (round64_ge_grid 1); [lia|]. nra.
  - apply round64_le_fixed; [now rewrite SCORE_INCREASE_fixed | nra].
Qed.

(** The decrease of a miss lies between 1/64 and [SCORE_DECREASE]. *)
Lemma decrease_bounds s :
  0 <= s <= 1 ->
  grid 1 <= SCORE_DECREASE *! ((1#2) +! s *! (1#2)) <= SCORE_DECREASE.
Proof.
  intros [H0 H1]. pose proof SCORE_DECREASE_nonneg as C0.
  destruct half_rates_above_grid as [_ G].
  assert (Hh : 0 <= s *! (1#2) <= 1#2).
  { unfold fmul. split; [apply round64_nonneg; lra|].
    apply round64_le_fixed; [exact half_fixed | lra]. }
  assert (Hz : 1#2 <= (1#2) +! s *! (1#2) <= 1).
  { unfold fadd. split.
    - apply round64_ge_fixed; [exact half_fixed | lra].
    - apply round64_le_1. lra. }
  unfold fmul at 1 3. split.
  - apply (round64_ge_grid 1); [lia|]. nra.
  - apply round64_le_fixed; [now rewrite SCORE_DECREASE_fixed | nra].
Qed.

End Grid.

Section Steps.
Import Binary64 Binary64Facts.

(** A completion raises a score below 1, by at most [SCORE_INCREASE]; a
    score of 1 stays. *)
Lemma scoreUp_raises s : 0 <= s < 1 -> s < scoreUp s.
Proof.
  intros Hs. destruct (grid_cell_below s Hs) as [k [Hk [L U]]].
  destruct (increase_bounds s ltac:(lra)) as [I _].
  unfold scoreUp, MAX_SCORE. cbv zeta.
  apply Q.min_glb_lt; [lra|].
  apply Qlt_le_trans with (grid (k + 1)); [exact U|].
  unfold fadd at 1. apply round64_ge_grid; [lia|].
  assert (E : grid (k + 1) == grid k + grid 1).
  { unfold grid, Qeq. cbn. lia. }
  rewrite E. lra.
Qed.

Lemma scoreUp_le_step s : 0 <= s <= 1 -> scoreUp s <= s +! SCORE_INCREASE.
Proof.
  intros Hs. destruct (increase_bounds s Hs) as [_ I].
  unfold scoreUp. cbv zeta.
  apply Qle_trans with (s +! SCORE_INCREASE *! (1 -! s *! (1 # 2))); [apply Q.le_min_r|].
  unfold fadd. apply round64_le. lra.
Qed.

Lemma scoreUp_at_one s : 1 <= s <= 1 -> scoreUp s = 1.
Proof.
  intros Hs. destruct (increase_bounds s ltac:(lra)) as [I _].
  unfold scoreUp, MAX_SCORE. cbv zeta.
  assert (H : 1 <= s +! SCORE_INCREASE *! (1 -! s *! (1 # 2))).
  { unfold fadd at 1. apply round64_ge_fixed; [now rewrite round64_1|].
    unfold grid in I. lra. }
  unfold Qmin, GenericMinMax.gmin.
  destruct (Qcompare_spec 1 (s +! SCORE_INCREASE *! (1 -! s *! (1 # 2))));
    [reflexivity | reflexivity | exfalso; lra].
Qed.

(** A miss lowers a positive score, by at most [SCORE_DECREASE]; a score
    of 0 stays. *)
Lemma scoreDown_lowers s : 0 < s <= 1 -> scoreDown s < s.
Proof.
  intros Hs. destruct (grid_cell_above s Hs) as [k [Hk [L U]]].
  destruct (decrease_bounds s ltac:(lra)) as [I _].
  unfold scoreDown, MIN_SCORE. cbv zeta.
  apply Q.max_lub_lt; [lra|].
  apply Qle_lt_trans with (grid k); [|exact L].
  unfold fsub at 1. apply round64_le_grid; [lia|].
  assert (E : grid (k + 1) == grid k + grid 1).
  { unfold grid, Qeq. cbn. lia. }
  rewrite E in U. lra.
Qed.

Lemma scoreDown_ge_step s : 0 <= s <= 1 -> s -! SCORE_DECREASE <= scoreDown s.
Proof.
  intros Hs. destruct (decrease_bounds s Hs) as [_ I].
  unfold scoreDown. cbv zeta.
  apply Qle_trans with (s -! SCORE_DECREASE *! ((1 # 2) +! s *! (1 # 2))); [|apply Q.le_max_r].
  unfold fsub. apply round64_le. lra.
Qed.

Lemma scoreDown_at_zero s : 0 <= s <= 0 -> scoreDown s = 0.
Proof.
  intros Hs. destruct (decrease_bounds s ltac:(lra)) as [I _].
  unfold scoreDown, MIN_SCORE. cbv zeta.
  assert (H : s -! SCORE_DECREASE *! ((1 # 2) +! s *! (1 # 2)) <= 0).
  { unfold fsub at 1. apply round64_le_fixed; [now rewrite round64_0|].
    unfold grid in I. lra. }
  unfold Qmax, GenericMinMax.gmax.
  destruct (Qcompare_spec 0 (s -! SCORE_DECREASE *! ((1 # 2) +! s *! (1 # 2))));
    [reflexivity | exfalso; lra | reflexivity].
Qed.

Lemma scoreDown_keeps_positive s : 1#16 <= s <= 1 -> 1#64 <= scoreDown s.
Proof.
  intros Hs. destruct (decrease_bounds s ltac:(lra)) as [_ I].
  unfold scoreDown. cbv zeta.
  apply Qle_trans with (s -! SCORE_DECREASE *! ((1 # 2) +! s *! (1 # 2))); [|apply Q.le_max_r].
  unfold fsub at 1. apply (round64_ge_grid 1); [lia|].
  assert (D : SCORE_DECREASE <= 3#64) by (apply Qle_bool_iff; vm_compute; reflexivity).
  unfold grid. lra.
Qed.

End Steps.

(* ================================================================== *)
(** * Steps of the score history *)
(* ================================================================== *)

Section HistorySteps.
Variable clock : Clock.
Variable completedDates : list DateStr.
Variable habit : Habit.

Lemma pointsFrom_step n : forall s k d, (k < n)%nat ->
  score (nth k (pointsFrom clock completedDates habit n s) d)
  = scoreDay clock completedDates habit (n - 1 - k)
      match k with
      | O => s
      | S j => score (nth j (pointsFrom clock completedDates habit n s) d)
      end.
Proof.
  induction n as [|i IH]; intros s k d Hk; [lia|].
  cbn [pointsFrom]. destruct k as [|k]; cbn [nth].
  - cbn [score]. now replace (S i - 1 - 0)%nat with i by lia.
  - rewrite IH by lia. replace (S i - 1 - S k)%nat with (i - 1 - k)%nat by lia.
    destruct k; reflexivity.
Qed.

(** Each running score is the update of the day on the score before. *)
Lemma runningScores_step days k :
  (k < Z.to_nat days)%nat ->
  nth k (runningScores clock completedDates habit days) 0
  = scoreDay clock completedDates habit (Z.to_nat days - 1 - k)
      (prevScore (runningScores clock completedDates habit days) k).
Proof.
  intros Hk. unfold runningScores, prevScore.
  change 0 with (score (mkPoint 0%Z 0)). rewrite !map_nth.
  rewrite calculateScoreHistory_points, pointsFrom_step by assumption.
  destruct k; [reflexivity|]. now rewrite map_nth.
Qed.

Lemma pointsFrom_range n : forall s, 0 <= s <= 1 ->
  Forall (fun p => 0 <= score p <= 1) (pointsFrom clock completedDates habit n s).
Proof.
  induction n as [|i IH]; intros s Hs; cbn [pointsFrom]; constructor.
  - cbn [score]. now apply scoreDay_range.
  - apply IH. now apply scoreDay_range.
Qed.

Lemma runningScores_range days :
  Forall (fun s => 0 <= s <= 1) (runningScores clock completedDates habit days).
Proof.
  unfold runningScores. rewrite calculateScoreHistory_points.
  apply Forall_map. apply pointsFrom_range. split; discriminate.
Qed.

Lemma runningScores_length days :
  length (runningScores clock completedDates habit days) = Z.to_nat days.
Proof.
  unfold runningScores. rewrite length_map, calculateScoreHistory_points.
  apply pointsFrom_length.
Qed.

Lemma prevScore_range days k :
  0 <= prevScore (runningScores clock completedDates habit days) k <= 1.
Proof.
  destruct k as [|j]; cbn [prevScore]; [split; discriminate|].
  destruct (Nat.lt_ge_cases j (length (runningScores clock completedDates habit days))) as [L|G].
  - pose proof (runningScores_range days) as F. rewrite Forall_forall in F.
    apply F. now apply nth_In.
  - rewrite nth_overflow by assumption. split; discriminate.
Qed.

End HistorySteps.

(** X1.  Every entry of the history [calculateScoreHistory] returns has a score
    in the closed interval [0, 1], for every clock, completion list, habit
    and number of days. *)
Theorem scoreHistory_in_unit_interval :
  forall (clock : Clock) (completedDates : list DateStr) (habit : Habit) (days : Z),
    Forall (fun p => 0 <= score p <= 1)
           (calculateScoreHistory clock completedDates habit days).
Proof.
  intros clock dates h days.
  pose proof (runningScores_range clock dates h days) as F.
  unfold runningScores in F. rewrite Forall_map in F. exact F.
Qed.

(** X2.  Along the history, a scheduled day that is completed raises the
    running score strictly as long as it is below 1 and leaves it at 1
    otherwise; a scheduled day that is missed lowers it strictly as long
    as it is above 0 and leaves it at 0 otherwise. *)
Theorem scoreHistory_step_direction :
  forall (clock : Clock) (completedDates : list DateStr) (habit : Habit) (days : Z)
         (k : nat),
    (k < Z.to_nat days)%nat ->
    let scores := runningScores clock completedDates habit days in
    let before := prevScore scores k in
    let after := nth k scores 0 in
    let day := dayAt clock (days - 1 - Z.of_nat k) in
    isDayScheduled (tzOffset clock) day habit = true ->
    (has completedDates (formatDate (tzOffset clock) day) = true ->
       (before < 1 -> before < after) /\ (before == 1 -> after = 1)) /\
    (has completedDates (formatDate (tzOffset clock) day) = false ->
       (0 < before -> after < before) /\ (before == 0 -> after = 0)).
Proof.
  intros clock dates h days k Hk. cbv zeta. intros Hs.
  rewrite (runningScores_step clock dates h days k Hk).
  pose proof (prevScore_range clock dates h days k) as [P0 P1].
  unfold scoreDay. cbv zeta.
  replace (- Z.of_nat (Z.to_nat days - 1 - k))%Z with (- (days - 1 - Z.of_nat k))%Z by lia.
  fold (dayAt clock (days - 1 - Z.of_nat k)). rewrite Hs. cbn [negb].
  split; intros Hc; rewrite Hc; split; intros H.
  - apply scoreUp_raises. lra.
  - apply scoreUp_at_one. lra.
  - apply scoreDown_lowers. lra.
  - apply scoreDown_at_zero. lra.
Qed.

(** X3.  One day changes the running score by at most the two rates: the score
    after a day lies between the score before minus [SCORE_DECREASE] and
    the score before plus [SCORE_INCREASE] (binary64 subtraction and
    addition).  A score of at least 1/16 is still at least 1/64 after the
    day: one miss never resets an established score to 0. *)
Theorem scoreHistory_step_size :
  forall (clock : Clock) (completedDates : list DateStr) (habit : Habit) (days : Z)
         (k : nat),
    (k < Z.to_nat days)%nat ->
    let scores := runningScores clock completedDates habit days in
    let before := prevScore scores k in
    let after := nth k scores 0 in
    before -! SCORE_DECREASE <= after <= before +! SCORE_INCREASE /\
    (1#16 <= before -> 1#64 <= after).
Proof.
  intros clock dates h days k Hk. cbv zeta.
  rewrite (runningScores_step clock dates h days k Hk).
  pose proof (prevScore_range clock dates h days k) as P.
  set (before := prevScore (runningScores clock dates h days) k) in *.
  pose proof (scoreUp_le_step before P) as U1.
  pose proof (scoreDown_ge_step before P) as D1.
  assert (U0 : before <= scoreUp before).
  { destruct (Qlt_le_dec before 1) as [L|G].
    - apply Qlt_le_weak, scoreUp_raises. lra.
    - rewrite (scoreUp_at_one before) by lra. lra. }
  assert (D0 : scoreDown before <= before).
  { destruct (Qlt_le_dec 0 before) as [L|G].
    - apply Qlt_le_weak, scoreDown_lowers. lra.
    - rewrite (scoreDown_at_zero before) by lra. lra. }
  pose proof (scoreDown_keeps_positive before) as K.
  unfold scoreDay. cbv zeta.
  destruct (negb _); [|destruct (has _ _)]; (split; [split|intros H16]); lra.
Qed.

(* ================================================================== *)
(** * The statistics as functions of the set of dates *)
(* ================================================================== *)

Section Congruence.
Variable clock : Clock.

(** Two habits with the same schedule and two completion lists with the
    same members. *)
Variables (dates1 dates2 : list DateStr) (h1 h2 : Habit).
Hypothesis same_schedule :
  forall d, isDayScheduled (tzOffset clock) d h1 = isDayScheduled (tzOffset clock) d h2.
Hypothesis same_members : forall d, has dates1 d = has dates2 d.

Lemma scoreDay_congr i s :
  scoreDay clock dates1 h1 i s = scoreDay clock dates2 h2 i s.
Proof. unfold scoreDay. cbv zeta. now rewrite same_schedule, same_members. Qed.

Lemma scoreWalk_congr n : forall s,
  scoreWalk clock dates1 h1 n s = scoreWalk clock dates2 h2 n s.
Proof.
  induction n as [|i IH]; intros s; cbn [scoreWalk]; [reflexivity|].
  now rewrite scoreDay_congr, IH.
Qed.

Lemma historyWalk_congr n : forall history s,
  historyWalk clock dates1 h1 n history s = historyWalk clock dates2 h2 n history s.
Proof.
  induction n as [|i IH]; intros history s; cbn [historyWalk]; [reflexivity|].
  now rewrite same_schedule, same_members, IH.
Qed.

Lemma rateLoop_congr n : forall i s c,
  rateLoop clock dates1 h1 n i s c = rateLoop clock dates2 h2 n i s c.
Proof.
  induction n as [|n IH]; intros i s c; cbn [rateLoop]; [reflexivity|].
  now rewrite same_schedule, same_members, !IH.
Qed.

Lemma streakLoop_congr set1 set2 fuel :
  (forall d, has set1 d = has set2 d) ->
  forall today cur streak,
    streakLoop clock h1 fuel set1 today cur streak
    = streakLoop clock h2 fuel set2 today cur streak.
Proof.
  intros Hset. induction fuel as [|fuel IH]; intros today cur streak;
    cbn [streakLoop]; [reflexivity|].
  now rewrite same_schedule, Hset, IH.
Qed.

Lemma bestLoop_congr set1 set2 fuel :
  (forall d, has set1 d = has set2 d) ->
  forall endDate cur best run,
    bestLoop clock h1 fuel set1 endDate cur best run
    = bestLoop clock h2 fuel set2 endDate cur best run.
Proof.
  intros Hset. induction fuel as [|fuel IH]; intros endDate cur best run;
    cbn [bestLoop]; [reflexivity|].
  rewrite same_schedule, Hset.
  destruct (negb _); [reflexivity|].
  destruct (isDayScheduled _ _ _); [destruct (has _ _)|]; apply IH.
Qed.

Lemma same_members_nil : dates1 = [] <-> dates2 = [].
Proof.
  split; intros E; subst.
  - destruct dates2 as [|d l]; [reflexivity|].
    specialize (same_members d). cbn in same_members.
    rewrite Z.eqb_refl in same_members. discriminate.
  - destruct dates1 as [|d l]; [reflexivity|].
    specialize (same_members d). cbn in same_members.
    rewrite Z.eqb_refl in same_members. discriminate.
Qed.

Lemma same_members_first f1 r1 f2 r2 :
  sortDates dates1 = f1 :: r1 -> sortDates dates2 = f2 :: r2 -> f1 = f2.
Proof.
  intros E1 E2.
  assert (I1 : has dates1 f1 = true).
  { rewrite <- has_sortDates, E1. cbn. now rewrite Z.eqb_refl. }
  assert (I2 : has dates2 f2 = true).
  { rewrite <- has_sortDates, E2. cbn. now rewrite Z.eqb_refl. }
  pose proof (sortDates_head_min dates1 f1 r1 E1 f2) as A.
  pose proof (sortDates_head_min dates2 f2 r2 E2 f1) as B.
  rewrite same_members in I1. rewrite <- same_members in I2.
  apply has_true_In in I1, I2. specialize (A I2). specialize (B I1). lia.
Qed.

Lemma calculateStreak_congr :
  calculateStreak clock dates1 h1 = calculateStreak clock dates2 h2.
Proof.
  unfold calculateStreak.
  pose proof same_members_nil as [N1 N2].
  assert (Hset : forall d, has (rev (sortDates dates1)) d
                           = has (rev (sortDates dates2)) d).
  { intro d. rewrite !has_rev, !has_sortDates. apply same_members. }
  pose proof (streakLoop_congr _ _ streakFuel Hset) as SL.
  destruct dates1 as [|a1 l1]; destruct dates2 as [|a2 l2].
  - reflexivity.
  - discriminate (N1 eq_refl).
  - discriminate (N2 eq_refl).
  - cbv zeta. rewrite Hset, same_schedule. apply SL.
Qed.

Lemma calculateBestStreak_congr :
  calculateBestStreak clock dates1 h1 = calculateBestStreak clock dates2 h2.
Proof.
  unfold calculateBestStreak.
  pose proof same_members_nil as [N1 N2].
  pose proof same_members_first as SF.
  assert (Hset : forall d, has (sortDates dates1) d = has (sortDates dates2) d).
  { intro d. rewrite !has_sortDates. apply same_members. }
  destruct dates1 as [|a1 l1]; destruct dates2 as [|a2 l2].
  - reflexivity.
  - discriminate (N1 eq_refl).
  - discriminate (N2 eq_refl).
  - cbv zeta.
    destruct (sortDates (a1 :: l1)) as [|f1 r1] eqn:S1;
      [apply sortDates_nil in S1; discriminate|].
    destruct (sortDates (a2 :: l2)) as [|f2 r2] eqn:S2;
      [apply sortDates_nil in S2; discriminate|].
    pose proof (SF f1 r1 f2 r2 eq_refl eq_refl) as ->.
    now apply bestLoop_congr.
Qed.

End Congruence.

Lemma has_In_iff l x : has l x = true <-> In x l.
Proof.
  split; [apply has_true_In|].
  intros H. unfold has. apply existsb_exists. exists x. split; [assumption|apply Z.eqb_refl].
Qed.

Lemma same_has_of_same_In l1 l2 :
  (forall d, In d l1 <-> In d l2) -> forall d, has l1 d = has l2 d.
Proof.
  intros H d. destruct (has l1 d) eqn:E1, (has l2 d) eqn:E2; try reflexivity.
  - apply has_In_iff, H, has_In_iff in E1. congruence.
  - apply has_In_iff, H, has_In_iff in E2. congruence.
Qed.

(** X4.  The score, the score history, the completion rate and both streaks
    depend on the completion list only through its set of dates: two
    lists with the same members, in any order and with any repetitions,
    give the same results. *)
Theorem statistics_depend_on_the_set_of_dates :
  forall (clock : Clock) (habit : Habit) (dates1 dates2 : list DateStr) (days : Z),
    (forall d, In d dates1 <-> In d dates2) ->
    calculateHabitScore clock dates1 habit days
      = calculateHabitScore clock dates2 habit days /\
    calculateScoreHistory clock dates1 habit days
      = calculateScoreHistory clock dates2 habit days /\
    calculateCompletionRate clock dates1 habit days
      = calculateCompletionRate clock dates2 habit days /\
    calculateStreak clock dates1 habit = calculateStreak clock dates2 habit /\
    calculateBestStreak clock dates1 habit = calculateBestStreak clock dates2 habit.
Proof.
  intros clock h l1 l2 days HIn.
  pose proof (same_has_of_same_In l1 l2 HIn) as Hm.
  assert (Hs : forall d, isDayScheduled (tzOffset clock) d h
                         = isDayScheduled (tzOffset clock) d h) by reflexivity.
  repeat split.
  - apply scoreWalk_congr; assumption.
  - apply historyWalk_congr; assumption.
  - unfold calculateCompletionRate.
    now rewrite (rateLoop_congr clock l1 l2 h h Hs Hm).
  - apply calculateStreak_congr; assumption.
  - apply calculateBestStreak_congr; assumption.
Qed.

Lemma getHabitStats_congr clock dates h1 h2 :
  (forall d, isDayScheduled (tzOffset clock) d h1
             = isDayScheduled (tzOffset clock) d h2) ->
  getHabitStats clock dates h1 = getHabitStats clock dates h2.
Proof.
  intros Hs. unfold getHabitStats, calculateHabitScore, calculateScoreHistory,
    calculateCompletionRate.
  rewrite (calculateStreak_congr clock dates dates h1 h2 Hs (fun _ => eq_refl)).
  rewrite (calculateBestStreak_congr clock dates dates h1 h2 Hs (fun _ => eq_refl)).
  rewrite (scoreWalk_congr clock dates dates h1 h2 Hs (fun _ => eq_refl)).
  rewrite (historyWalk_congr clock dates dates h1 h2 Hs (fun _ => eq_refl)).
  rewrite (rateLoop_congr clock dates dates h1 h2 Hs (fun _ => eq_refl)).
  reflexivity.
Qed.

Lemma everyDay_scheduled tz d h : everyDayFrequency h = true -> isDayScheduled tz d h = true.
Proof.
  unfold everyDayFrequency, isDayScheduled.
  destruct (frequency h) as [[]|]; intros H; try reflexivity; discriminate.
Qed.

(** X5.  Two habits whose frequency is daily, weekly, absent or unrecognised
    have the same statistics on the same completions, whatever their
    other fields: a weekly habit is scored as a daily one, and
    [timesPerWeek] plays no part. *)
Theorem weekly_statistics_are_daily_statistics :
  forall (clock : Clock) (completedDates : list DateStr) (h1 h2 : Habit),
    everyDayFrequency h1 = true ->
    everyDayFrequency h2 = true ->
    getHabitStats clock completedDates h1 = getHabitStats clock completedDates h2.
Proof.
  intros clock dates h1 h2 E1 E2. apply getHabitStats_congr.
  intro d. now rewrite !everyDay_scheduled.
Qed.

Lemma calculateCompletionRate_counts clock dates h days :
  calculateCompletionRate clock dates h days
  = if (0 <? scheduledCount clock h days)%Z
    then inject_Z (completedCount clock dates h days)
         /! inject_Z (scheduledCount clock h days)
    else 0.
Proof.
  unfold calculateCompletionRate.
  pose proof (rateLoop_counts clock dates h (Z.to_nat days) 0 0%Z 0%Z) as R.
  change (Z.of_nat 0) with 0%Z in R. rewrite R. reflexivity.
Qed.

Section WindowOnly.
Variable clock : Clock.
Variables (dates1 dates2 : list DateStr) (habit : Habit).

(** The two completion lists agree on the scheduled days of the window of
    [n] days ending today. *)
Variable n : nat.
Hypothesis agree : forall i : nat, (i < n)%nat ->
  isDayScheduled (tzOffset clock) (dayAt clock (Z.of_nat i)) habit = true ->
  has dates1 (formatDate (tzOffset clock) (dayAt clock (Z.of_nat i)))
  = has dates2 (formatDate (tzOffset clock) (dayAt clock (Z.of_nat i))).

Lemma scoreDay_window i s : (i < n)%nat ->
  scoreDay clock dates1 habit i s = scoreDay clock dates2 habit i s.
Proof.
  intros Hi. unfold scoreDay. cbv zeta. specialize (agree i Hi). unfold dayAt in agree.
  destruct (isDayScheduled _ _ _); [|reflexivity]. now rewrite agree.
Qed.

Lemma scoreWalk_window m : (m <= n)%nat -> forall s,
  scoreWalk clock dates1 habit m s = scoreWalk clock dates2 habit m s.
Proof.
  induction m as [|i IH]; intros Hm s; cbn [scoreWalk]; [reflexivity|].
  rewrite scoreDay_window by lia. apply IH. lia.
Qed.

Lemma pointsFrom_window m : (m <= n)%nat -> forall s,
  pointsFrom clock dates1 habit m s = pointsFrom clock dates2 habit m s.
Proof.
  induction m as [|i IH]; intros Hm s; cbn [pointsFrom]; [reflexivity|].
  rewrite scoreDay_window by lia. f_equal. apply IH. lia.
Qed.

Lemma rateLoop_window m : forall a s c, (a + m <= n)%nat ->
  rateLoop clock dates1 habit m (Z.of_nat a) s c
  = rateLoop clock dates2 habit m (Z.of_nat a) s c.
Proof.
  induction m as [|m IH]; intros a s c Ha; cbn [rateLoop]; [reflexivity|].
  replace (Z.of_nat a + 1)%Z with (Z.of_nat (S a)) by lia.
  pose proof (agree a ltac:(lia)) as A. unfold dayAt in A.
  destruct (isDayScheduled _ _ _).
  - rewrite (A eq_refl). apply IH. lia.
  - apply IH. lia.
Qed.

End WindowOnly.

(** X6.  The score, the score history and the completion rate over a window of
    [days] days read the completion list only on the scheduled days of
    that window: two lists that agree there give the same three results,
    whatever they hold on unscheduled days or outside the window. *)
Theorem only_scheduled_days_of_the_window_count :
  forall (clock : Clock) (habit : Habit) (dates1 dates2 : list DateStr) (days : Z),
    (forall i : Z, (0 <= i < days)%Z ->
       isDayScheduled (tzOffset clock) (dayAt clock i) habit = true ->
       (In (formatDate (tzOffset clock) (dayAt clock i)) dates1 <->
        In (formatDate (tzOffset clock) (dayAt clock i)) dates2)) ->
    calculateHabitScore clock dates1 habit days
      = calculateHabitScore clock dates2 habit days /\
    calculateScoreHistory clock dates1 habit days
      = calculateScoreHistory clock dates2 habit days /\
    calculateCompletionRate clock dates1 habit days
      = calculateCompletionRate clock dates2 habit days.
Proof.
  intros clock h l1 l2 days H.
  assert (A : forall i : nat, (i < Z.to_nat days)%nat ->
    isDayScheduled (tzOffset clock) (dayAt clock (Z.of_nat i)) h = true ->
    has l1 (formatDate (tzOffset clock) (dayAt clock (Z.of_nat i)))
    = has l2 (formatDate (tzOffset clock) (dayAt clock (Z.of_nat i)))).
  { intros i Hi Hs. specialize (H (Z.of_nat i) ltac:(lia) Hs).
    destruct (has l1 _) eqn:E1, (has l2 _) eqn:E2; try reflexivity.
    - apply has_In_iff, H, has_In_iff in E1. congruence.
    - apply has_In_iff, H, has_In_iff in E2. congruence. }
  repeat split.
  - unfold calculateHabitScore. now apply (scoreWalk_window clock l1 l2 h (Z.to_nat days)).
  - rewrite !calculateScoreHistory_points.
    now apply (pointsFrom_window clock l1 l2 h (Z.to_nat days)).
  - unfold calculateCompletionRate.
    pose proof (rateLoop_window clock l1 l2 h (Z.to_nat days) A (Z.to_nat days) 0%nat 0%Z 0%Z
                  ltac:(lia)) as R.
    change (Z.of_nat 0) with 0%Z in R. now rewrite R.
Qed.

Section NothingDone.
Variable clock : Clock.
Variable completedDates : list DateStr.
Variable habit : Habit.
Variable n : nat.

(** No day of the window of [n] days is both scheduled and completed. *)
Hypothesis nothing : forall i : nat, (i < n)%nat ->
  isDayScheduled (tzOffset clock) (dayAt clock (Z.of_nat i)) habit
  && has completedDates (formatDate (tzOffset clock) (dayAt clock (Z.of_nat i))) = false.

Lemma scoreDay_nothing i : (i < n)%nat -> scoreDay clock completedDates habit i 0 = 0.
Proof.
  intros Hi. unfold scoreDay. cbv zeta. specialize (nothing i Hi). unfold dayAt in nothing.
  destruct (isDayScheduled _ _ _); cbn [negb]; [|reflexivity].
  cbn [andb] in nothing. rewrite nothing. apply scoreDown_at_zero. split; discriminate.
Qed.

Lemma scoreWalk_nothing m : (m <= n)%nat -> scoreWalk clock completedDates habit m 0 = 0.
Proof.
  induction m as [|i IH]; intros Hm; cbn [scoreWalk]; [reflexivity|].
  rewrite scoreDay_nothing by lia. apply IH. lia.
Qed.

Lemma pointsFrom_nothing m : (m <= n)%nat ->
  Forall (fun p => score p = 0) (pointsFrom clock completedDates habit m 0).
Proof.
  induction m as [|i IH]; intros Hm; cbn [pointsFrom]; constructor.
  - cbn [score]. apply scoreDay_nothing. lia.
  - rewrite scoreDay_nothing by lia. apply IH. lia.
Qed.

Lemma completedCount_nothing days : Z.to_nat days = n ->
  completedCount clock completedDates habit days = 0%Z.
Proof.
  intros <-. unfold completedCount, trailingWindow.
  assert (E : forall a m, (a + m <= Z.to_nat days)%nat ->
     filter (isCompletedDay clock completedDates habit)
       (map (fun i => dayAt clock (Z.of_nat i)) (seq a m)) = []).
  { intros a m. revert a. induction m as [|m IH]; intros a Ha; [reflexivity|].
    cbn [seq map filter]. unfold isCompletedDay at 1, isScheduledDay.
    rewrite nothing by lia. apply IH. lia. }
  rewrite E by lia. reflexivity.
Qed.

End NothingDone.

(** Nothing done on a scheduled day of the window: all results are 0. *)
Lemma nothing_done_zero clock dates h days :
  (forall i : nat, (i < Z.to_nat days)%nat ->
     isDayScheduled (tzOffset clock) (dayAt clock (Z.of_nat i)) h
     && has dates (formatDate (tzOffset clock) (dayAt clock (Z.of_nat i))) = false) ->
  calculateHabitScore clock dates h days = 0 /\
  (forall p, In p (calculateScoreHistory clock dates h days) -> score p = 0) /\
  calculateCompletionRate clock dates h days = 0.
Proof.
  intros N. repeat split.
  - apply (scoreWalk_nothing clock dates h (Z.to_nat days) N). lia.
  - rewrite calculateScoreHistory_points. apply Forall_forall.
    apply (pointsFrom_nothing clock dates h (Z.to_nat days) N). lia.
  - rewrite calculateCompletionRate_counts,
      (completedCount_nothing clock dates h (Z.to_nat days) N days eq_refl).
    destruct (0 <? _)%Z; [|reflexivity].
    unfold Binary64.fdiv. apply Binary64Facts.round64_zero.
    unfold Qdiv. change (inject_Z 0) with 0. ring.
Qed.

(** X7.  When no scheduled day of the window is completed, the score is 0, every
    entry of the history has score 0, and the completion rate is 0;
    completions on unscheduled days earn nothing. *)
Theorem no_scheduled_completion_no_score :
  forall (clock : Clock) (completedDates : list DateStr) (habit : Habit) (days : Z),
    (forall i : Z, (0 <= i < days)%Z ->
       isDayScheduled (tzOffset clock) (dayAt clock i) habit
       && has completedDates (formatDate (tzOffset clock) (dayAt clock i)) = false) ->
    calculateHabitScore clock completedDates habit days = 0 /\
    (forall p, In p (calculateScoreHistory clock completedDates habit days) -> score p = 0) /\
    calculateCompletionRate clock completedDates habit days = 0.
Proof.
  intros clock dates h days H. apply nothing_done_zero.
  intros i Hi. apply H. lia.
Qed.

Section NeverScheduled.
Variable clock : Clock.
Variable habit : Habit.
Hypothesis never : forall d, isDayScheduled (tzOffset clock) d habit = false.
Local Open Scope Z_scope.

Lemma streakLoop_never fuel : forall set today j streak,
  0 <= j -> 366 <= j + Z.of_nat fuel -> (1 <= fuel)%nat ->
  streakLoop clock habit fuel set today (addDays today (- j)) streak = Some streak.
Proof.
  induction fuel as [|fuel IH]; intros set today j streak Hj Hf H1; [lia|].
  cbn [streakLoop]. rewrite never. cbn [andb].
  rewrite daysDiff_back, addDays_back.
  destruct (Z.ltb_spec 365 (j + 1)); [reflexivity|].
  apply IH; lia.
Qed.

Lemma bestLoop_never fuel : forall set endDate cur best run r,
  bestLoop clock habit fuel set endDate cur best run = Some r -> r = best.
Proof.
  induction fuel as [|fuel IH]; intros set endDate cur best run r H; cbn [bestLoop] in H.
  - destruct (negb _); [now injection H as <-|discriminate].
  - destruct (negb _); [now injection H as <-|].
    rewrite never in H. now apply IH in H.
Qed.

End NeverScheduled.

(** X8.  A habit on specific days whose list of days is empty is never
    scheduled: its score and completion rate are 0 and both of its
    streaks are 0, whatever has been completed. *)
Theorem never_scheduled_habit_has_no_statistics :
  forall (clock : Clock) (completedDates : list DateStr) (habit : Habit) (days : Z),
    frequency habit = Some SpecificDays ->
    specificDays habit = Some [] ->
    calculateHabitScore clock completedDates habit days = 0 /\
    calculateCompletionRate clock completedDates habit days = 0 /\
    calculateStreak clock completedDates habit = Some 0%Z /\
    calculateBestStreak clock completedDates habit = Some 0%Z.
Proof.
  intros clock dates h days Hf Hd.
  assert (N : forall d, isDayScheduled (tzOffset clock) d h = false).
  { intro d. unfold isDayScheduled. rewrite Hf, Hd. reflexivity. }
  destruct (nothing_done_zero clock dates h days) as [S [_ R]].
  { intros i _. now rewrite N. }
  repeat split; try assumption.
  - unfold calculateStreak. destruct dates as [|a l]; [reflexivity|]. cbv zeta.
    rewrite N, andb_false_r.
    pose proof (streakLoop_never clock h N streakFuel (rev (sortDates (a :: l)))
                  (todayOf clock) 0 0) as T.
    replace (addDays (todayOf clock) (- 0)) with (todayOf clock) in T
      by (unfold addDays; lia).
    apply T; unfold streakFuel; lia.
  - destruct (calculateBestStreak_total clock dates h) as [b Hb]. rewrite Hb. f_equal.
    unfold calculateBestStreak in Hb. destruct dates as [|a l]; [now injection Hb|].
    cbv zeta in Hb. destruct (sortDates (a :: l)); [now injection Hb|].
    now apply (bestLoop_never clock h N) in Hb.
Qed.

(** X9.  When the window holds a scheduled day and every scheduled day of it is
    completed, [calculateCompletionRate] returns exactly 1. *)
Theorem completionRate_one_when_all_done :
  forall (clock : Clock) (completedDates : list DateStr) (habit : Habit) (days : Z),
    (exists i : Z, (0 <= i < days)%Z /\
       isDayScheduled (tzOffset clock) (dayAt clock i) habit = true) ->
    (forall i : Z, (0 <= i < days)%Z ->
       isDayScheduled (tzOffset clock) (dayAt clock i) habit = true ->
       has completedDates (formatDate (tzOffset clock) (dayAt clock i)) = true) ->
    calculateCompletionRate clock completedDates habit days == 1.
Proof.
  intros clock dates h days [i [Hi Hs]] Hall.
  rewrite calculateCompletionRate_counts.
  assert (E : forall a m, (a + m <= Z.to_nat days)%nat ->
     filter (isCompletedDay clock dates h)
       (map (fun i => dayAt clock (Z.of_nat i)) (seq a m))
     = filter (isScheduledDay clock h)
       (map (fun i => dayAt clock (Z.of_nat i)) (seq a m))).
  { intros a m. revert a. induction m as [|m IH]; intros a Ha; [reflexivity|].
    cbn [seq map filter]. unfold isCompletedDay at 1. unfold isScheduledDay at 1 2.
    destruct (isDayScheduled (tzOffset clock) (dayAt clock (Z.of_nat a)) h) eqn:Es.
    - rewrite (Hall (Z.of_nat a) ltac:(lia) Es). cbn [andb]. f_equal. apply IH. lia.
    - cbn [andb]. apply IH. lia. }
  unfold completedCount, scheduledCount, trailingWindow. rewrite E by lia.
  fold (trailingWindow clock days). fold (scheduledCount clock h days).
  assert (P : (0 < scheduledCount clock h days)%Z).
  { unfold scheduledCount. 
    assert (I : In (dayAt clock i) (filter (isScheduledDay clock h) (trailingWindow clock days))).
    { apply filter_In. split; [|exact Hs].
      unfold trailingWindow. apply in_map_iff. exists (Z.to_nat i).
      split; [f_equal; lia|apply in_seq; lia]. }
    destruct (filter _ _); [contradiction|cbn [length]; lia]. }
  destruct (Z.ltb_spec 0 (scheduledCount clock h days)); [|lia].
  unfold Binary64.fdiv.
  assert (Q1 : inject_Z (scheduledCount clock h days)
               / inject_Z (scheduledCount clock h days) == 1).
  { apply Qmult_inv_r. rewrite Zlt_Qlt in P. change (inject_Z 0) with 0 in P.
    intro X. rewrite X in P. discriminate P. }
  rewrite (Binary64Facts.round64_proper _ _ Q1), Binary64Facts.round64_1. reflexivity.
Qed.

(* ================================================================== *)
(** * Schedules *)
(* ================================================================== *)

Section Periodicity.
Local Open Scope Z_scope.

Lemma getDay_range tz t : 0 <= getDay tz t <= 6.
Proof. unfold getDay. pose proof (Z.mod_pos_bound (localDay tz t + 4) 7). lia. Qed.

Lemma getDay_addDays tz t k : getDay tz (addDays t k) = (getDay tz t + k) mod 7.
Proof.
  unfold getDay. rewrite localDay_addDays.
  replace (localDay tz t + k + 4) with (localDay tz t + 4 + k) by lia.
  now rewrite Zplus_mod_idemp_l.
Qed.

Lemma getDay_week tz t k : getDay tz (addDays t (7 * k)) = getDay tz t.
Proof.
  unfold getDay. rewrite localDay_addDays.
  replace (localDay tz t + 7 * k + 4) with (localDay tz t + 4 + k * 7) by lia.
  apply Z_mod_plus_full.
Qed.

(** X10.  For a habit on specific days, a date and the date any whole number of
    weeks away are scheduled alike; without a list of days every date is
    scheduled, and with one a date is scheduled exactly when its weekday
    is in the list. *)
Theorem specific_days_repeat_weekly :
  forall (tz date k : Z) (habit : Habit),
    frequency habit = Some SpecificDays ->
    isDayScheduled tz (addDays date (7 * k)) habit = isDayScheduled tz date habit /\
    (specificDays habit = None -> isDayScheduled tz date habit = true) /\
    (forall days, specificDays habit = Some days ->
       (isDayScheduled tz date habit = true <-> In (getDay tz date) days)).
Proof.
  intros tz date k h Hf. unfold isDayScheduled. rewrite Hf. repeat split.
  - now rewrite getDay_week.
  - intros ->. pose proof (getDay_range tz date) as R. unfold includes.
    apply existsb_exists. exists (getDay tz date). split; [|apply Z.eqb_refl].
    cbn [In]. lia.
  - rewrite H. unfold includes. intros E. apply existsb_exists in E as [x [Hx E]].
    apply Z.eqb_eq in E. now subst.
  - rewrite H. unfold includes. intros E. apply existsb_exists.
    exists (getDay tz date). split; [assumption|apply Z.eqb_refl].
Qed.

(** X11.  For an interval habit, with [period] the interval after
    defaulting and [habitStartDate] the local midnight of [createdAt]: an
    instant before [habitStartDate] is not scheduled; an instant in the
    first 24 hours from [habitStartDate] is; from [habitStartDate] on,
    moving the instant by a multiple of [period] times 24 hours keeps the
    answer; and the sign of the stored interval makes no difference. *)
Theorem interval_schedule_is_periodic :
  forall (tz date n : Z) (habit : Habit),
    frequency habit = Some Interval ->
    let period := orDefault (interval habit) 2 in
    let habitStartDate := setHours0 tz (createdAt habit) in
    (date < habitStartDate -> isDayScheduled tz date habit = false) /\
    (habitStartDate <= date < habitStartDate + msPerDay ->
       isDayScheduled tz date habit = true) /\
    (habitStartDate <= date ->
     habitStartDate <= date + n * period * msPerDay ->
       isDayScheduled tz (date + n * period * msPerDay) habit
       = isDayScheduled tz date habit) /\
    (forall v, interval habit = Some v ->
       isDayScheduled tz date
         (mkHabit (frequency habit) (timesPerWeek habit) (Some (- v))
                  (specificDays habit) (createdAt habit))
       = isDayScheduled tz date habit).
Proof.
  intros tz date n h Hf. cbv zeta. pose proof msPerDay_pos as P.
  assert (Hp : orDefault (interval h) 2 <> 0) by (apply orDefault_nonzero; discriminate).
  unfold isDayScheduled. cbn [frequency interval createdAt]. rewrite Hf. cbv zeta.
  remember (setHours0 tz (createdAt h)) as start eqn:Es.
  remember (orDefault (interval h) 2) as p eqn:Ep.
  repeat split.
  - intros H.
    assert ((date - start) / msPerDay < 0) by (apply Z.div_lt_upper_bound; lia).
    destruct (Z.leb_spec 0 ((date - start) / msPerDay)); [lia|reflexivity].
  - intros H. rewrite Z.div_small by lia. cbn [Z.leb Z.compare andb].
    rewrite Z.rem_0_l by assumption. reflexivity.
  - intros H0 H1.
    replace (date + n * p * msPerDay - start)
      with (date - start + n * p * msPerDay) by lia.
    rewrite Z.div_add by lia.
    assert (D0 : 0 <= (date - start) / msPerDay) by (apply Z.div_pos; lia).
    assert (D1 : 0 <= (date - start) / msPerDay + n * p).
    { rewrite <- Z.div_add by lia. apply Z.div_pos; lia. }
    remember ((date - start) / msPerDay) as d eqn:Ed.
    destruct (Z.leb_spec 0 d); [|lia]. destruct (Z.leb_spec 0 (d + n * p)); [|lia].
    cbn [andb].
    destruct (Z.eqb_spec (Z.rem d p) 0) as [E|E];
      destruct (Z.eqb_spec (Z.rem (d + n * p) p) 0) as [E'|E']; try reflexivity; exfalso.
    + apply E'. apply Z.rem_divide; [assumption|]. apply Z.rem_divide in E; [|assumption].
      apply Z.divide_add_r; [assumption|]. apply Z.divide_factor_r.
    + apply E. apply Z.rem_divide; [assumption|]. apply Z.rem_divide in E'; [|assumption].
      replace d with (d + n * p - n * p) by lia.
      apply Z.divide_sub_r; [assumption|]. apply Z.divide_factor_r.
  - intros v Hv. subst p. rewrite Hv. unfold orDefault.
    destruct (Z.eqb_spec v 0) as [->|Nv]; [reflexivity|].
    destruct (Z.eqb_spec (- v) 0); [lia|].
    now rewrite Z.rem_opp_r by assumption.
Qed.

(** The period is counted in elapsed time, so the scheduled days drift
    across a change of offset: an interval of 2 from 8 March 2024 in New
    York schedules the local midnights of 8, 10 and then 11 March. *)
Example interval_days_across_a_change :
  map (fun d =>
         Zoned.isDayScheduled newYork2024
           (Zoned.utc newYork2024 (d * msPerDay))
           (mkHabit (Some Interval) None (Some 2%Z) None
                    (ymd 2024 3 8 * msPerDay + 17 * 3600000)%Z))
      [ymd 2024 3 8; ymd 2024 3 9; ymd 2024 3 10; ymd 2024 3 11; ymd 2024 3 12]
  = [true; false; true; true; false].
Proof. vm_compute. reflexivity. Qed.

End Periodicity.

(* ================================================================== *)
(** * Streak bounds *)
(* ================================================================== *)

Section Hits.

Lemma filter_orb_length {A} (p q : A -> bool) l :
  (length (filter (fun x => p x || q x) l)
   <= length (filter p l) + length (filter q l))%nat.
Proof.
  induction l as [|x l IH]; [reflexivity|]. cbn [filter].
  destruct (p x), (q x); cbn [orb length]; lia.
Qed.

Lemma filter_eqb_NoDup a l :
  NoDup l -> (length (filter (fun x => (x =? a)%Z) l) <= 1)%nat.
Proof.
  induction 1 as [|x l Hx Hl IH]; [cbn; lia|]. cbn [filter].
  destruct (Z.eqb_spec x a) as [->|N]; [|exact IH].
  cbn [length]. 
  assert (E : filter (fun x => (x =? a)%Z) l = []).
  { clear IH Hl. induction l as [|y l IH]; [reflexivity|]. cbn [filter].
    destruct (Z.eqb_spec y a) as [->|Ny].
    - exfalso. apply Hx. now left.
    - apply IH. intro X. apply Hx. now right. }
  rewrite E. cbn. lia.
Qed.

(** Distinct days hit at most as many completions as there are. *)
Lemma hits_le_length set days : NoDup days -> (hits set days <= length set)%nat.
Proof.
  intros Hd. unfold hits. induction set as [|a set IH].
  - cbn [has existsb]. induction days as [|d days IHd]; [reflexivity|].
    cbn [filter]. apply IHd. now inversion Hd.
  - cbn [length].
    assert (E : forall x, has (a :: set) x = (x =? a)%Z || has set x) by reflexivity.
    rewrite (filter_ext _ _ E).
    pose proof (filter_orb_length (fun x => (x =? a)%Z) (has set) days).
    pose proof (filter_eqb_NoDup a days Hd). lia.
Qed.

Lemma NoDup_map_seq (f : nat -> Z) :
  (forall x y, f x = f y -> x = y) -> forall n a, NoDup (map f (seq a n)).
Proof.
  intros Hf. induction n as [|n IH]; intros a; cbn [seq map]; constructor.
  - intros X. apply in_map_iff in X as [i [E I]]. apply Hf in E. subst.
    apply in_seq in I. lia.
  - apply IH.
Qed.

Lemma NoDup_days_back c n :
  NoDup (map (fun i => (c - Z.of_nat i)%Z) (seq 0 n)).
Proof. apply NoDup_map_seq. intros x y H. lia. Qed.

Lemma NoDup_days_forth c n :
  NoDup (map (fun i => (c + Z.of_nat i)%Z) (seq 0 n)).
Proof. apply NoDup_map_seq. intros x y H. lia. Qed.

Lemma days_back_succ c n :
  map (fun i => (c - Z.of_nat i)%Z) (seq 0 (S n))
  = c :: map (fun i => (c + -1 - Z.of_nat i)%Z) (seq 0 n).
Proof.
  cbn [seq map]. f_equal; [lia|].
  rewrite <- seq_shift, map_map. apply map_ext. intros. lia.
Qed.

Lemma days_forth_succ c n :
  map (fun i => (c + Z.of_nat i)%Z) (seq 0 (S n))
  = c :: map (fun i => (c + 1 + Z.of_nat i)%Z) (seq 0 n).
Proof.
  cbn [seq map]. f_equal; [lia|].
  rewrite <- seq_shift, map_map. apply map_ext. intros. lia.
Qed.

End Hits.

Section StreakLoopFacts.
Variable clock : Clock.
Variable habit : Habit.
Local Open Scope Z_scope.

Lemma streakLoop_bounds fuel : forall set today j s r,
  0 <= j <= 365 ->
  streakLoop clock habit fuel set today (addDays today (- j)) s = Some r ->
  s <= r <= s + (366 - j).
Proof.
  induction fuel as [|fuel IH]; intros set today j s r Hj H; [discriminate|].
  cbn [streakLoop] in H.
  destruct (_ && _); [injection H as <-; lia|].
  rewrite daysDiff_back, addDays_back in H.
  destruct (Z.ltb_spec 365 (j + 1)).
  - injection H as <-. destruct (isDayScheduled _ _ _); lia.
  - apply IH in H; [|lia]. destruct (isDayScheduled _ _ _); lia.
Qed.

Lemma streakLoop_shift fuel c : forall set today cur s,
  streakLoop clock habit fuel set today cur (s + c)
  = option_map (fun r => r + c) (streakLoop clock habit fuel set today cur s).
Proof.
  induction fuel as [|fuel IH]; intros set today cur s; cbn [streakLoop]; [reflexivity|].
  destruct (_ && _); [reflexivity|].
  destruct (isDayScheduled _ _ _).
  - destruct (365 <? _); [cbn; f_equal; lia|].
    replace (s + c + 1) with (s + 1 + c) by lia. apply IH.
  - destruct (365 <? _); [reflexivity|]. apply IH.
Qed.

Lemma streakLoop_more_fuel fuel : forall set today cur s r,
  streakLoop clock habit fuel set today cur s = Some r ->
  streakLoop clock habit (S fuel) set today cur s = Some r.
Proof.
  induction fuel as [|fuel IH]; intros set today cur s r H; [discriminate|].
  cbn [streakLoop] in H. change (streakLoop clock habit (S (S fuel)) set today cur s)
    with (let dateStr := formatDate (tzOffset clock) cur in
          let isScheduled := isDayScheduled (tzOffset clock) cur habit in
          if isScheduled && negb (has set dateStr) then Some s
          else
            let streak := if isScheduled then s + 1 else s in
            let currentDate := addDays cur (-1) in
            let daysDiff := (today - currentDate) / msPerDay in
            if 365 <? daysDiff then Some streak
            else streakLoop clock habit (S fuel) set today currentDate streak).
  cbv zeta. destruct (_ && _); [assumption|].
  destruct (365 <? _); [assumption|]. now apply IH.
Qed.

(** The backward walk reads the completions of its own day and earlier
    days only. *)
Lemma streakLoop_congr_below set1 set2 fuel : forall today cur s,
  (forall d, d <= localDay (tzOffset clock) cur -> has set1 d = has set2 d) ->
  streakLoop clock habit fuel set1 today cur s
  = streakLoop clock habit fuel set2 today cur s.
Proof.
  induction fuel as [|fuel IH]; intros today cur s H; cbn [streakLoop]; [reflexivity|].
  unfold formatDate. rewrite (H (localDay (tzOffset clock) cur)) by lia.
  destruct (_ && _); [reflexivity|]. destruct (365 <? _); [reflexivity|].
  apply IH. intros d Hd. apply H. rewrite localDay_addDays in Hd. lia.
Qed.

Lemma streakLoop_hits fuel : forall set today cur s r,
  streakLoop clock habit fuel set today cur s = Some r ->
  r <= s + Z.of_nat (hits set (map (fun i => localDay (tzOffset clock) cur - Z.of_nat i)
                                   (seq 0 fuel))).
Proof.
  induction fuel as [|fuel IH]; intros set today cur s r H; [discriminate|].
  rewrite days_back_succ. unfold hits. cbn [filter].
  cbn [streakLoop] in H. unfold formatDate in H.
  destruct (isDayScheduled _ _ _); cbn [andb] in H.
  - destruct (has set (localDay (tzOffset clock) cur)); cbn [negb] in H.
    + cbn [length]. destruct (365 <? _).
      * injection H as <-. lia.
      * apply IH in H. rewrite localDay_addDays in H. unfold hits in H. lia.
    + injection H as <-. lia.
  - destruct (365 <? _); [injection H as <-; lia|].
    apply IH in H. rewrite localDay_addDays in H. unfold hits in H.
    destruct (has set _); cbn [length]; lia.
Qed.

Lemma bestLoop_hits fuel : forall set endDate cur best run r,
  0 <= run ->
  bestLoop clock habit fuel set endDate cur best run = Some r ->
  r <= Z.max best
         (run + Z.of_nat (hits set (map (fun i => localDay (tzOffset clock) cur + Z.of_nat i)
                                        (seq 0 fuel)))).
Proof.
  induction fuel as [|fuel IH]; intros set endDate cur best run r Hrun H.
  - cbn [bestLoop] in H. destruct (negb _); [injection H as <-; lia|discriminate].
  - rewrite days_forth_succ. unfold hits. cbn [filter].
    cbn [bestLoop] in H. destruct (negb _); [injection H as <-; lia|].
    unfold formatDate in H.
    destruct (isDayScheduled _ _ _).
    + destruct (has set (localDay (tzOffset clock) cur)).
      * apply IH in H; [|lia]. rewrite localDay_addDays in H. unfold hits in H.
        cbn [length]. lia.
      * apply IH in H; [|lia]. rewrite localDay_addDays in H. unfold hits in H. lia.
    + apply IH in H; [|lia]. rewrite localDay_addDays in H. unfold hits in H.
      destruct (has set _); cbn [length]; lia.
Qed.

Lemma bestLoop_ge_best fuel : forall set endDate cur best run r,
  bestLoop clock habit fuel set endDate cur best run = Some r -> best <= r.
Proof.
  induction fuel as [|fuel IH]; intros set endDate cur best run r H; cbn [bestLoop] in H.
  - destruct (negb _); [injection H as <-; lia|discriminate].
  - destruct (negb _); [injection H as <-; lia|].
    destruct (isDayScheduled _ _ _); [destruct (has _ _)|]; apply IH in H; lia.
Qed.

End StreakLoopFacts.

Lemma sortDates_length l : length (sortDates l) = length l.
Proof.
  assert (I : forall d l, length (insertDate d l) = S (length l)).
  { intros d l0. induction l0 as [|x r IH]; cbn [insertDate]; [reflexivity|].
    destruct (d <=? x)%Z; cbn [length]; [reflexivity|]. now rewrite IH. }
  induction l as [|x r IH]; cbn [sortDates]; [reflexivity|].
  now rewrite I, IH.
Qed.

(** X12.  Both loops end, and neither the current streak nor the best streak
    exceeds the number of completions; both are at least 0. *)
Theorem streaks_at_most_total :
  forall (clock : Clock) (completedDates : list DateStr) (habit : Habit),
    exists s b : Z,
      calculateStreak clock completedDates habit = Some s /\
      calculateBestStreak clock completedDates habit = Some b /\
      (0 <= s <= calculateTotal completedDates)%Z /\
      (0 <= b <= calculateTotal completedDates)%Z.
Proof.
  intros clock dates h.
  destruct (calculateStreak_total clock dates h) as [s Hs].
  destruct (calculateBestStreak_total clock dates h) as [b Hb].
  exists s, b. split; [assumption|]. split; [assumption|].
  unfold calculateTotal. split.
  - unfold calculateStreak in Hs. destruct dates as [|a l]; [injection Hs as <-; cbn; lia|].
    cbv zeta in Hs.
    pose proof (streakLoop_hits clock h _ _ _ _ _ _ Hs) as U.
    pose proof (hits_le_length (rev (sortDates (a :: l))) _
                  (NoDup_days_back (localDay (tzOffset clock)
                     (if negb (has (rev (sortDates (a :: l)))
                                (formatDate (tzOffset clock) (todayOf clock)))
                         && isDayScheduled (tzOffset clock) (todayOf clock) h
                      then addDays (todayOf clock) (-1) else todayOf clock))
                     streakFuel)) as V.
    rewrite length_rev, sortDates_length in V.
    split; [|lia].
    destruct (_ && _) in Hs.
    + apply (streakLoop_bounds clock h streakFuel _ (todayOf clock) 1) in Hs; lia.
    + replace (todayOf clock) with (addDays (todayOf clock) (- 0)) in Hs at 2
        by (unfold addDays; lia).
      apply (streakLoop_bounds clock h streakFuel _ (todayOf clock) 0) in Hs; lia.
  - unfold calculateBestStreak in Hb. destruct dates as [|a l]; [injection Hb as <-; cbn; lia|].
    cbv zeta in Hb.
    destruct (sortDates (a :: l)) as [|first rest] eqn:E; [injection Hb as <-; cbn; lia|].
    pose proof (bestLoop_hits clock h _ _ _ _ _ _ _ (Z.le_refl 0) Hb) as U.
    pose proof (hits_le_length (first :: rest) _
                  (NoDup_days_forth (localDay (tzOffset clock) (parseISODate first))
                     (bestFuel (parseISODate first) (todayOf clock)))) as V.
    assert (Len : length (first :: rest) = length (a :: l))
      by (rewrite <- E; apply sortDates_length).
    split; [|lia].
    now apply bestLoop_ge_best in Hb.
Qed.

Section Grace.
Variable clock : Clock.
Variable habit : Habit.
Local Open Scope Z_scope.

Lemma streakLoop_fuel_irrelevant f1 f2 set today j s :
  0 <= j -> 366 <= j + Z.of_nat f1 -> (1 <= f1)%nat -> (f1 <= f2)%nat ->
  streakLoop clock habit f2 set today (addDays today (- j)) s
  = streakLoop clock habit f1 set today (addDays today (- j)) s.
Proof.
  intros Hj Hf H1 Hle.
  destruct (streakLoop_total clock habit f1 set today j s Hj Hf H1) as [r Hr].
  rewrite Hr. clear Hf H1. induction Hle as [|m Hm IH]; [assumption|].
  now apply streakLoop_more_fuel.
Qed.

(** One round of the backward walk, [j] days before today. *)
Lemma streakLoop_round fuel set today j s :
  0 <= j < 365 ->
  streakLoop clock habit (S fuel) set today (addDays today (- j)) s
  = if isDayScheduled (tzOffset clock) (addDays today (- j)) habit
       && negb (has set (localDay (tzOffset clock) today - j))
    then Some s
    else streakLoop clock habit fuel set today (addDays today (- (j + 1)))
           (if isDayScheduled (tzOffset clock) (addDays today (- j)) habit
            then s + 1 else s).
Proof.
  intros Hj. cbn [streakLoop]. unfold formatDate.
  rewrite localDay_addDays, daysDiff_back, addDays_back.
  replace (localDay (tzOffset clock) today + - j)
    with (localDay (tzOffset clock) today - j) by lia.
  destruct (Z.ltb_spec 365 (j + 1)); [lia|reflexivity].
Qed.

Lemma streakLoop_round_hit fuel set today j s :
  0 <= j < 365 ->
  isDayScheduled (tzOffset clock) (addDays today (- j)) habit = true ->
  has set (localDay (tzOffset clock) today - j) = true ->
  streakLoop clock habit (S fuel) set today (addDays today (- j)) s
  = streakLoop clock habit fuel set today (addDays today (- (j + 1))) (s + 1).
Proof.
  intros Hj Hs Hh. rewrite streakLoop_round by assumption. now rewrite Hs, Hh.
Qed.

Lemma streakLoop_round_miss fuel set today j s :
  0 <= j < 365 ->
  isDayScheduled (tzOffset clock) (addDays today (- j)) habit = true ->
  has set (localDay (tzOffset clock) today - j) = false ->
  streakLoop clock habit (S fuel) set today (addDays today (- j)) s = Some s.
Proof.
  intros Hj Hs Hh. rewrite streakLoop_round by assumption. now rewrite Hs, Hh.
Qed.

(** The walk [calculateStreak] starts, on the completion list itself. *)
Lemma calculateStreak_from_yesterday dates :
  has dates (formatDate (tzOffset clock) (todayOf clock)) = false ->
  isDayScheduled (tzOffset clock) (todayOf clock) habit = true ->
  calculateStreak clock dates habit
  = streakLoop clock habit streakFuel dates (todayOf clock)
      (addDays (todayOf clock) (- (1))) 0.
Proof.
  intros Hn Hs. unfold calculateStreak. destruct dates as [|a l].
  - destruct (streakLoop_total clock habit streakFuel [] (todayOf clock) 1 0) as [r Hr];
      [lia | unfold streakFuel; lia | unfold streakFuel; lia |].
    rewrite Hr. f_equal.
    pose proof (streakLoop_hits clock habit _ _ _ _ _ _ Hr) as U.
    pose proof (hits_le_length [] _
                  (NoDup_days_back
                     (localDay (tzOffset clock) (addDays (todayOf clock) (- (1))))
                     streakFuel)) as V.
    apply (streakLoop_bounds clock habit streakFuel [] (todayOf clock) 1) in Hr; [|lia].
    cbn [length] in V. lia.
  - cbv zeta. rewrite has_rev, has_sortDates, Hn, Hs. cbn [negb andb].
    apply streakLoop_congr_below. intros d _. now rewrite has_rev, has_sortDates.
Qed.

Lemma calculateStreak_from_today dates :
  has dates (formatDate (tzOffset clock) (todayOf clock)) = true ->
  calculateStreak clock dates habit
  = streakLoop clock habit streakFuel dates (todayOf clock)
      (addDays (todayOf clock) (- 0)) 0.
Proof.
  intros Hn. unfold calculateStreak. destruct dates as [|a l]; [discriminate|].
  cbv zeta. rewrite has_rev, has_sortDates, Hn. cbn [negb andb].
  replace (addDays (todayOf clock) (- 0)) with (todayOf clock) by (unfold addDays; lia).
  apply streakLoop_congr_below. intros d _. now rewrite has_rev, has_sortDates.
Qed.

Lemma streakFuel_succ : streakFuel = S 399.
Proof. reflexivity. Qed.

End Grace.

(** Adding today to the completions of a habit scheduled today. *)
Lemma calculateStreak_cons_today :
  forall (clock : Clock) (completedDates : list DateStr) (habit : Habit),
    let todayStr := formatDate (tzOffset clock) (todayOf clock) in
    isDayScheduled (tzOffset clock) (todayOf clock) habit = true ->
    ~ In todayStr completedDates ->
    exists s : Z,
      calculateStreak clock completedDates habit = Some s /\
      calculateStreak clock (todayStr :: completedDates) habit = Some (s + 1)%Z.
Proof.
  intros clock dates h. cbv zeta. intros Hs Hn.
  assert (Hn' : has dates (formatDate (tzOffset clock) (todayOf clock)) = false).
  { destruct (has dates _) eqn:E; [|reflexivity].
    apply has_In_iff in E. contradiction. }
  assert (Ht : has (formatDate (tzOffset clock) (todayOf clock) :: dates)
                   (formatDate (tzOffset clock) (todayOf clock)) = true).
  { cbn [has existsb]. now rewrite Z.eqb_refl. }
  destruct (calculateStreak_total clock dates h) as [s Hsome]. exists s.
  split; [assumption|].
  rewrite (calculateStreak_from_yesterday clock h dates Hn' Hs) in Hsome.
  rewrite (calculateStreak_from_today clock h _ Ht).
  rewrite streakFuel_succ, streakLoop_round by lia.
  replace (addDays (todayOf clock) (- 0)) with (todayOf clock) by (unfold addDays; lia).
  rewrite Hs, Z.sub_0_r. unfold formatDate in Ht |- *. rewrite Ht. cbn [negb andb].
  rewrite (streakLoop_congr_below clock h _ dates).
  2:{ intros d Hd. rewrite localDay_addDays in Hd. cbn [has existsb].
      unfold formatDate. destruct (Z.eqb_spec d (localDay (tzOffset clock) (todayOf clock)));
        [lia|reflexivity]. }
  rewrite (streakLoop_shift clock h 399 1 dates (todayOf clock) _ 0).
  change (0 + 1)%Z with 1%Z.
  rewrite <- (streakLoop_fuel_irrelevant clock h 399 streakFuel dates (todayOf clock) 1 0)
    by (unfold streakFuel; lia).
  rewrite Hsome. reflexivity.
Qed.

(** X14.  For a habit that is scheduled every day, [calculateStreak]
    returns, and the streak it returns is positive exactly when today or
    yesterday is completed. *)
Theorem streak_positive_iff_today_or_yesterday :
  forall (clock : Clock) (completedDates : list DateStr) (habit : Habit),
    everyDayFrequency habit = true ->
    let todayStr := formatDate (tzOffset clock) (todayOf clock) in
    exists s : Z,
      calculateStreak clock completedDates habit = Some s /\
      ((0 < s)%Z <->
       In todayStr completedDates \/ In (todayStr - 1)%Z completedDates).
Proof.
  intros clock dates h He. cbv zeta. unfold formatDate.
  destruct (calculateStreak_total clock dates h) as [s H]. exists s.
  split; [exact H|].
  assert (Sch : forall d, isDayScheduled (tzOffset clock) d h = true)
    by (intro d; now apply everyDay_scheduled).
  destruct (has dates (localDay (tzOffset clock) (todayOf clock))) eqn:Et.
  - rewrite (calculateStreak_from_today clock h dates Et) in H.
    rewrite streakFuel_succ in H.
    rewrite (streakLoop_round_hit clock h 399 dates (todayOf clock) 0 0) in H;
      [| lia | apply Sch | now rewrite Z.sub_0_r].
    apply (streakLoop_bounds clock h 399 dates (todayOf clock) (0 + 1)) in H; [|lia].
    split; [intros _; left; now apply has_In_iff | intros _; lia].
  - rewrite (calculateStreak_from_yesterday clock h dates Et (Sch _)) in H.
    rewrite streakFuel_succ in H.
    destruct (has dates (localDay (tzOffset clock) (todayOf clock) - 1)) eqn:Ey.
    + rewrite (streakLoop_round_hit clock h 399 dates (todayOf clock) 1 0) in H;
        [| lia | apply Sch | exact Ey].
      apply (streakLoop_bounds clock h 399 dates (todayOf clock) (1 + 1)) in H; [|lia].
      split; [intros _; right; now apply has_In_iff | intros _; lia].
    + rewrite (streakLoop_round_miss clock h 399 dates (todayOf clock) 1 0) in H;
        [| lia | apply Sch | exact Ey].
      injection H as <-. split; [intros X; inversion X|].
      intros [X|X]; apply has_In_iff in X.
      * rewrite Et in X. discriminate X.
      * rewrite Ey in X. discriminate X.
Qed.

(* ================================================================== *)
(** * The streak in a zone whose offset changes *)
(* ================================================================== *)

Section ZonedFacts.
Local Open Scope Z_scope.
Variable z : Zoned.Zone.

(** Every local midnight is read back as the instant it came from. *)
Hypothesis midnights_exist : forall d,
  Zoned.offsetAt z (Zoned.utc z (d * msPerDay)) = Zoned.offsetOf z (d * msPerDay).

(** The offsets at any two local midnights differ by less than a day. *)
Hypothesis offsets_close : forall d d',
  - msPerDay < Zoned.offsetOf z (d * msPerDay) - Zoned.offsetOf z (d' * msPerDay)
    < msPerDay.

Lemma zoned_localTime_midnight d :
  Zoned.localTime z (Zoned.utc z (d * msPerDay)) = d * msPerDay.
Proof. unfold Zoned.localTime. rewrite midnights_exist. unfold Zoned.utc. lia. Qed.

Lemma zoned_localDay_midnight d : Zoned.localDay z (Zoned.utc z (d * msPerDay)) = d.
Proof.
  unfold Zoned.localDay. rewrite zoned_localTime_midnight.
  apply Z.div_mul. discriminate.
Qed.

Lemma zoned_addDays_midnight d k :
  Zoned.addDays z (Zoned.utc z (d * msPerDay)) k = Zoned.utc z ((d + k) * msPerDay).
Proof.
  unfold Zoned.addDays. rewrite zoned_localTime_midnight. f_equal. lia.
Qed.

(** The whole days between two local midnights: one less than the number
    of calendar days when the offset of the earlier one is the smaller. *)
Lemma zoned_daysDiff L k :
  (Zoned.utc z (L * msPerDay) - Zoned.utc z ((L - k) * msPerDay)) / msPerDay
  = k + (if Zoned.offsetOf z ((L - k) * msPerDay) <? Zoned.offsetOf z (L * msPerDay)
         then -1 else 0).
Proof.
  unfold Zoned.utc. pose proof (offsets_close (L - k) L) as C.
  remember (Zoned.offsetOf z ((L - k) * msPerDay)) as o' eqn:E'.
  remember (Zoned.offsetOf z (L * msPerDay)) as o eqn:E.
  pose proof msPerDay_pos as P.
  destruct (Z.ltb_spec o' o).
  - symmetry. apply Z.div_unique with (r := msPerDay + o' - o); lia.
  - symmetry. apply Z.div_unique with (r := o' - o); lia.
Qed.

Variable habit : Habit.

(** One round of the backward walk, on the local midnight [j] days before
    the day [L]. *)
Lemma zoned_streakLoop_round fuel set L j s :
  Zoned.streakLoop z habit (S fuel) set (Zoned.utc z (L * msPerDay))
    (Zoned.utc z ((L - j) * msPerDay)) s
  = let isScheduled := Zoned.isDayScheduled z (Zoned.utc z ((L - j) * msPerDay)) habit in
    if isScheduled && negb (has set (L - j)) then Some s
    else
      let s' := if isScheduled then s + 1 else s in
      if 365 <? j + 1 + (if Zoned.offsetOf z ((L - (j + 1)) * msPerDay)
                            <? Zoned.offsetOf z (L * msPerDay) then -1 else 0)
      then Some s'
      else Zoned.streakLoop z habit fuel set (Zoned.utc z (L * msPerDay))
             (Zoned.utc z ((L - (j + 1)) * msPerDay)) s'.
Proof.
  cbn [Zoned.streakLoop]. unfold Zoned.formatDate.
  rewrite zoned_localDay_midnight, zoned_addDays_midnight.
  replace (L - j + -1) with (L - (j + 1)) by lia.
  rewrite zoned_daysDiff. reflexivity.
Qed.

Lemma zoned_streakLoop_bounds set L : forall fuel j s,
  0 <= j <= 366 -> 367 <= j + Z.of_nat fuel ->
  exists r,
    Zoned.streakLoop z habit fuel set (Zoned.utc z (L * msPerDay))
      (Zoned.utc z ((L - j) * msPerDay)) s = Some r /\
    s <= r <= s + (367 - j).
Proof.
  induction fuel as [|fuel IH]; intros j s Hj Hf; [lia|].
  rewrite zoned_streakLoop_round. cbv zeta.
  destruct (_ && _); [exists s; split; [reflexivity|lia]|].
  remember (if Zoned.isDayScheduled z (Zoned.utc z ((L - j) * msPerDay)) habit
            then s + 1 else s) as s' eqn:Es.
  assert (Hs : s <= s' <= s + 1) by (subst s'; destruct (Zoned.isDayScheduled _ _ _); lia).
  remember (if Zoned.offsetOf z ((L - (j + 1)) * msPerDay)
               <? Zoned.offsetOf z (L * msPerDay) then -1 else 0) as c eqn:Ec.
  assert (Hc : -1 <= c <= 0) by (subst c; destruct (_ <? _); lia).
  destruct (Z.ltb_spec 365 (j + 1 + c)).
  - exists s'. split; [reflexivity|lia].
  - destruct (IH (j + 1) s') as [r [Hr Br]]; [lia|lia|].
    exists r. split; [exact Hr|lia].
Qed.

(** A year of completed scheduled days: the walk counts 366 of them, and
    one more when the offset 366 days ago was smaller than today's. *)
Lemma zoned_streakLoop_all_hit set L n :
  (forall d, Zoned.isDayScheduled z d habit = true) ->
  (forall j, 0 <= j <= 366 -> has set (L - j) = true) ->
  n = (if Zoned.offsetOf z ((L - 366) * msPerDay)
          <? Zoned.offsetOf z (L * msPerDay) then 367 else 366) ->
  forall fuel j s,
    0 <= j < n -> 367 <= j + Z.of_nat fuel ->
    Zoned.streakLoop z habit fuel set (Zoned.utc z (L * msPerDay))
      (Zoned.utc z ((L - j) * msPerDay)) s = Some (s + (n - j)).
Proof.
  intros Sch All En.
  assert (Hn : 366 <= n <= 367) by (subst n; destruct (_ <? _); lia).
  induction fuel as [|fuel IH]; intros j s Hj Hf; [lia|].
  rewrite zoned_streakLoop_round. cbv zeta.
  rewrite Sch, All by lia. cbn [negb andb].
  destruct (Z.eq_dec (j + 1) 366) as [E|E].
  - rewrite E. revert En.
    destruct (Zoned.offsetOf z ((L - 366) * msPerDay) <? Zoned.offsetOf z (L * msPerDay));
      intros En.
    + replace (366 + -1) with 365 by lia.
      destruct (Z.ltb_spec 365 365); [lia|].
      rewrite IH by lia. f_equal. lia.
    + replace (366 + 0) with 366 by lia.
      destruct (Z.ltb_spec 365 366); [|lia]. f_equal. lia.
  - remember (if Zoned.offsetOf z ((L - (j + 1)) * msPerDay)
                 <? Zoned.offsetOf z (L * msPerDay) then -1 else 0) as c eqn:Ec.
    assert (Hc : -1 <= c <= 0)
      by (subst c; destruct (Zoned.offsetOf z ((L - (j + 1)) * msPerDay) <? _); lia).
    destruct (Z.ltb_spec 365 (j + 1 + c)).
    + f_equal. lia.
    + rewrite IH by lia. f_equal. lia.
Qed.

End ZonedFacts.

Section ZonedEveryDay.
Local Open Scope Z_scope.

Lemma zoned_everyDay_scheduled z d h :
  everyDayFrequency h = true -> Zoned.isDayScheduled z d h = true.
Proof.
  unfold everyDayFrequency, Zoned.isDayScheduled.
  destruct (frequency h) as [[| | | |]|]; intros H; try reflexivity; discriminate H.
Qed.

(** With one offset at every instant the walk of [Zoned] is the walk of
    the engine. *)
Lemma zoned_fixed_isDayScheduled tz d h :
  Zoned.isDayScheduled (Zoned.fixed tz) d h = isDayScheduled tz d h.
Proof. reflexivity. Qed.

Lemma zoned_fixed_addDays tz t k : Zoned.addDays (Zoned.fixed tz) t k = addDays t k.
Proof. unfold Zoned.addDays, Zoned.utc, Zoned.localTime, addDays. cbn. lia. Qed.

Lemma zoned_fixed_streakLoop tz nowMs h fuel : forall set today cur s,
  Zoned.streakLoop (Zoned.fixed tz) h fuel set today cur s
  = streakLoop (mkClock nowMs tz) h fuel set today cur s.
Proof.
  induction fuel as [|fuel IH]; intros set today cur s; [reflexivity|].
  cbn [Zoned.streakLoop streakLoop]. rewrite zoned_fixed_addDays, IH. reflexivity.
Qed.

Lemma zoned_fixed_calculateStreak tz nowMs dates h :
  Zoned.calculateStreak (Zoned.fixed tz) nowMs dates h
  = calculateStreak (mkClock nowMs tz) dates h.
Proof.
  unfold Zoned.calculateStreak, calculateStreak. destruct dates as [|a l]; [reflexivity|].
  cbv zeta. rewrite zoned_fixed_addDays. apply zoned_fixed_streakLoop.
Qed.

End ZonedEveryDay.

(** X13.  In a zone where every local midnight exists and the offsets at
    local midnights differ by less than a day, [calculateStreak] always
    returns, a number between 0 and 367: the one-year guard ends the
    walk.  For a habit scheduled every day whose last 367 days are all
    completed it returns 366, or 367 when the offset from UTC was smaller
    366 days ago than it is today (the whole days the guard counts are
    then one short). *)
Theorem calculateStreak_at_most_367 :
  forall (z : Zoned.Zone) (nowMs : Z) (completedDates : list DateStr)
         (habit : Habit),
    (forall d : Z,
       Zoned.offsetAt z (Zoned.utc z (d * msPerDay))
       = Zoned.offsetOf z (d * msPerDay))%Z ->
    (forall d d' : Z,
       - msPerDay
       < Zoned.offsetOf z (d * msPerDay) - Zoned.offsetOf z (d' * msPerDay)
       < msPerDay)%Z ->
    let today := Zoned.formatDate z nowMs in
    exists s : Z,
      Zoned.calculateStreak z nowMs completedDates habit = Some s /\
      (0 <= s <= 367)%Z /\
      (everyDayFrequency habit = true ->
       (forall j : Z, (0 <= j <= 366)%Z -> In (today - j)%Z completedDates) ->
       s = if (Zoned.offsetOf z ((today - 366) * msPerDay)
               <? Zoned.offsetOf z (today * msPerDay))%Z
           then 367%Z else 366%Z).
Proof.
  intros z nowMs dates h Hm Hc. cbv zeta. unfold Zoned.formatDate.
  remember (Zoned.localDay z nowMs) as L eqn:EL.
  unfold Zoned.calculateStreak.
  assert (Hfuel : (367 <= Z.of_nat streakFuel)%Z) by (unfold streakFuel; lia).
  remember streakFuel as fuel eqn:Efuel. clear Efuel.
  destruct dates as [|a l].
  - exists 0%Z. split; [reflexivity|]. split; [lia|].
    intros _ All. destruct (All 0%Z ltac:(lia)).
  - cbv zeta. unfold Zoned.setHours0. rewrite <- EL.
    unfold Zoned.formatDate. rewrite (zoned_localDay_midnight z Hm).
    rewrite (zoned_addDays_midnight z Hm).
    remember (rev (sortDates (a :: l))) as set eqn:Eset.
    assert (Hset : forall d, has set d = has (a :: l) d)
      by (intros d; subst set; now rewrite has_rev, has_sortDates).
    destruct (negb (has set L) && Zoned.isDayScheduled z (Zoned.utc z (L * msPerDay)) h) eqn:Eg.
    + replace (L + -1)%Z with (L - 1)%Z by lia.
      destruct (zoned_streakLoop_bounds z Hm Hc h set L fuel 1 0)
        as [r [Hr Br]]; [lia|lia|].
      exists r. split; [exact Hr|]. split; [lia|].
      intros He All. exfalso.
      specialize (All 0%Z ltac:(lia)). rewrite Z.sub_0_r in All.
      apply has_In_iff in All. rewrite <- Hset in All. rewrite All in Eg. discriminate Eg.
    + destruct (zoned_streakLoop_bounds z Hm Hc h set L fuel 0 0)
        as [r [Hr Br]]; [lia|lia|].
      exists r. split; [now rewrite Z.sub_0_r in Hr|]. split; [lia|].
      intros He All.
      rewrite (zoned_streakLoop_all_hit z Hm Hc h set L _
                 (fun d => zoned_everyDay_scheduled z d h He)
                 (fun j Hj => eq_trans (Hset _) (proj2 (has_In_iff _ _) (All j Hj)))
                 eq_refl fuel 0 0) in Hr.
      * injection Hr as <-. destruct (_ <? _)%Z; reflexivity.
      * destruct (_ <? _)%Z; lia.
      * lia.
Qed.

(* ================================================================== *)
(** * Weeks and date helpers *)
(* ================================================================== *)

Section WeeklyCompletions.
Local Open Scope Z_scope.

Lemma weeklyLoop_hits tz set weekStart n : forall (a : nat) count,
  weeklyLoop tz set weekStart n (Z.of_nat a) count
  = count + Z.of_nat (hits set (map (fun i => localDay tz weekStart + Z.of_nat i) (seq a n))).
Proof.
  induction n as [|n IH]; intros a count; cbn [weeklyLoop seq map].
  - unfold hits. cbn. lia.
  - replace (Z.of_nat a + 1) with (Z.of_nat (S a)) by lia. rewrite IH.
    unfold hits, formatDate. cbn [filter]. rewrite localDay_addDays.
    destruct (has set _); cbn [length]; lia.
Qed.

Lemma hits_le_days set days : (hits set days <= length days)%nat.
Proof. unfold hits. apply filter_length_le. Qed.

Lemma hits_all set days :
  hits set days = length days <-> (forall d, In d days -> has set d = true).
Proof.
  unfold hits. induction days as [|x l IH]; cbn [filter length In].
  - split; [intros _ d []|reflexivity].
  - pose proof (filter_length_le (has set) l) as B.
    destruct (has set x) eqn:E; cbn [length].
    + split.
      * intros H d [<-|Hd]; [assumption|]. apply IH; [lia|assumption].
      * intros H. f_equal. apply IH. intros d Hd. apply H. now right.
    + split; [lia|]. intros H. specialize (H x (or_introl eq_refl)). congruence.
Qed.

(** X15.  [getWeeklyCompletions] returns the number of the seven days from
    [weekStart] on that are in the completion list; it is between 0 and
    7, never more than the length of the list, and 7 exactly when all
    seven days are completed. *)
Theorem getWeeklyCompletions_counts_days :
  forall (tz : Z) (completedDates : list DateStr) (weekStart : Z),
    let week := map (fun i => localDay tz weekStart + Z.of_nat i) (seq 0 7) in
    getWeeklyCompletions tz completedDates weekStart
      = Z.of_nat (length (filter (fun d => has completedDates d) week)) /\
    0 <= getWeeklyCompletions tz completedDates weekStart <= 7 /\
    getWeeklyCompletions tz completedDates weekStart
      <= Z.of_nat (length completedDates) /\
    (getWeeklyCompletions tz completedDates weekStart = 7 <->
     forall d, In d week -> In d completedDates).
Proof.
  intros tz dates weekStart week.
  assert (E : getWeeklyCompletions tz dates weekStart = Z.of_nat (hits dates week)).
  { unfold getWeeklyCompletions. cbv zeta.
    pose proof (weeklyLoop_hits tz dates weekStart 7 0 0) as W.
    cbn [Z.of_nat] in W. rewrite W. cbn [Z.add]. reflexivity. }
  pose proof (hits_le_days dates week) as B.
  pose proof (hits_le_length dates week (NoDup_days_forth _ 7)) as T.
  assert (Lw : length week = 7%nat) by reflexivity.
  rewrite E. repeat split; try lia.
  - intros H d Hd. apply has_In_iff. apply (proj1 (hits_all dates week)); [lia|assumption].
  - intros H. assert (X : hits dates week = length week).
    { apply hits_all. intros d Hd. apply has_In_iff. now apply H. }
    lia.
Qed.

End WeeklyCompletions.

Section UtilsDates.
Local Open Scope Z_scope.

Lemma localDay_parseDate tz s : localDay tz (parseDate tz s) = s.
Proof.
  unfold parseDate, localDay. replace (s * msPerDay - tz + tz) with (s * msPerDay) by lia.
  apply Z.div_mul. discriminate.
Qed.

Lemma localDay_parseISODate tz s :
  localDay tz (parseISODate s) = s + tz / msPerDay.
Proof.
  unfold parseISODate, localDay. rewrite Z.add_comm.
  rewrite Z.div_add by discriminate. lia.
Qed.


(** X17.  On date strings, [isPast], [isToday] and [isFuture] compare the date
    with today's date: exactly one of them holds.  On a [Date] that lies
    later on today than midnight, both [isToday] and [isFuture] hold. *)
Theorem past_today_future :
  forall (clock : Clock),
    (forall s : DateStr,
       let todayStr := formatDate (tzOffset clock) (getToday clock) in
       isPast clock (AString s) = (s <? todayStr) /\
       isToday clock (AString s) = (s =? todayStr) /\
       isFuture clock (AString s) = (todayStr <? s)) /\
    (forall t : Z,
       getToday clock < t < addDays (getToday clock) 1 ->
       isToday clock (ADate t) = true /\ isFuture clock (ADate t) = true).
Proof.
  intros clock. pose proof msPerDay_pos as P. split.
  - intros s todayStr.
    unfold isPast, isToday, isFuture, isSameDay, asDate. cbv zeta.
    unfold formatDate in *. rewrite localDay_parseDate. fold todayStr.
    assert (T : getToday clock = parseDate (tzOffset clock) todayStr).
    { unfold getToday, todayOf, setHours0, parseDate. subst todayStr.
      unfold getToday. now rewrite todayOf_localDay. }
    rewrite T. unfold parseDate.
    repeat split.
    + destruct (Z.ltb_spec s todayStr), (Z.ltb_spec (s * msPerDay - tzOffset clock)
         (todayStr * msPerDay - tzOffset clock)); try reflexivity; nia.
    + destruct (Z.ltb_spec todayStr s), (Z.ltb_spec (todayStr * msPerDay - tzOffset clock)
         (s * msPerDay - tzOffset clock)); try reflexivity; nia.
  - intros t [H1 H2]. unfold isToday, isFuture, isSameDay, asDate. cbv zeta.
    split; [|apply Z.ltb_lt; assumption].
    apply Z.eqb_eq. unfold formatDate, getToday in *.
    rewrite todayOf_localDay. unfold todayOf, setHours0, addDays in *.
    set (L := localDay (tzOffset clock) (now clock)) in *.
    unfold localDay. symmetry.
    apply Z.div_unique with (r := t + tzOffset clock - L * msPerDay); lia.
Qed.

Lemma getWeekStart_day tz date startDay :
  0 <= startDay <= 6 ->
  localDay tz (getWeekStart tz date startDay)
  = localDay tz date - (getDay tz date - startDay) mod 7.
Proof.
  intros Hs. unfold getWeekStart. cbv zeta.
  rewrite localDay_setHours0, localDay_addDays.
  pose proof (getDay_range tz date) as R.
  rewrite Z.rem_mod_nonneg by lia.
  replace (getDay tz date - startDay + 7) with (getDay tz date - startDay + 1 * 7) by lia.
  rewrite Z_mod_plus_full. lia.
Qed.

Lemma getWeekDates_eq w : getWeekDates w = map (fun i => addDays w (Z.of_nat i)) (seq 0 7).
Proof. reflexivity. Qed.

(** X18.  For a start day between 0 and 6, [getWeekStart] returns a local
    midnight whose weekday is the start day, at most six days before the
    given date; it is idempotent, and the seven dates of [getWeekDates]
    from it include the day of the given date. *)
Theorem getWeekStart_starts_the_week :
  forall (tz date startDay : Z),
    0 <= startDay <= 6 ->
    let weekStart := getWeekStart tz date startDay in
    setHours0 tz weekStart = weekStart /\
    getDay tz weekStart = startDay /\
    localDay tz weekStart <= localDay tz date < localDay tz weekStart + 7 /\
    getWeekStart tz weekStart startDay = weekStart /\
    length (getWeekDates weekStart) = 7%nat /\
    In (formatDate tz date) (map (formatDate tz) (getWeekDates weekStart)).
Proof.
  intros tz date startDay Hs weekStart.
  pose proof (getWeekStart_day tz date startDay Hs) as D. fold weekStart in D.
  pose proof (Z.mod_pos_bound (getDay tz date - startDay) 7 ltac:(lia)) as M.
  assert (Mid : setHours0 tz weekStart = weekStart).
  { subst weekStart. unfold getWeekStart. cbv zeta.
    unfold setHours0 at 1. now rewrite localDay_setHours0. }
  assert (G : getDay tz weekStart = startDay).
  { unfold getDay at 1. rewrite D. unfold getDay.
    set (x := localDay tz date + 4).
    replace (localDay tz date - (x mod 7 - startDay) mod 7 + 4)
      with (x - (x mod 7 - startDay) mod 7) by (subst x; lia).
    rewrite Zminus_mod, Z.mod_mod, <- Zminus_mod by lia.
    replace (x - (x mod 7 - startDay)) with (startDay + (x / 7) * 7)
      by (pose proof (Z.div_mod x 7); lia).
    rewrite Z_mod_plus_full. apply Z.mod_small. lia. }
  repeat split; try assumption; try lia.
  - unfold getWeekStart. cbv zeta. rewrite G.
    replace (startDay - startDay + 7) with 7 by lia. cbn [Z.rem Z.quotrem]. 
    replace (addDays weekStart (- Z.rem 7 7)) with weekStart; [assumption|].
    unfold addDays. cbn. lia.
  - rewrite getWeekDates_eq, map_map. apply in_map_iff.
    exists (Z.to_nat ((getDay tz date - startDay) mod 7)). split.
    + unfold formatDate. rewrite localDay_addDays. lia.
    + apply in_seq. lia.
Qed.

End UtilsDates.

(* ================================================================== *)
(** * Display and navigation *)
(* ================================================================== *)

Section Clamp.

Lemma mathMax_NaN a b : mathMax a b = NaN <-> a = NaN \/ b = NaN.
Proof.
  destruct a, b; cbn [mathMax]; split; intros H;
    try (destruct H as [H|H]); try discriminate H; auto.
Qed.

Lemma mathMin_NaN a b : mathMin a b = NaN <-> a = NaN \/ b = NaN.
Proof.
  destruct a, b; cbn [mathMin]; split; intros H;
    try (destruct H as [H|H]); try discriminate H; auto.
Qed.

Lemma leNumber_max_r a b : a <> NaN -> b <> NaN -> leNumber b (mathMax a b).
Proof.
  destruct a, b; cbn [mathMax leNumber]; intros Ha Hb;
    try exact I; try (now elim Ha); try (now elim Hb);
    try apply Qle_refl; apply Q.le_max_r.
Qed.

Lemma leNumber_min_glb c a b :
  leNumber c a -> leNumber c b -> leNumber c (mathMin a b).
Proof.
  destruct c, a, b; cbn [mathMin leNumber]; intros Ha Hb;
    try exact I; try contradiction; try assumption;
    now apply Q.min_glb.
Qed.

Lemma leNumber_min_r a b : a <> NaN -> b <> NaN -> leNumber (mathMin a b) b.
Proof.
  destruct a, b; cbn [mathMin leNumber]; intros Ha Hb;
    try exact I; try (now elim Ha); try (now elim Hb);
    try apply Qle_refl; apply Q.le_min_r.
Qed.

Lemma leNumber_not_NaN a b : leNumber a b -> a <> NaN /\ b <> NaN.
Proof. destruct a, b; cbn [leNumber]; intros H; try contradiction; split; discriminate. Qed.

Lemma mathMax_l a b : leNumber b a -> sameNumber (mathMax a b) a.
Proof.
  destruct a, b; cbn [mathMax leNumber sameNumber]; intros H;
    try exact I; try contradiction; try reflexivity;
    now apply Q.max_l.
Qed.

Lemma mathMin_l a a' b : sameNumber a' a -> leNumber a b -> sameNumber (mathMin a' b) a.
Proof.
  destruct a, a', b; cbn [mathMin leNumber sameNumber]; intros S H;
    try exact I; try contradiction; try assumption;
    rewrite S; now apply Q.min_l.
Qed.

Lemma mathMin_r a b : leNumber b a -> sameNumber (mathMin a b) b.
Proof.
  destruct a, b; cbn [mathMin leNumber sameNumber]; intros H;
    try exact I; try contradiction; try reflexivity;
    now apply Q.min_r.
Qed.

Lemma leNumber_trans a b c : leNumber a b -> leNumber b c -> leNumber a c.
Proof.
  destruct a, b, c; cbn [leNumber]; intros H1 H2;
    try exact I; try contradiction;
    now apply Qle_trans with q0.
Qed.

End Clamp.

(** X19.  [clamp] returns [NaN] exactly when one of its three arguments is
    [NaN].  Otherwise it returns a value between [min] and [max] when
    [min <= max], the number itself when it already lies between them,
    and [max] when [max < min]. *)
Theorem clamp_bounds :
  forall num min max : JSNumber,
    (clamp num min max = NaN <-> num = NaN \/ min = NaN \/ max = NaN) /\
    (num <> NaN -> leNumber min max ->
       leNumber min (clamp num min max) /\ leNumber (clamp num min max) max) /\
    (leNumber min num -> leNumber num max -> sameNumber (clamp num min max) num) /\
    (num <> NaN -> ltNumber max min -> sameNumber (clamp num min max) max).
Proof.
  intros num lo hi. unfold clamp. split; [|split; [|split]].
  - rewrite mathMin_NaN, mathMax_NaN. tauto.
  - intros N L. destruct (leNumber_not_NaN _ _ L) as [Nl Nh].
    assert (Nm : mathMax num lo <> NaN) by (rewrite mathMax_NaN; tauto).
    split.
    + apply leNumber_min_glb; [now apply leNumber_max_r|assumption].
    + now apply leNumber_min_r.
  - intros L1 L2. apply mathMin_l; [now apply mathMax_l|assumption].
  - intros N [L1 L2]. destruct (leNumber_not_NaN _ _ L1) as [Nh Nl].
    apply mathMin_r. apply leNumber_trans with lo; [assumption|].
    now apply leNumber_max_r.
Qed.

Section Navigation.
Local Open Scope Z_scope.

Lemma not_midnight_mod tz t :
  setHours0 tz t <> t <-> (t + tz) mod msPerDay <> 0.
Proof.
  unfold setHours0, localDay. pose proof (Z.div_mod (t + tz) msPerDay ltac:(discriminate)) as D.
  split; intros H X; apply H; lia.
Qed.

(** X20.  When the shown date does not lie on a local midnight (it starts as
    [new Date()], the instant the page was loaded), [navigateDate] either
    refuses the move or moves to a date whose day lies strictly before
    today: once another day is shown, today cannot be reached again. *)
Theorem navigateDate_never_returns_to_today :
  forall (clock : Clock) (currentDate direction : Z),
    setHours0 (tzOffset clock) currentDate <> currentDate ->
    let shown := navigateDate clock currentDate direction in
    shown = currentDate \/
    (shown = addDays currentDate direction /\
     formatDate (tzOffset clock) shown
       < formatDate (tzOffset clock) (getToday clock)).
Proof.
  intros clock cur dir Hm. cbv zeta. pose proof msPerDay_pos as P.
  unfold navigateDate, getToday. cbv zeta.
  destruct (Z.ltb_spec (todayOf clock) (addDays cur dir)) as [Hlt|Hle];
    [now left|right]. split; [reflexivity|].
  unfold formatDate. rewrite todayOf_localDay.
  apply not_midnight_mod in Hm.
  assert (Hn : (addDays cur dir + tzOffset clock) mod msPerDay <> 0).
  { unfold addDays.
    replace (cur + dir * msPerDay + tzOffset clock)
      with (cur + tzOffset clock + dir * msPerDay) by lia.
    now rewrite Z_mod_plus_full. }
  unfold todayOf, setHours0 in Hle. unfold localDay at 1.
  remember (localDay (tzOffset clock) (now clock)) as L eqn:EL.
  remember (addDays cur dir + tzOffset clock) as x eqn:Ex.
  assert (Hx : x <> L * msPerDay).
  { intros X. apply Hn. rewrite X. apply Z_mod_mult. }
  apply Z.div_lt_upper_bound; [assumption|]. lia.
Qed.

End Navigation.

Section Percent.
Import Binary64 Binary64Facts.

Lemma round64_100 : round64 100 == 100.
Proof. vm_compute. reflexivity. Qed.

Lemma strengthPercent_range s : 0 <= s <= 1 -> (0 <= strengthPercent s <= 100)%Z.
Proof.
  intros [H0 H1]. unfold strengthPercent, mathRound, fmul.
  assert (A : 0 <= round64 (s * 100)) by (apply round64_nonneg; lra).
  assert (B : round64 (s * 100) <= 100)
    by (apply round64_le_fixed; [exact round64_100|lra]).
  split.
  - rewrite <- (Qfloor_Z 0). apply Qfloor_resp_le. change (inject_Z 0) with 0. lra.
  - apply Z.lt_succ_r. apply Z.lt_nge. intro X.
    assert (Y : (101 <= Qfloor (round64 (s * 100) + (1 # 2)))%Z) by lia.
    rewrite Zle_Qle in Y. pose proof (Qfloor_le (round64 (s * 100) + (1 # 2))).
    change (inject_Z 101) with 101 in Y. lra.
Qed.

End Percent.

(** X21.  The strength a card shows, [Math.round(stats.score * 100)], is an
    integer between 0 and 100. *)
Theorem strength_shown_is_a_percentage :
  forall (clock : Clock) (completedDates : list DateStr) (habit : Habit),
    exists stats : HabitStats,
      getHabitStats clock completedDates habit = Some stats /\
      (0 <= strengthPercent (statScore stats) <= 100)%Z.
Proof.
  intros clock dates h.
  destruct (calculateStreak_total clock dates h) as [cs Hcs].
  destruct (calculateBestStreak_total clock dates h) as [bs Hbs].
  unfold getHabitStats. rewrite Hcs, Hbs. cbn [bindFuel].
  eexists. split; [reflexivity|]. cbn [statScore].
  apply strengthPercent_range. unfold calculateHabitScore.
  apply scoreWalk_range. lra.
Qed.

(* ================================================================== *)
(** * Toggling a completion *)
(* ================================================================== *)

Section Toggle.
Local Open Scope Z_scope.

Lemma has_app l1 l2 x : has (l1 ++ l2) x = has l1 x || has l2 x.
Proof. unfold has. apply existsb_app. Qed.

Lemma has_filter_neq l date x :
  has (filter (fun d => negb (d =? date)) l) x = negb (x =? date) && has l x.
Proof.
  unfold has. induction l as [|y r IH]; cbn [filter existsb].
  - now rewrite andb_false_r.
  - destruct (Z.eqb_spec y date) as [Hy|Hy]; cbn [negb existsb]; rewrite IH;
      destruct (Z.eqb_spec x date) as [Hx|Hx]; cbn [negb andb orb];
      try reflexivity.
    + destruct (Z.eqb_spec x y); [congruence|reflexivity].
    + destruct (Z.eqb_spec x y); [congruence|reflexivity].
Qed.

Lemma filter_neq_absent l date :
  ~ In date l -> filter (fun d => negb (d =? date)) l = l.
Proof.
  induction l as [|y r IH]; intros H; cbn [filter]; [reflexivity|].
  destruct (Z.eqb_spec y date) as [->|Hy]; cbn [negb].
  - exfalso. apply H. now left.
  - f_equal. apply IH. intros X. apply H. now right.
Qed.

Lemma has_updateCompletions l date b x :
  has (updateCompletions l date b) x = if x =? date then b else has l x.
Proof.
  unfold updateCompletions, includes. fold (has l date).
  destruct b.
  - destruct (has l date) eqn:E; cbn [negb].
    + destruct (Z.eqb_spec x date) as [->|]; [assumption|reflexivity].
    + rewrite has_app. cbn [has existsb]. rewrite orb_false_r.
      destruct (Z.eqb_spec x date) as [->|]; [now rewrite orb_true_r|now rewrite orb_false_r].
  - rewrite has_filter_neq. destruct (x =? date); reflexivity.
Qed.

Lemma has_false_not_In l x : ~ In x l -> has l x = false.
Proof.
  intros H. destruct (has l x) eqn:E; [|reflexivity].
  apply has_In_iff in E. contradiction.
Qed.

Lemma updateCompletions_length_new l date :
  ~ In date l -> length (updateCompletions l date true) = S (length l).
Proof.
  intros H. unfold updateCompletions, includes. fold (has l date).
  rewrite (has_false_not_In l date H). cbn [negb].
  rewrite length_app. cbn [length]. lia.
Qed.

End Toggle.

(** X22.  After [toggleHabitCompletion] has updated the list of a habit, the
    toggled date is in the list exactly when the store answered that it
    is now completed, and the membership of every other date is
    unchanged; a list without repetitions stays without repetitions. *)
Theorem updateCompletions_sets_membership :
  forall (completions : list DateStr) (date : DateStr) (isNowCompleted : bool),
    (forall d : DateStr,
       In d (updateCompletions completions date isNowCompleted) <->
       (if (d =? date)%Z then isNowCompleted = true else In d completions)) /\
    (NoDup completions ->
     NoDup (updateCompletions completions date isNowCompleted)).
Proof.
  intros l date b. split.
  - intros d. rewrite <- has_In_iff, has_updateCompletions.
    destruct (d =? date)%Z; [reflexivity|apply has_In_iff].
  - intros N. unfold updateCompletions, includes. fold (has l date). destruct b.
    + destruct (has l date) eqn:E; cbn [negb]; [assumption|].
      apply NoDup_app; [assumption|repeat constructor; intros []|].
      intros x Hx [<-|[]]. apply has_In_iff in Hx. congruence.
    + now apply NoDup_filter.
Qed.

(** X23.  Ticking a date that is not in the list lengthens the list by one, and
    unticking it again gives back the list as it was. *)
Theorem updateCompletions_round_trip :
  forall (completions : list DateStr) (date : DateStr),
    ~ In date completions ->
    updateCompletions (updateCompletions completions date true) date false
      = completions /\
    length (updateCompletions completions date true)
      = S (length completions).
Proof.
  intros l date H. split; [|now apply updateCompletions_length_new].
  unfold updateCompletions, includes. fold (has l date).
  rewrite (has_false_not_In l date H). cbn [negb].
  rewrite filter_app. cbn [filter]. rewrite Z.eqb_refl. cbn [negb].
  rewrite app_nil_r. now apply filter_neq_absent.
Qed.

(** X24.  Ticking today, for a habit scheduled today and not yet completed
    today, raises the current streak by exactly one and the total by
    one: the day in progress does not break the streak, and completing
    it extends it. *)
Theorem ticking_today_extends_the_streak :
  forall (clock : Clock) (completions : list DateStr) (habit : Habit),
    let todayStr := formatDate (tzOffset clock) (todayOf clock) in
    isDayScheduled (tzOffset clock) (todayOf clock) habit = true ->
    ~ In todayStr completions ->
    exists s : Z,
      calculateStreak clock completions habit = Some s /\
      calculateStreak clock (updateCompletions completions todayStr true) habit
        = Some (s + 1)%Z /\
      calculateTotal (updateCompletions completions todayStr true)
        = (calculateTotal completions + 1)%Z.
Proof.
  intros clock l h todayStr Hs Hn.
  destruct (calculateStreak_cons_today clock l h Hs Hn) as [s [H1 H2]].
  exists s. split; [assumption|]. split.
  - rewrite <- H2. apply calculateStreak_congr; [reflexivity|].
    intros d. rewrite has_updateCompletions. fold todayStr. cbn [has existsb].
    destruct (d =? todayStr)%Z; reflexivity.
  - unfold calculateTotal.
    rewrite (updateCompletions_length_new l todayStr Hn). lia.
Qed.

(* ================================================================== *)
(** * Weekday chart and export *)
(* ================================================================== *)

Section WeeklyBuckets.
Local Open Scope Z_scope.

Lemma increment_length w i : length (increment w i) = length w.
Proof.
  revert i. induction w as [|x r IH]; intros [|i]; cbn [increment length];
    try reflexivity. now rewrite IH.
Qed.

Lemma increment_nth w : forall i k, (i < length w)%nat ->
  nth k (increment w i) 0 = nth k w 0 + (if (k =? i)%nat then 1 else 0).
Proof.
  induction w as [|x r IH]; intros i k Hi; cbn [length] in Hi; [lia|].
  destruct i as [|i], k as [|k]; cbn [increment nth Nat.eqb]; try lia.
  apply IH. lia.
Qed.

Lemma increment_sum w : forall i, (i < length w)%nat ->
  sumZ (increment w i) = sumZ w + 1.
Proof.
  unfold sumZ. induction w as [|x r IH]; intros i Hi; cbn [length] in Hi; [lia|].
  destruct i as [|i]; cbn [increment fold_right]; [lia|].
  rewrite IH by lia. lia.
Qed.

Lemma weeklyFold tz completions : forall w,
  length w = 7%nat ->
  let step := fun weeklyData completion =>
                increment weeklyData (Z.to_nat (getDay tz (parseISODate completion))) in
  length (fold_left step completions w) = 7%nat /\
  sumZ (fold_left step completions w) = sumZ w + Z.of_nat (length completions) /\
  forall k, nth k (fold_left step completions w) 0
            = nth k w 0
              + countIf (fun c => getDay tz (parseISODate c) =? Z.of_nat k) completions.
Proof.
  cbv zeta. unfold countIf.
  induction completions as [|c l IH]; intros w Hw; cbn [fold_left filter length].
  - repeat split; [assumption|lia|intros k; cbn; lia].
  - pose proof (getDay_range tz (parseISODate c)) as R.
    assert (Hi : (Z.to_nat (getDay tz (parseISODate c)) < length w)%nat) by lia.
    destruct (IH (increment w (Z.to_nat (getDay tz (parseISODate c)))))
      as [L [S N]]; [now rewrite increment_length|].
    repeat split; [assumption| |].
    + rewrite S, increment_sum by assumption. lia.
    + intros k. rewrite N, increment_nth by assumption.
      destruct (Z.eqb_spec (getDay tz (parseISODate c)) (Z.of_nat k)) as [E|E];
        destruct (Nat.eqb_spec k (Z.to_nat (getDay tz (parseISODate c)))) as [F|F];
        cbn [length]; lia.
Qed.

Lemma isoShift_div tz : - msPerDay <= tz < msPerDay -> tz / msPerDay = isoShift tz.
Proof.
  intros H. unfold isoShift. destruct (Z.ltb_spec tz 0).
  - symmetry. apply Z.div_unique with (r := tz + msPerDay); lia.
  - apply Z.div_small. lia.
Qed.

Lemma getDay_parseISODate tz c :
  - msPerDay <= tz < msPerDay ->
  getDay tz (parseISODate c) = weekdayOf (c + isoShift tz).
Proof.
  intros H. unfold getDay, weekdayOf.
  now rewrite localDay_parseISODate, isoShift_div.
Qed.

End WeeklyBuckets.

(** X25.  [generateWeeklyData] returns seven counters whose sum is the number of
    completions.  For an offset from UTC of less than a day, counter [k]
    counts the completions whose date has weekday [k] at UTC and east of
    it, and those whose previous day has weekday [k] west of UTC. *)
Theorem generateWeeklyData_buckets :
  forall (tz : Z) (completions : list DateStr),
    (- msPerDay <= tz < msPerDay)%Z ->
    let weeklyData := generateWeeklyData tz completions in
    length weeklyData = 7%nat /\
    sumZ weeklyData = Z.of_nat (length completions) /\
    forall k : nat,
      nth k weeklyData 0%Z
      = countIf (fun c => (weekdayOf (c + isoShift tz) =? Z.of_nat k)%Z) completions.
Proof.
  intros tz completions Htz weeklyData.
  destruct (weeklyFold tz completions [0; 0; 0; 0; 0; 0; 0]%Z eq_refl) as [L [S N]].
  subst weeklyData. unfold generateWeeklyData.
  repeat split; [exact L | rewrite S; cbn; lia |].
  intros k. rewrite N.
  replace (nth k [0; 0; 0; 0; 0; 0; 0]%Z 0%Z) with 0%Z
    by (do 8 (destruct k as [|k]; [reflexivity|]); reflexivity).
  unfold countIf. cbn [Z.add]. do 2 f_equal.
  apply filter_ext. intros c. now rewrite getDay_parseISODate.
Qed.

Section CsvZoned.
Local Open Scope Z_scope.
Variable z : Zoned.Zone.
Variables first today : Z.

(** The offset at the start of the loop is less than a day. *)
Hypothesis start_offset :
  - msPerDay <= Zoned.offsetAt z (parseISODate first) < msPerDay.

(** The local times of the later rounds exist, with offsets less than a
    day from the offset at the start. *)
Hypothesis rounds_exist : forall i, 1 <= i <= today - first + 1 ->
  Zoned.offsetAt z (Zoned.utc z (columnTime z first i))
  = Zoned.offsetOf z (columnTime z first i).
Hypothesis rounds_close : forall i, 1 <= i <= today - first + 1 ->
  - msPerDay
  < Zoned.offsetOf z (columnTime z first i) - Zoned.offsetAt z (parseISODate first)
  < msPerDay.

Lemma csv_first_step :
  Zoned.addDays z (parseISODate first) 1 = Zoned.utc z (columnTime z first 1).
Proof. reflexivity. Qed.

Lemma csv_localTime i : 1 <= i <= today - first + 1 ->
  Zoned.localTime z (Zoned.utc z (columnTime z first i)) = columnTime z first i.
Proof.
  intros Hi. unfold Zoned.localTime at 1. rewrite (rounds_exist i Hi).
  unfold Zoned.utc. lia.
Qed.

Lemma csv_step i : 1 <= i <= today - first + 1 ->
  Zoned.addDays z (Zoned.utc z (columnTime z first i)) 1
  = Zoned.utc z (columnTime z first (i + 1)).
Proof.
  intros Hi. unfold Zoned.addDays. rewrite (csv_localTime i Hi).
  f_equal. unfold columnTime. lia.
Qed.

Lemma csv_column_div i : 0 <= i ->
  columnTime z first i / msPerDay
  = first + isoShift (Zoned.offsetAt z (parseISODate first)) + i.
Proof.
  intros Hi. unfold columnTime, Zoned.localTime.
  pose proof start_offset as A.
  remember (Zoned.offsetAt z (parseISODate first)) as a eqn:Ea.
  unfold parseISODate, isoShift. pose proof msPerDay_pos as P.
  destruct (Z.ltb_spec a 0).
  - symmetry. apply Z.div_unique with (r := a + msPerDay); lia.
  - symmetry. apply Z.div_unique with (r := a); lia.
Qed.

Lemma csv_format_first :
  Zoned.formatDate z (parseISODate first)
  = first + isoShift (Zoned.offsetAt z (parseISODate first)).
Proof.
  unfold Zoned.formatDate, Zoned.localDay.
  replace (Zoned.localTime z (parseISODate first)) with (columnTime z first 0)
    by (unfold columnTime; lia).
  rewrite csv_column_div by lia. lia.
Qed.

Lemma csv_format i : 1 <= i <= today - first + 1 ->
  Zoned.formatDate z (Zoned.utc z (columnTime z first i))
  = first + isoShift (Zoned.offsetAt z (parseISODate first)) + i.
Proof.
  intros Hi. unfold Zoned.formatDate, Zoned.localDay.
  rewrite (csv_localTime i Hi). apply csv_column_div. lia.
Qed.

(** Whether round [i] starts: before the last day it does, after it it
    does not, and on the last day the offsets decide. *)
Lemma csv_condition i : 1 <= i <= today - first + 1 ->
  (Zoned.utc z (columnTime z first i) <=? parseISODate today)
  = if i <? today - first then true
    else if i =? today - first
         then (Zoned.offsetAt z (parseISODate first)
               <=? Zoned.offsetOf z (columnTime z first i))
         else false.
Proof.
  intros Hi. pose proof (rounds_close i Hi) as C. pose proof start_offset as A.
  unfold Zoned.utc.
  remember (Zoned.offsetOf z (columnTime z first i)) as o eqn:Eo.
  unfold columnTime, Zoned.localTime.
  remember (Zoned.offsetAt z (parseISODate first)) as a eqn:Ea.
  unfold parseISODate in *. pose proof msPerDay_pos as P.
  destruct (Z.ltb_spec i (today - first)).
  - apply Z.leb_le. nia.
  - destruct (Z.eqb_spec i (today - first)) as [E|E].
    + destruct (Z.leb_spec a o); [apply Z.leb_le|apply Z.leb_gt]; nia.
    + apply Z.leb_gt. nia.
Qed.

Lemma csv_from fuel : forall (m : nat) i dates,
  1 <= i <= today - first + 1 ->
  Z.of_nat m = today - first + 1 - i -> (m <= fuel)%nat ->
  Zoned.csvDatesLoop z fuel (Zoned.utc z (columnTime z first i))
    (parseISODate today) dates
  = Some (dates ++
          map (fun k => first + isoShift (Zoned.offsetAt z (parseISODate first))
                        + Z.of_nat k)
              (seq (Z.to_nat i)
                   (Z.to_nat (today - first
                              + (if todayHasColumn z first today then 1 else 0)
                              - i)))).
Proof.
  induction fuel as [|fuel IH]; intros m i dates Hi Hm Hf.
  - (* no round left: the loop is at its end *)
    assert (i = today - first + 1) by lia. subst i.
    cbn [Zoned.csvDatesLoop]. rewrite csv_condition by lia.
    destruct (Z.ltb_spec (today - first + 1) (today - first)); [lia|].
    destruct (Z.eqb_spec (today - first + 1) (today - first)); [lia|].
    cbn [negb].
    replace (Z.to_nat (today - first
                       + (if todayHasColumn z first today then 1 else 0)
                       - (today - first + 1)))
      with 0%nat by (destruct (todayHasColumn z first today); lia).
    cbn [seq map]. now rewrite app_nil_r.
  - cbn [Zoned.csvDatesLoop]. rewrite csv_condition by lia.
    destruct (Z.ltb_spec i (today - first)) as [Lt|Ge].
    + cbn [negb]. rewrite csv_step, csv_format by lia.
      destruct m as [|m]; [lia|].
      rewrite (IH m (i + 1)) by lia.
      f_equal. rewrite <- app_assoc. f_equal.
      replace (Z.to_nat (today - first
                         + (if todayHasColumn z first today then 1 else 0) - i))
        with (S (Z.to_nat (today - first
                           + (if todayHasColumn z first today then 1 else 0)
                           - (i + 1))))
        by (destruct (todayHasColumn z first today); lia).
      cbn [seq map app]. f_equal; [lia|].
      replace (S (Z.to_nat i)) with (Z.to_nat (i + 1)) by lia. reflexivity.
    + destruct (Z.eqb_spec i (today - first)) as [E|E].
      * assert (Tc : todayHasColumn z first today
                     = (Zoned.offsetAt z (parseISODate first)
                        <=? Zoned.offsetOf z (columnTime z first i))).
        { unfold todayHasColumn. rewrite <- E.
          destruct (Z.eqb_spec first today); [lia|reflexivity]. }
        rewrite Tc.
        destruct (Zoned.offsetAt z (parseISODate first)
                  <=? Zoned.offsetOf z (columnTime z first i)) eqn:Eo; cbn [negb].
        -- rewrite csv_step, csv_format by lia.
           destruct m as [|m]; [lia|].
           rewrite (IH m (i + 1)) by lia. rewrite Tc, <- E.
           f_equal. rewrite <- app_assoc. f_equal.
           replace (Z.to_nat (i + 1 - (i + 1))) with 0%nat by lia.
           replace (Z.to_nat (i + 1 - i)) with 1%nat by lia.
           cbn [seq map app]. f_equal. lia.
        -- replace (Z.to_nat (today - first + 0 - i)) with 0%nat by lia.
           cbn [seq map]. now rewrite app_nil_r.
      * cbn [negb].
        replace (Z.to_nat (today - first
                           + (if todayHasColumn z first today then 1 else 0)
                           - i))
          with 0%nat by (destruct (todayHasColumn z first today); lia).
        cbn [seq map]. now rewrite app_nil_r.
Qed.

End CsvZoned.

(** X26.  The date columns of [exportToCSV] are consecutive days.  They
    start on the earliest completion date (today without completions), or
    on the day before it when the offset from UTC at midnight UTC of that
    date is negative.  There is one column for each day from the earliest
    completion date to yesterday, and one more, so that the last column
    is today's, only when the loop starts today or the offset at its last
    round is not below the offset at its start: after a change to a
    smaller offset (the end of summer time) today has no column.  This
    holds when the local times of the rounds exist and all offsets are
    less than a day apart. *)
Theorem exportToCSV_dates_columns :
  forall (z : Zoned.Zone) (nowMs : Z) (completions : list DateStr)
         (first : DateStr),
    let today := Zoned.formatDate z nowMs in
    let startOffset := Zoned.offsetAt z (parseISODate first) in
    (completions = [] /\ first = today \/
     In first completions /\ forall d, In d completions -> (first <= d)%Z) ->
    (- msPerDay <= startOffset < msPerDay)%Z ->
    (forall i : Z, (1 <= i <= today - first + 1)%Z ->
       Zoned.offsetAt z (Zoned.utc z (columnTime z first i))
       = Zoned.offsetOf z (columnTime z first i)) ->
    (forall i : Z, (1 <= i <= today - first + 1)%Z ->
       (- msPerDay
        < Zoned.offsetOf z (columnTime z first i) - startOffset
        < msPerDay)%Z) ->
    Zoned.exportToCSV_dates z nowMs completions
    = Some (map (fun i => (first + isoShift startOffset + Z.of_nat i)%Z)
                (seq 0 (Z.to_nat
                          (today - first
                           + (if todayHasColumn z first today then 1 else 0))))).
Proof.
  intros z nowMs l first. cbv zeta. intros Hfirst Ha Hrt Hcl.
  unfold Zoned.exportToCSV_dates. cbv zeta.
  remember (Zoned.formatDate z nowMs) as today eqn:Et.
  assert (Es : match sortDates l with f :: _ => f | [] => today end = first).
  { destruct (sortDates l) as [|f r] eqn:E.
    - apply sortDates_nil in E. subst l.
      destruct Hfirst as [[_ ->]|[[] _]]. reflexivity.
    - assert (Hf : In f l).
      { apply has_In_iff. rewrite <- has_sortDates, E. cbn [has existsb].
        now rewrite Z.eqb_refl. }
      destruct Hfirst as [[-> _]|[Hin Hmin]]; [destruct Hf|].
      pose proof (sortDates_head_min l f r E first Hin).
      pose proof (Hmin f Hf). lia. }
  rewrite Es. clear Es Hfirst.
  pose proof msPerDay_pos as P.
  destruct (Z.lt_ge_cases today first) as [Lt|Ge].
  - (* a first completion after today: the loop does not start *)
    replace (Z.to_nat _) with 0%nat
      by (destruct (todayHasColumn z first today); lia).
    cbn [seq map].
    assert (C : (parseISODate first <=? parseISODate today)%Z = false)
      by (apply Z.leb_gt; unfold parseISODate; nia).
    destruct (Zoned.csvFuel (parseISODate first) (parseISODate today));
      cbn [Zoned.csvDatesLoop]; rewrite C; reflexivity.
  - assert (F : Zoned.csvFuel (parseISODate first) (parseISODate today)
               = S (Z.to_nat (today - first))).
    { unfold Zoned.csvFuel, parseISODate.
      replace (today * msPerDay - first * msPerDay)%Z
        with ((today - first) * msPerDay)%Z by lia.
      rewrite Z.div_mul by lia. lia. }
    rewrite F. cbn [Zoned.csvDatesLoop].
    assert (C : (parseISODate first <=? parseISODate today)%Z = true)
      by (apply Z.leb_le; unfold parseISODate; nia).
    rewrite C. cbn [negb app].
    rewrite (csv_first_step z first), (csv_format_first z first Ha).
    rewrite (csv_from z first today Ha Hrt Hcl (Z.to_nat (today - first))
               (Z.to_nat (today - first)) 1) by lia.
    f_equal.
    assert (T : (1 <= today - first
                      + (if todayHasColumn z first today then 1 else 0))%Z).
    { destruct (todayHasColumn z first today) eqn:Tc; [lia|].
      unfold todayHasColumn in Tc. apply orb_false_elim in Tc as [Tc _].
      apply Z.eqb_neq in Tc. lia. }
    remember (today - first
              + (if todayHasColumn z first today then 1 else 0))%Z as cnt eqn:Ec.
    replace (Z.to_nat cnt) with (S (Z.to_nat (cnt - 1))) by lia.
    cbn [seq map app]. change (Z.to_nat 1) with 1%nat.
    f_equal. cbn [Z.of_nat]. lia.
Qed.

(* ================================================================== *)
(** * The statistics dialog *)
(* ================================================================== *)

Section Integers.
Import Binary64 Binary64Facts.

(** The integers below 2^53 are binary64 numbers. *)
Lemma round64_Z n : (0 <= n < 2 ^ 53)%Z -> round64 (inject_Z n) == inject_Z n.
Proof.
  intros [H0 H1]. destruct (Z.eq_dec n 0) as [->|Hn]; [reflexivity|].
  assert (Hp : 0 < inject_Z n) by (rewrite <- (Zlt_Qlt 0); lia).
  rewrite (round64_pos _ Hp). unfold round_pos, ulp_exp.
  pose proof (ilog2_spec (inject_Z n) Hp) as [L U].
  set (g := ilog2 (inject_Z n)) in *.
  assert (G0 : (0 <= g)%Z).
  { apply Z.le_ngt. intro X.
    assert (pow2 (g + 1) <= pow2 0) by (apply pow2_le; lia).
    assert (1 <= inject_Z n) by (rewrite <- (Zle_Qle 1); lia).
    change (pow2 0) with 1 in *. lra. }
  assert (G1 : (g <= 52)%Z).
  { apply Z.le_ngt. intro X.
    assert (pow2 53 <= pow2 g) by (apply pow2_le; lia).
    assert (inject_Z n < pow2 53)
      by (rewrite pow2_Z by lia; rewrite <- Zlt_Qlt; lia).
    lra. }
  unfold emin, mant. rewrite Z.max_l by lia.
  remember (52 - g)%Z as k eqn:Ek.
  replace (g - 52)%Z with (- k)%Z by lia.
  unfold fixres.
  assert (E : inject_Z n / pow2 (- k) == inject_Z (n * 2 ^ k)).
  { rewrite pow2_opp, inject_Z_mult, <- pow2_Z by lia.
    pose proof (pow2_pos k). field. lra. }
  assert (R : rne (inject_Z n / pow2 (- k)) = (n * 2 ^ k)%Z).
  { rewrite <- (rne_Z (n * 2 ^ k)).
    apply Z.le_antisymm; apply rne_le; rewrite E; apply Qle_refl. }
  rewrite R, inject_Z_mult, <- pow2_Z by lia.
  rewrite <- Qmult_assoc, <- pow2_add.
  replace (k + - k)%Z with 0%Z by lia. change (pow2 0) with 1. ring.
Qed.

End Integers.

Section OverviewFacts.
Import Binary64 Binary64Facts.
Variable clock : Clock.
Variable stateCompletions : Z -> option (list DateStr).
Variable todayStr : DateStr.

Lemma getHabitStats_some dates h :
  exists stats, getHabitStats clock dates h = Some stats /\
                0 <= statScore stats <= 1.
Proof.
  destruct (calculateStreak_total clock dates h) as [cs Hcs].
  destruct (calculateBestStreak_total clock dates h) as [bs Hbs].
  unfold getHabitStats. rewrite Hcs, Hbs. cbn [bindFuel].
  eexists. split; [reflexivity|]. cbn [statScore].
  unfold calculateHabitScore. apply scoreWalk_range. lra.
Qed.

Lemma fadd_count t s k :
  (0 <= k)%Z -> (k + 1 < 2 ^ 53)%Z ->
  0 <= t <= inject_Z k -> 0 <= s <= 1 ->
  0 <= t +! s <= inject_Z (k + 1).
Proof.
  intros Hk Hb [T0 T1] [S0 S1]. unfold fadd. split.
  - apply round64_nonneg. lra.
  - apply round64_le_fixed; [apply round64_Z; lia|].
    rewrite inject_Z_plus. change (inject_Z 1) with 1. lra.
Qed.

Let doneToday (entry : Z * Habit) : bool :=
  includes (completionsOf stateCompletions (fst entry)) todayStr.

Lemma overviewLoop_spec : forall habits c b t k,
  (0 <= k)%Z -> (k + Z.of_nat (length habits) < 2 ^ 53)%Z ->
  0 <= t <= inject_Z k ->
  exists c' b' t',
    overviewLoop clock stateCompletions todayStr habits (c, b, t)
      = Some (c', b', t') /\
    c' = (c + countIf doneToday habits)%Z /\
    (b <= b')%Z /\
    (forall id h stats, In (id, h) habits ->
       getHabitStats clock (completionsOf stateCompletions id) h = Some stats ->
       (bestStreak stats <= b')%Z) /\
    (b' = b \/
     exists id h stats, In (id, h) habits /\
       getHabitStats clock (completionsOf stateCompletions id) h = Some stats /\
       bestStreak stats = b') /\
    0 <= t' <= inject_Z (k + Z.of_nat (length habits)).
Proof.
  induction habits as [|[id h] rest IH]; intros c b t k Hk Hb Ht.
  - exists c, b, t. cbn [overviewLoop length Z.of_nat]. unfold countIf. cbn.
    rewrite !Z.add_0_r. repeat split; try lia; try tauto.
  - cbn [length] in Hb. cbn [overviewLoop]. unfold overviewStep at 1.
    destruct (getHabitStats_some (completionsOf stateCompletions id) h)
      as [stats [Hst Hsc]].
    rewrite Hst. cbn [bindFuel].
    pose proof (fadd_count t (statScore stats) k Hk ltac:(lia) Ht Hsc) as Ht1.
    destruct (IH (if includes (completionsOf stateCompletions id) todayStr
                  then (c + 1)%Z else c)
                 (if (b <? bestStreak stats)%Z then bestStreak stats else b)
                 (t +! statScore stats) (k + 1)%Z
                 ltac:(lia) ltac:(lia) Ht1)
      as [c' [b' [t' [E [Hc [Hb' [Hmax [Hatt Ht']]]]]]]].
    exists c', b', t'. split; [exact E|].
    assert (Bm : (b <= (if (b <? bestStreak stats)%Z then bestStreak stats else b))%Z
                 /\ (bestStreak stats
                     <= (if (b <? bestStreak stats)%Z then bestStreak stats else b))%Z)
      by (destruct (Z.ltb_spec b (bestStreak stats)); lia).
    repeat split.
    + rewrite Hc. unfold countIf. cbn [filter]. unfold doneToday at 2. cbn [fst].
      destruct (includes _ _); cbn [length]; lia.
    + lia.
    + intros id' h' stats' [X|X] G.
      * injection X as <- <-. rewrite Hst in G. injection G as <-. lia.
      * now apply (Hmax id' h' stats').
    + destruct Hatt as [X|[id' [h' [stats' [I [G X]]]]]].
      * destruct (Z.ltb_spec b (bestStreak stats)); [|left; lia].
        right. exists id, h, stats. split; [now left|]. split; [assumption|lia].
      * right. exists id', h', stats'. split; [now right|]. now split.
    + apply Ht'.
    + cbn [length].
      replace (k + Z.of_nat (S (length rest)))%Z
        with (k + 1 + Z.of_nat (length rest))%Z by lia. apply Ht'.
Qed.

End OverviewFacts.

(** X27.  For a list of fewer than 2^32 habits, [openStatisticsModal] shows: the
    number of habits; the number of habits whose completions include
    today, which is at most that number; an average score in [0, 1] and
    its percentage between 0 and 100; and a best streak that bounds the
    best streak of every habit and is 0 or the best streak of one of
    them. *)
Theorem openStatisticsModal_figures :
  forall (clock : Clock) (stateHabits : list (Z * Habit))
         (stateCompletions : Z -> option (list DateStr)),
    (Z.of_nat (length stateHabits) < 2 ^ 32)%Z ->
    let todayStr := formatDate (tzOffset clock) (getToday clock) in
    exists o : Overview,
      openStatisticsModal clock stateHabits stateCompletions = Some o /\
      totalHabits o = Z.of_nat (length stateHabits) /\
      completedToday o
        = countIf (fun entry =>
                     includes (completionsOf stateCompletions (fst entry)) todayStr)
                  stateHabits /\
      (0 <= completedToday o <= totalHabits o)%Z /\
      0 <= avgScore o <= 1 /\
      (0 <= overallScore o <= 100)%Z /\
      (forall id habit stats, In (id, habit) stateHabits ->
         getHabitStats clock (completionsOf stateCompletions id) habit = Some stats ->
         (bestStreak stats <= overallBestStreak o)%Z) /\
      (overallBestStreak o = 0%Z \/
       exists id habit stats, In (id, habit) stateHabits /\
         getHabitStats clock (completionsOf stateCompletions id) habit = Some stats /\
         bestStreak stats = overallBestStreak o).
Proof.
  intros clock habits comps Hlen todayStr.
  destruct (overviewLoop_spec clock comps todayStr habits 0%Z 0%Z 0 0%Z)
    as [c [b [t [E [Hc [Hb [Hmax [Hatt Ht]]]]]]]];
    [lia | lia | split; apply Qle_refl |].
  unfold openStatisticsModal. cbv zeta. fold todayStr. rewrite E. cbn [bindFuel].
  eexists. split; [reflexivity|].
  cbn [totalHabits completedToday avgScore overallScore overallBestStreak].
  assert (A : 0 <= (if (0 <? Z.of_nat (length habits))%Z
                    then t /! inject_Z (Z.of_nat (length habits)) else 0) <= 1).
  { destruct (Z.ltb_spec 0 (Z.of_nat (length habits))) as [P|P];
      [|split; [apply Qle_refl|discriminate]].
    assert (P' : 0 < inject_Z (Z.of_nat (length habits)))
      by (rewrite <- (Zlt_Qlt 0); assumption).
    cbn [Z.add] in Ht. unfold Binary64.fdiv. split.
    - apply Binary64Facts.round64_nonneg. apply Qle_shift_div_l; [assumption|lra].
    - apply Binary64Facts.round64_le_1. apply Qle_shift_div_r; [assumption|lra]. }
  assert (C : c = countIf (fun entry =>
                 includes (completionsOf comps (fst entry)) todayStr) habits)
    by (rewrite Hc; apply Z.add_0_l).
  split; [reflexivity|]. split; [exact C|]. split.
  { rewrite C. unfold countIf.
    pose proof (filter_length_le
      (fun entry => includes (completionsOf comps (fst entry)) todayStr) habits).
    lia. }
  split; [exact A|]. split; [now apply strengthPercent_range|].
  split; assumption.
Qed.

(* ================================================================== *)
(** * Instances *)
(* ================================================================== *)

Lemma scoreHistory_step_direction_witness :
  let clock := mkClock (ymd 2024 1 3 * msPerDay) 0 in
  let habit := mkHabit (Some Daily) None None None (ymd 2024 1 1 * msPerDay)%Z in
  let completedDates := [ymd 2024 1 1; ymd 2024 1 3] in
  let scores := runningScores clock completedDates habit 3 in
  (0 < Z.to_nat 3)%nat /\
  isDayScheduled (tzOffset clock) (dayAt clock (3 - 1 - Z.of_nat 0)) habit = true /\
  has completedDates
      (formatDate (tzOffset clock) (dayAt clock (3 - 1 - Z.of_nat 0))) = true /\
  prevScore scores 0 < nth 0 scores 0.
Proof.
  cbv zeta. split; [vm_compute; lia|]. split; [reflexivity|]. split; [reflexivity|].
  refine (proj1 (proj1
    (scoreHistory_step_direction (mkClock (ymd 2024 1 3 * msPerDay) 0)
       [ymd 2024 1 1; ymd 2024 1 3]
       (mkHabit (Some Daily) None None None (ymd 2024 1 1 * msPerDay)%Z)
       3%Z 0%nat _ eq_refl) eq_refl) _).
  - vm_compute. lia.
  - reflexivity.
Defined.

Lemma scoreHistory_step_size_witness :
  let clock := mkClock (ymd 2024 1 3 * msPerDay) 0 in
  let habit := mkHabit (Some Daily) None None None (ymd 2024 1 1 * msPerDay)%Z in
  let completedDates := [ymd 2024 1 1; ymd 2024 1 3] in
  let scores := runningScores clock completedDates habit 3 in
  (1 < Z.to_nat 3)%nat /\
  prevScore scores 1 -! SCORE_DECREASE <= nth 1 scores 0
    <= prevScore scores 1 +! SCORE_INCREASE.
Proof.
  cbv zeta. split; [vm_compute; lia|].
  refine (proj1
    (scoreHistory_step_size (mkClock (ymd 2024 1 3 * msPerDay) 0)
       [ymd 2024 1 1; ymd 2024 1 3]
       (mkHabit (Some Daily) None None None (ymd 2024 1 1 * msPerDay)%Z)
       3%Z 1%nat _)).
  vm_compute. lia.
Defined.

Lemma statistics_depend_on_the_set_of_dates_witness :
  let clock := mkClock (ymd 2024 1 3 * msPerDay) 0 in
  let habit := mkHabit (Some Daily) None None None (ymd 2024 1 1 * msPerDay)%Z in
  let dates1 := [ymd 2024 1 2; ymd 2024 1 3] in
  let dates2 := [ymd 2024 1 3; ymd 2024 1 2; ymd 2024 1 3] in
  (forall d, In d dates1 <-> In d dates2) /\
  calculateStreak clock dates1 habit = calculateStreak clock dates2 habit.
Proof.
  cbv zeta.
  assert (H : forall d, In d [ymd 2024 1 2; ymd 2024 1 3]
                        <-> In d [ymd 2024 1 3; ymd 2024 1 2; ymd 2024 1 3])
    by (intros d; simpl; tauto).
  split; [exact H|].
  exact (proj1 (proj2 (proj2 (proj2
    (statistics_depend_on_the_set_of_dates (mkClock (ymd 2024 1 3 * msPerDay) 0)
       (mkHabit (Some Daily) None None None (ymd 2024 1 1 * msPerDay)%Z)
       [ymd 2024 1 2; ymd 2024 1 3]
       [ymd 2024 1 3; ymd 2024 1 2; ymd 2024 1 3] 30%Z H))))).
Defined.

Lemma weekly_statistics_are_daily_statistics_witness :
  let clock := mkClock (ymd 2024 1 3 * msPerDay) 0 in
  let weekly := mkHabit (Some Weekly) (Some 3%Z) None None (ymd 2024 1 1 * msPerDay)%Z in
  let daily := mkHabit (Some Daily) None None None (ymd 2024 1 1 * msPerDay)%Z in
  let completedDates := [ymd 2024 1 2; ymd 2024 1 3] in
  everyDayFrequency weekly = true /\ everyDayFrequency daily = true /\
  getHabitStats clock completedDates weekly = getHabitStats clock completedDates daily.
Proof.
  cbv zeta. split; [reflexivity|]. split; [reflexivity|].
  apply weekly_statistics_are_daily_statistics; reflexivity.
Defined.

Lemma only_scheduled_days_of_the_window_count_witness :
  let clock := mkClock (ymd 2024 1 3 * msPerDay) 0 in
  let habit := mkHabit (Some Interval) None (Some 2%Z) None (ymd 2024 1 1 * msPerDay)%Z in
  let dates1 := [ymd 2024 1 1; ymd 2024 1 2] in
  let dates2 := [ymd 2023 12 1; ymd 2024 1 1] in
  (forall i : Z, (0 <= i < 3)%Z ->
     isDayScheduled (tzOffset clock) (dayAt clock i) habit = true ->
     (In (formatDate (tzOffset clock) (dayAt clock i)) dates1 <->
      In (formatDate (tzOffset clock) (dayAt clock i)) dates2)) /\
  calculateHabitScore clock dates1 habit 3 = calculateHabitScore clock dates2 habit 3.
Proof.
  cbv zeta.
  assert (H : forall i : Z, (0 <= i < 3)%Z ->
     isDayScheduled 0 (dayAt (mkClock (ymd 2024 1 3 * msPerDay) 0) i)
       (mkHabit (Some Interval) None (Some 2%Z) None (ymd 2024 1 1 * msPerDay)%Z) = true ->
     (In (formatDate 0 (dayAt (mkClock (ymd 2024 1 3 * msPerDay) 0) i))
         [ymd 2024 1 1; ymd 2024 1 2] <->
      In (formatDate 0 (dayAt (mkClock (ymd 2024 1 3 * msPerDay) 0) i))
         [ymd 2023 12 1; ymd 2024 1 1])).
  { intros i Hi. assert (E : i = 0%Z \/ i = 1%Z \/ i = 2%Z) by lia.
    destruct E as [-> | [-> | ->]]; vm_compute; intros S; try discriminate S; lia. }
  split; [exact H|].
  exact (proj1
    (only_scheduled_days_of_the_window_count (mkClock (ymd 2024 1 3 * msPerDay) 0)
       (mkHabit (Some Interval) None (Some 2%Z) None (ymd 2024 1 1 * msPerDay)%Z)
       [ymd 2024 1 1; ymd 2024 1 2] [ymd 2023 12 1; ymd 2024 1 1] 3%Z H)).
Defined.

Lemma no_scheduled_completion_no_score_witness :
  let clock := mkClock (ymd 2024 1 3 * msPerDay) 0 in
  let habit := mkHabit (Some Interval) None (Some 2%Z) None (ymd 2024 1 1 * msPerDay)%Z in
  let completedDates := [ymd 2024 1 2] in
  (forall i : Z, (0 <= i < 3)%Z ->
     isDayScheduled (tzOffset clock) (dayAt clock i) habit
     && has completedDates (formatDate (tzOffset clock) (dayAt clock i)) = false) /\
  calculateHabitScore clock completedDates habit 3 = 0.
Proof.
  cbv zeta.
  assert (H : forall i : Z, (0 <= i < 3)%Z ->
     isDayScheduled 0 (dayAt (mkClock (ymd 2024 1 3 * msPerDay) 0) i)
       (mkHabit (Some Interval) None (Some 2%Z) None (ymd 2024 1 1 * msPerDay)%Z)
     && has [ymd 2024 1 2]
          (formatDate 0 (dayAt (mkClock (ymd 2024 1 3 * msPerDay) 0) i)) = false).
  { intros i Hi. assert (E : i = 0%Z \/ i = 1%Z \/ i = 2%Z) by lia.
    destruct E as [-> | [-> | ->]]; vm_compute; reflexivity. }
  split; [exact H|].
  exact (proj1
    (no_scheduled_completion_no_score (mkClock (ymd 2024 1 3 * msPerDay) 0)
       [ymd 2024 1 2]
       (mkHabit (Some Interval) None (Some 2%Z) None (ymd 2024 1 1 * msPerDay)%Z)
       3%Z H)).
Defined.

Lemma never_scheduled_habit_has_no_statistics_witness :
  let clock := mkClock (ymd 2024 1 3 * msPerDay) 0 in
  let habit := mkHabit (Some SpecificDays) None None (Some []) (ymd 2024 1 1 * msPerDay)%Z in
  let completedDates := [ymd 2024 1 2; ymd 2024 1 3] in
  frequency habit = Some SpecificDays /\ specificDays habit = Some [] /\
  calculateStreak clock completedDates habit = Some 0%Z /\
  calculateBestStreak clock completedDates habit = Some 0%Z.
Proof.
  cbv zeta. split; [reflexivity|]. split; [reflexivity|].
  exact (proj2 (proj2
    (never_scheduled_habit_has_no_statistics (mkClock (ymd 2024 1 3 * msPerDay) 0)
       [ymd 2024 1 2; ymd 2024 1 3]
       (mkHabit (Some SpecificDays) None None (Some []) (ymd 2024 1 1 * msPerDay)%Z)
       30%Z eq_refl eq_refl))).
Defined.

Lemma completionRate_one_when_all_done_witness :
  let clock := mkClock (ymd 2024 1 3 * msPerDay) 0 in
  let habit := mkHabit (Some Interval) None (Some 2%Z) None (ymd 2024 1 1 * msPerDay)%Z in
  let completedDates := [ymd 2024 1 1; ymd 2024 1 3] in
  (exists i : Z, (0 <= i < 3)%Z /\
     isDayScheduled (tzOffset clock) (dayAt clock i) habit = true) /\
  (forall i : Z, (0 <= i < 3)%Z ->
     isDayScheduled (tzOffset clock) (dayAt clock i) habit = true ->
     has completedDates (formatDate (tzOffset clock) (dayAt clock i)) = true) /\
  calculateCompletionRate clock completedDates habit 3 == 1.
Proof.
  cbv zeta.
  assert (H1 : exists i : Z, (0 <= i < 3)%Z /\
     isDayScheduled 0 (dayAt (mkClock (ymd 2024 1 3 * msPerDay) 0) i)
       (mkHabit (Some Interval) None (Some 2%Z) None (ymd 2024 1 1 * msPerDay)%Z) = true)
    by (exists 0%Z; split; [lia|reflexivity]).
  assert (H2 : forall i : Z, (0 <= i < 3)%Z ->
     isDayScheduled 0 (dayAt (mkClock (ymd 2024 1 3 * msPerDay) 0) i)
       (mkHabit (Some Interval) None (Some 2%Z) None (ymd 2024 1 1 * msPerDay)%Z) = true ->
     has [ymd 2024 1 1; ymd 2024 1 3]
       (formatDate 0 (dayAt (mkClock (ymd 2024 1 3 * msPerDay) 0) i)) = true).
  { intros i Hi. assert (E : i = 0%Z \/ i = 1%Z \/ i = 2%Z) by lia.
    destruct E as [-> | [-> | ->]]; vm_compute; intros S; try discriminate S; reflexivity. }
  split; [exact H1|]. split; [exact H2|].
  exact (completionRate_one_when_all_done (mkClock (ymd 2024 1 3 * msPerDay) 0)
           [ymd 2024 1 1; ymd 2024 1 3]
           (mkHabit (Some Interval) None (Some 2%Z) None (ymd 2024 1 1 * msPerDay)%Z)
           3%Z H1 H2).
Defined.

Lemma specific_days_repeat_weekly_witness :
  let habit := mkHabit (Some SpecificDays) None None (Some [1; 3; 5]%Z) 0%Z in
  let date := (ymd 2024 1 3 * msPerDay)%Z in
  frequency habit = Some SpecificDays /\
  isDayScheduled 0 (addDays date (7 * 1)) habit = isDayScheduled 0 date habit.
Proof.
  cbv zeta. split; [reflexivity|].
  exact (proj1
    (specific_days_repeat_weekly 0%Z (ymd 2024 1 3 * msPerDay)%Z 1%Z
       (mkHabit (Some SpecificDays) None None (Some [1; 3; 5]%Z) 0%Z) eq_refl)).
Defined.

Lemma interval_schedule_is_periodic_witness :
  let habit := mkHabit (Some Interval) None (Some 3%Z) None
                 (ymd 2024 1 1 * msPerDay + 36000000)%Z in
  let date := (ymd 2024 1 2 * msPerDay - 3600000)%Z in
  frequency habit = Some Interval /\
  (setHours0 3600000 (createdAt habit) <= date)%Z /\
  (setHours0 3600000 (createdAt habit) <= date + 2 * 3 * msPerDay)%Z /\
  isDayScheduled 3600000 (date + 2 * orDefault (interval habit) 2 * msPerDay)%Z habit
  = isDayScheduled 3600000 date habit.
Proof.
  cbv zeta. split; [reflexivity|].
  split; [vm_compute; discriminate|]. split; [vm_compute; discriminate|].
  refine (proj1 (proj2 (proj2
    (interval_schedule_is_periodic 3600000%Z (ymd 2024 1 2 * msPerDay - 3600000)%Z 2%Z
       (mkHabit (Some Interval) None (Some 3%Z) None
          (ymd 2024 1 1 * msPerDay + 36000000)%Z) eq_refl))) _ _).
  - vm_compute. discriminate.
  - vm_compute. discriminate.
Defined.

Lemma streak_positive_iff_today_or_yesterday_witness :
  let clock := mkClock (ymd 2024 1 3 * msPerDay + 54000000) 0 in
  let habit := mkHabit (Some Daily) None None None (ymd 2024 1 1 * msPerDay)%Z in
  let completedDates := [ymd 2024 1 1; ymd 2024 1 2] in
  let todayStr := formatDate (tzOffset clock) (todayOf clock) in
  everyDayFrequency habit = true /\
  exists s : Z,
    calculateStreak clock completedDates habit = Some s /\
    ((0 < s)%Z <->
     In todayStr completedDates \/ In (todayStr - 1)%Z completedDates).
Proof.
  cbv zeta. split; [reflexivity|].
  exact (streak_positive_iff_today_or_yesterday
           (mkClock (ymd 2024 1 3 * msPerDay + 54000000) 0)
           [ymd 2024 1 1; ymd 2024 1 2]
           (mkHabit (Some Daily) None None None (ymd 2024 1 1 * msPerDay)%Z)
           eq_refl).
Defined.

Lemma ticking_today_extends_the_streak_witness :
  let clock := mkClock (ymd 2024 1 3 * msPerDay + 54000000) 0 in
  let habit := mkHabit (Some Daily) None None None (ymd 2024 1 1 * msPerDay)%Z in
  let completions := [ymd 2024 1 1; ymd 2024 1 2] in
  let todayStr := formatDate (tzOffset clock) (todayOf clock) in
  isDayScheduled (tzOffset clock) (todayOf clock) habit = true /\
  ~ In todayStr completions /\
  exists s : Z,
    calculateStreak clock completions habit = Some s /\
    calculateStreak clock (updateCompletions completions todayStr true) habit
      = Some (s + 1)%Z /\
    calculateTotal (updateCompletions completions todayStr true)
      = (calculateTotal completions + 1)%Z.
Proof.
  cbv zeta.
  assert (N : ~ In (formatDate 0 (todayOf (mkClock (ymd 2024 1 3 * msPerDay + 54000000) 0)))
                [ymd 2024 1 1; ymd 2024 1 2])
    by (vm_compute; lia).
  split; [reflexivity|]. split; [exact N|].
  exact (ticking_today_extends_the_streak
           (mkClock (ymd 2024 1 3 * msPerDay + 54000000) 0)
           [ymd 2024 1 1; ymd 2024 1 2]
           (mkHabit (Some Daily) None None None (ymd 2024 1 1 * msPerDay)%Z)
           eq_refl N).
Defined.

Lemma updateCompletions_round_trip_witness :
  let completions := [ymd 2024 1 1; ymd 2024 1 2] in
  let date := ymd 2024 1 3 in
  ~ In date completions /\
  updateCompletions (updateCompletions completions date true) date false
    = completions.
Proof.
  cbv zeta.
  assert (N : ~ In (ymd 2024 1 3) [ymd 2024 1 1; ymd 2024 1 2]) by (vm_compute; lia).
  split; [exact N|].
  exact (proj1 (updateCompletions_round_trip [ymd 2024 1 1; ymd 2024 1 2]
                  (ymd 2024 1 3) N)).
Defined.

Lemma getWeekStart_starts_the_week_witness :
  let date := (ymd 2024 1 3 * msPerDay + 54000000)%Z in
  (0 <= 1 <= 6)%Z /\
  getDay 3600000 (getWeekStart 3600000 date 1) = 1%Z /\
  formatDate 3600000 (getWeekStart 3600000 date 1) = ymd 2024 1 1.
Proof.
  cbv zeta. split; [lia|]. split; [|vm_compute; reflexivity].
  refine (proj1 (proj2
    (getWeekStart_starts_the_week 3600000%Z (ymd 2024 1 3 * msPerDay + 54000000)%Z
       1%Z _))).
  lia.
Defined.

Lemma navigateDate_never_returns_to_today_witness :
  let clock := mkClock (ymd 2024 1 3 * msPerDay + 54000000) 0 in
  let yesterday := (ymd 2024 1 2 * msPerDay + 54000000)%Z in
  setHours0 (tzOffset clock) yesterday <> yesterday /\
  navigateDate clock yesterday 1 = yesterday.
Proof.
  cbv zeta.
  assert (N : setHours0 0 (ymd 2024 1 2 * msPerDay + 54000000)%Z
              <> (ymd 2024 1 2 * msPerDay + 54000000)%Z)
    by (vm_compute; discriminate).
  split; [exact N|].
  destruct (navigateDate_never_returns_to_today
              (mkClock (ymd 2024 1 3 * msPerDay + 54000000) 0)
              (ymd 2024 1 2 * msPerDay + 54000000)%Z 1%Z N) as [E|[X _]].
  - exact E.
  - vm_compute in X. discriminate X.
Defined.

Lemma generateWeeklyData_buckets_witness :
  let completions := [ymd 2024 1 1; ymd 2024 1 8; ymd 2024 1 3] in
  (- msPerDay <= -18000000 < msPerDay)%Z /\
  sumZ (generateWeeklyData (-18000000) completions) = 3%Z /\
  nth 0 (generateWeeklyData (-18000000) completions) 0%Z = 2%Z.
Proof.
  cbv zeta.
  assert (H : (- msPerDay <= -18000000 < msPerDay)%Z) by (unfold msPerDay; lia).
  split; [exact H|].
  destruct (generateWeeklyData_buckets (-18000000)%Z
              [ymd 2024 1 1; ymd 2024 1 8; ymd 2024 1 3] H) as [_ [S N]].
  split; [exact S|]. rewrite (N 0%nat). vm_compute. reflexivity.
Defined.


Lemma openStatisticsModal_figures_witness :
  let clock := mkClock (ymd 2024 1 3 * msPerDay + 54000000) 0 in
  let daily := mkHabit (Some Daily) None None None (ymd 2024 1 1 * msPerDay)%Z in
  let stateHabits := [(1%Z, daily); (2%Z, daily)] in
  let stateCompletions :=
    fun id : Z => if (id =? 1)%Z then Some [ymd 2024 1 2; ymd 2024 1 3] else None in
  (Z.of_nat (length stateHabits) < 2 ^ 32)%Z /\
  exists o : Overview,
    openStatisticsModal clock stateHabits stateCompletions = Some o /\
    completedToday o = 1%Z /\
    (0 <= overallScore o <= 100)%Z.
Proof.
  cbv zeta.
  assert (H : (Z.of_nat (length
                 [(1%Z, mkHabit (Some Daily) None None None (ymd 2024 1 1 * msPerDay)%Z);
                  (2%Z, mkHabit (Some Daily) None None None (ymd 2024 1 1 * msPerDay)%Z)])
               < 2 ^ 32)%Z) by (vm_compute; reflexivity).
  split; [exact H|].
  destruct (openStatisticsModal_figures
              (mkClock (ymd 2024 1 3 * msPerDay + 54000000) 0)
              [(1%Z, mkHabit (Some Daily) None None None (ymd 2024 1 1 * msPerDay)%Z);
               (2%Z, mkHabit (Some Daily) None None None (ymd 2024 1 1 * msPerDay)%Z)]
              (fun id : Z => if (id =? 1)%Z then Some [ymd 2024 1 2; ymd 2024 1 3] else None)
              H) as [o [E [_ [C [_ [_ [P _]]]]]]].
  exists o. split; [exact E|]. split; [|exact P].
  rewrite C. vm_compute. reflexivity.
Defined.

Section OneChange.
Local Open Scope Z_scope.
Variables change before after : Z.

(** A local time is read back with the offset in force at its instant,
    unless a change to a larger offset skips it. *)
Lemma oneChange_round_trip lt :
  lt < change + Z.min before after \/ change + Z.max before after <= lt
  \/ after <= before ->
  Zoned.offsetAt (oneChange change before after)
    (Zoned.utc (oneChange change before after) lt)
  = Zoned.offsetOf (oneChange change before after) lt.
Proof.
  intros H. unfold Zoned.utc, oneChange. cbn [Zoned.offsetAt Zoned.offsetOf].
  destruct (Z.ltb_spec lt (change + Z.max before after)) as [A|A].
  - destruct (Z.ltb_spec (lt - before) change); [reflexivity|lia].
  - destruct (Z.ltb_spec (lt - after) change); [lia|reflexivity].
Qed.

Lemma oneChange_offsetOf lt :
  Zoned.offsetOf (oneChange change before after) lt = before
  \/ Zoned.offsetOf (oneChange change before after) lt = after.
Proof. cbn [oneChange Zoned.offsetOf]. destruct (_ <? _); auto. Qed.

Lemma oneChange_offsetAt t :
  Zoned.offsetAt (oneChange change before after) t = before
  \/ Zoned.offsetAt (oneChange change before after) t = after.
Proof. cbn [oneChange Zoned.offsetAt]. destruct (_ <? _); auto. Qed.

End OneChange.

Section Samples.
Local Open Scope Z_scope.

Lemma newYork2024_value :
  newYork2024 = oneChange 1710054000000 (-18000000) (-14400000).
Proof. reflexivity. Qed.

Lemma paris2024_value : paris2024 = oneChange 1729990800000 7200000 3600000.
Proof. reflexivity. Qed.

Lemma newYork2024_midnights d :
  Zoned.offsetAt newYork2024 (Zoned.utc newYork2024 (d * msPerDay))
  = Zoned.offsetOf newYork2024 (d * msPerDay).
Proof.
  rewrite newYork2024_value. apply oneChange_round_trip.
  unfold msPerDay. lia.
Qed.

Lemma newYork2024_close d d' :
  - msPerDay
  < Zoned.offsetOf newYork2024 (d * msPerDay)
    - Zoned.offsetOf newYork2024 (d' * msPerDay)
  < msPerDay.
Proof.
  rewrite newYork2024_value.
  destruct (oneChange_offsetOf 1710054000000 (-18000000) (-14400000) (d * msPerDay))
    as [-> | ->];
    destruct (oneChange_offsetOf 1710054000000 (-18000000) (-14400000) (d' * msPerDay))
      as [-> | ->]; unfold msPerDay; lia.
Qed.

End Samples.

Lemma calculateStreak_at_most_367_witness :
  let nowMs := (ymd 2024 3 12 * msPerDay + 16 * 3600000)%Z in
  let habit := mkHabit (Some Daily) None None None (ymd 2023 1 1 * msPerDay)%Z in
  let completedDates := map (fun j => (ymd 2024 3 12 - Z.of_nat j)%Z) (seq 0 400) in
  (forall d : Z,
     Zoned.offsetAt newYork2024 (Zoned.utc newYork2024 (d * msPerDay))
     = Zoned.offsetOf newYork2024 (d * msPerDay))%Z /\
  (forall d d' : Z,
     - msPerDay
     < Zoned.offsetOf newYork2024 (d * msPerDay)
       - Zoned.offsetOf newYork2024 (d' * msPerDay)
     < msPerDay)%Z /\
  everyDayFrequency habit = true /\
  (forall j : Z, (0 <= j <= 366)%Z ->
     In (Zoned.formatDate newYork2024 nowMs - j)%Z completedDates) /\
  Zoned.calculateStreak newYork2024 nowMs completedDates habit = Some 367%Z.
Proof.
  cbv zeta.
  assert (All : forall j : Z, (0 <= j <= 366)%Z ->
            In (Zoned.formatDate newYork2024
                  (ymd 2024 3 12 * msPerDay + 16 * 3600000) - j)%Z
               (map (fun j => (ymd 2024 3 12 - Z.of_nat j)%Z) (seq 0 400))).
  { intros j Hj. apply in_map_iff. exists (Z.to_nat j). split.
    - change (Zoned.formatDate newYork2024 (ymd 2024 3 12 * msPerDay + 16 * 3600000))
        with (ymd 2024 3 12). lia.
    - apply in_seq. lia. }
  split; [exact newYork2024_midnights|]. split; [exact newYork2024_close|].
  split; [reflexivity|]. split; [exact All|].
  destruct (calculateStreak_at_most_367 newYork2024
              (ymd 2024 3 12 * msPerDay + 16 * 3600000)%Z
              (map (fun j => (ymd 2024 3 12 - Z.of_nat j)%Z) (seq 0 400))
              (mkHabit (Some Daily) None None None (ymd 2023 1 1 * msPerDay)%Z)
              newYork2024_midnights newYork2024_close)
    as [s [Hs [_ Ht]]].
  rewrite Hs. f_equal. rewrite (Ht eq_refl All). vm_compute. reflexivity.
Defined.

Lemma exportToCSV_dates_columns_witness :
  let nowMs := (ymd 2024 11 3 * msPerDay + 12 * 3600000)%Z in
  let completions := [ymd 2024 7 2; ymd 2024 7 1] in
  let first := ymd 2024 7 1 in
  let today := Zoned.formatDate paris2024 nowMs in
  let startOffset := Zoned.offsetAt paris2024 (parseISODate first) in
  (In first completions /\ forall d, In d completions -> (first <= d)%Z) /\
  (- msPerDay <= startOffset < msPerDay)%Z /\
  (forall i : Z, (1 <= i <= today - first + 1)%Z ->
     Zoned.offsetAt paris2024 (Zoned.utc paris2024 (columnTime paris2024 first i))
     = Zoned.offsetOf paris2024 (columnTime paris2024 first i)) /\
  (forall i : Z, (1 <= i <= today - first + 1)%Z ->
     (- msPerDay
      < Zoned.offsetOf paris2024 (columnTime paris2024 first i) - startOffset
      < msPerDay)%Z) /\
  today = ymd 2024 11 3 /\
  Zoned.exportToCSV_dates paris2024 nowMs completions
  = Some (map (fun i => (ymd 2024 7 1 + Z.of_nat i)%Z) (seq 0 125)) /\
  (ymd 2024 7 1 + Z.of_nat 124)%Z = ymd 2024 11 2.
Proof.
  cbv zeta.
  assert (H1 : In (ymd 2024 7 1) [ymd 2024 7 2; ymd 2024 7 1] /\
               forall d, In d [ymd 2024 7 2; ymd 2024 7 1] -> (ymd 2024 7 1 <= d)%Z).
  { split; [right; left; reflexivity|].
    intros d [<-|[<-|[]]]; vm_compute; discriminate. }
  assert (H2 : (- msPerDay
                <= Zoned.offsetAt paris2024 (parseISODate (ymd 2024 7 1))
                < msPerDay)%Z) by (vm_compute; split; [discriminate|reflexivity]).
  assert (H3 : forall i : Z,
            (1 <= i <= Zoned.formatDate paris2024
                         (ymd 2024 11 3 * msPerDay + 12 * 3600000)
                       - ymd 2024 7 1 + 1)%Z ->
            Zoned.offsetAt paris2024
              (Zoned.utc paris2024 (columnTime paris2024 (ymd 2024 7 1) i))
            = Zoned.offsetOf paris2024 (columnTime paris2024 (ymd 2024 7 1) i)).
  { intros i _. rewrite paris2024_value. apply oneChange_round_trip. lia. }
  assert (H4 : forall i : Z,
            (1 <= i <= Zoned.formatDate paris2024
                         (ymd 2024 11 3 * msPerDay + 12 * 3600000)
                       - ymd 2024 7 1 + 1)%Z ->
            (- msPerDay
             < Zoned.offsetOf paris2024 (columnTime paris2024 (ymd 2024 7 1) i)
               - Zoned.offsetAt paris2024 (parseISODate (ymd 2024 7 1))
             < msPerDay)%Z).
  { intros i _.
    change (Zoned.offsetAt paris2024 (parseISODate (ymd 2024 7 1))) with 7200000%Z.
    rewrite paris2024_value.
    destruct (oneChange_offsetOf 1729990800000 7200000 3600000
                (columnTime (oneChange 1729990800000 7200000 3600000) (ymd 2024 7 1) i))
      as [-> | ->]; unfold msPerDay; lia. }
  split; [exact H1|]. split; [exact H2|]. split; [exact H3|]. split; [exact H4|].
  split; [vm_compute; reflexivity|]. split; [|vm_compute; reflexivity].
  pose proof (exportToCSV_dates_columns paris2024
                (ymd 2024 11 3 * msPerDay + 12 * 3600000)%Z
                [ymd 2024 7 2; ymd 2024 7 1] (ymd 2024 7 1)
                (or_intror H1) H2 H3 H4) as E.
  cbv zeta in E. rewrite E. vm_compute. reflexivity.
Defined.
